(** * DigiCamCommissioning: the histogram-and-fit engine

    A shallow embedding of [utils/histogram.py] (class [Histogram]) and of the
    low-light charge-spectrum strategy [spectra_fit/fit_low_light.py], with the
    properties of the engine stated and proved over it.

    Conventions of the embedding.
    - numpy's float64 is idealised: bin axes, samples and bin contents are
      exact rationals ([Q]); fit parameters, which the code fills with NaN and
      bounds with infinities, are rationals extended with NaN and the two
      infinities ([fnum]); the Poisson errors, which need a square root, are
      real numbers extended with NaN ([rnum]). Where a result depends on the
      rounding of float64 (the bin index of [fill], the length of
      [np.arange]) the properties are stated for the numbers on which the
      float64 operations are exact ([binary64], [exact_sample], bounded
      integers). The conversion [astype(int)] is the 64-bit one
      ([to_int64]).
    - the leading ("slot") axes of every array are flattened in row-major
      order: [data] is a list of slots, each slot a list of bin contents.
      [fill_nd] takes the shape of the slots and the shape of its argument,
      so that the index arithmetic of [fill] is the one of the code on
      arrays of any shape ([ravel], [unravel]); [fill] is its instance on
      one slot axis, which is how [dark_hist.run] calls it.
    - a Python exception is a value of [exn]; code that may raise returns a
      [result]. Methods that mutate [self] are state transformers.
    - [np.load] reads the object arrays of an archive or refuses them,
      depending on the default of [allow_pickle] in the numpy at hand (true
      up to numpy 1.16.2, false since); the loading functions take that
      default as their first argument. *)

From Stdlib Require Import QArith Qround Qreals Reals Lra Lia ZArith Ascii String.
From Stdlib Require Import Sorted Psatz.
From stdpp Require Import base option list strings gmap.

Set Default Proof Using "Type".
Set Warnings "-register-all".
Local Open Scope Z_scope.

(** ** Exceptions *)

Inductive exn : Type :=
  | TypeError
  | IndexError
  | ValueError
  | ZeroDivisionError
  | AttributeError
  | KeyError
  | FileNotFoundError
  | LinAlgError
  | WrappedException (inner : exn)   (* [raise Exception(inst)] *)
  | OtherError (msg : string).

Inductive result (A : Type) : Type :=
  | Ok (a : A)
  | Raise (e : exn).
Arguments Ok {A} a.
Arguments Raise {A} e.

Definition rbind {A B} (r : result A) (k : A -> result B) : result B :=
  match r with
  | Ok a => k a
  | Raise e => Raise e
  end.

Notation "x <-? r ;; k" := (rbind r (fun x => k))
  (at level 100, r at next level, right associativity).

Definition is_ok {A} (r : result A) : bool :=
  match r with Ok _ => true | Raise _ => false end.

(** ** Numbers *)

(** The values of a float64 fit parameter. *)
Inductive fnum : Type :=
  | NaN
  | PInf
  | NInf
  | Fin (q : Q).

Definition isnan (x : fnum) : bool :=
  match x with NaN => true | _ => false end.

Definition fneg (x : fnum) : fnum :=
  match x with
  | NaN => NaN
  | PInf => NInf
  | NInf => PInf
  | Fin q => Fin (- q)
  end.

Definition fadd (x y : fnum) : fnum :=
  match x, y with
  | NaN, _ | _, NaN => NaN
  | PInf, NInf | NInf, PInf => NaN
  | PInf, _ | _, PInf => PInf
  | NInf, _ | _, NInf => NInf
  | Fin a, Fin b => Fin (a + b)
  end.

Definition fsub (x y : fnum) : fnum := fadd x (fneg y).

(** float64 division; a zero divisor gives an infinity or NaN, never an
    exception (the sign of zero is not represented). *)
Definition fdiv (x y : fnum) : fnum :=
  match x, y with
  | NaN, _ | _, NaN => NaN
  | (PInf | NInf), (PInf | NInf) => NaN
  | PInf, Fin b => if Qle_bool 0 b then PInf else NInf
  | NInf, Fin b => if Qle_bool 0 b then NInf else PInf
  | Fin _, (PInf | NInf) => Fin 0
  | Fin a, Fin b =>
      if Qeq_bool b 0 then
        (if Qeq_bool a 0 then NaN else if Qle_bool 0 a then PInf else NInf)
      else Fin (a / b)
  end.

(** [x > y]; false as soon as one side is NaN. *)
Definition fgt (x y : fnum) : bool :=
  match x, y with
  | NaN, _ | _, NaN => false
  | PInf, PInf => false
  | PInf, _ => true
  | _, PInf => false
  | NInf, _ => false
  | Fin _, NInf => true
  | Fin a, Fin b => negb (Qle_bool a b)
  end.

(** [x <= y] as a proposition, on finite values; used to state bounds. *)
Definition fle (x y : fnum) : Prop :=
  match x, y with
  | Fin a, Fin b => (a <= b)%Q
  | _, _ => False
  end.

(** The values of a float64 Poisson error. *)
Inductive rnum : Type :=
  | RNaN
  | RFin (r : R).

(** [np.sqrt] on a bin content: NaN below zero. *)
Definition np_sqrt (d : Q) : rnum :=
  if Qle_bool 0 d then RFin (sqrt (Q2R d)) else RNaN.

(** [e == 0.] *)
Definition rnum_is_zero (e : rnum) : bool :=
  match e with
  | RNaN => false
  | RFin r => if Req_dec_T r 0%R then true else false
  end.

(** ** numpy helpers *)

Definition Qgt_bool (a b : Q) : bool := negb (Qle_bool a b).
Definition Qlt_bool (a b : Q) : bool := negb (Qle_bool b a).

(** [np.arange(start, stop, step)] for Python numbers:
    [ceil((stop - start) / step)] values [start + i * step], none when that
    number is negative; the division by a zero step raises. The length is
    taken here in exact arithmetic. [np.arange] computes the quotient in
    float64: the two agree when the quotient is computed exactly, or lies
    farther from an integer than its rounding error, as it does for integer
    arguments below [2^31]; the properties of the length are stated for such
    arguments. *)
Definition arange (start stop step : Q) : result (list Q) :=
  if Qeq_bool step 0 then Raise ZeroDivisionError
  else
    let n := Z.to_nat (Qceiling ((stop - start) / step)) in
    Ok (map (fun i : nat => (start + inject_Z (Z.of_nat i) * step)%Q) (seq 0 n)).

(** [np.arange] for numpy scalars, as the elements of an array are: their
    division by zero is an infinity or NaN, not an exception, and
    [np.arange] raises [ValueError] on such a length. *)
Definition arange_np (start stop step : Q) : result (list Q) :=
  if Qeq_bool step 0 then Raise ValueError else arange start stop step.

(** [x[i]] for a Python index, negative indices counting from the end. *)
Definition py_index {A} (l : list A) (i : Z) : result A :=
  let n := Z.of_nat (length l) in
  let j := if i <? 0 then i + n else i in
  if (0 <=? j) && (j <? n) then
    match l !! Z.to_nat j with
    | Some a => Ok a
    | None => Raise IndexError
    end
  else Raise IndexError.

(** [x[i]] for a natural index. *)
Definition get {A} (l : list A) (i : nat) : result A :=
  match l !! i with
  | Some a => Ok a
  | None => Raise IndexError
  end.

(** The positions [start, start + step, ...] below [stop], at most [fuel]. *)
Fixpoint range_up (fuel : nat) (start stop step : Z) : list nat :=
  match fuel with
  | O => []
  | S fuel' =>
      if start <? stop then Z.to_nat start :: range_up fuel' (start + step) stop step
      else []
  end.

Fixpoint range_down (fuel : nat) (start stop step : Z) : list nat :=
  match fuel with
  | O => []
  | S fuel' =>
      if stop <? start then Z.to_nat start :: range_down fuel' (start + step) stop step
      else []
  end.

Definition clampZ (lo hi x : Z) : Z := Z.max lo (Z.min hi x).

(** [l[start:stop:step]] with Python's normalisation of the three numbers
    ([slice.indices]); a zero step is a [ValueError]. *)
Definition py_slice {A} (l : list A) (start stop step : Z) : result (list A) :=
  let n := Z.of_nat (length l) in
  if step =? 0 then Raise ValueError
  else
    let norm i := if i <? 0 then i + n else i in
    let positions :=
      if 0 <? step then
        range_up (length l) (clampZ 0 n (norm start)) (clampZ 0 n (norm stop)) step
      else
        range_down (length l) (clampZ (-1) (n - 1) (norm start))
                   (clampZ (-1) (n - 1) (norm stop)) step
    in
    Ok (omap (fun i => l !! i) positions).

(** [np.where(y != 0)[0]]: the positions of the nonzero entries. *)
Definition nonzero_positions (y : list Q) : list nat :=
  omap (fun p : nat * Q => if Qeq_bool (snd p) 0 then None else Some (fst p))
       (imap (fun i v => (i, v)) y).

(** [np.sum] *)
Definition Qsum (l : list Q) : Q := foldr Qplus 0%Q l.

(** The number of elements satisfying [p], as numpy's integer sum of a
    boolean array. *)
Definition count_if {A} (p : A -> bool) (l : list A) : nat :=
  length (filter (fun a => p a = true) l).

(** [np.histogram(x, bins=edges)[0]] for an array of edges: every bin is
    half-open [[lo, hi)] except the last one, which is closed; samples outside
    [[edges[0], edges[-1]]] are not counted. *)
Fixpoint bin_counts (x : list Q) (edges : list Q) : list nat :=
  match edges with
  | lo :: ((hi :: rest) as tl) =>
      (match rest with
       | [] => count_if (fun s => Qle_bool lo s && Qle_bool s hi) x
       | _ => count_if (fun s => Qle_bool lo s && Qlt_bool s hi) x
       end) :: bin_counts x tl
  | _ => []
  end.

Fixpoint increasing (edges : list Q) : bool :=
  match edges with
  | lo :: ((hi :: _) as tl) => Qle_bool lo hi && increasing tl
  | _ => true
  end.

Definition np_histogram (x : list Q) (edges : list Q) : result (list nat) :=
  if increasing edges then
    match edges with
    | [] => Raise IndexError
    | _ => Ok (bin_counts x edges)
    end
  else Raise ValueError.

Definition Qof_nat (n : nat) : Q := inject_Z (Z.of_nat n).

(** [np.add(a, b)] on arrays of equal shape (the broadcasting of axes of
    size one is not modelled: a shape mismatch is a [ValueError]). *)
Definition add1 (a : list Q) (b : list nat) : result (list Q) :=
  if decide (length a = length b)
  then Ok (zip_with (fun u v => (u + Qof_nat v)%Q) a b)
  else Raise ValueError.

Fixpoint mapM {A B} (f : A -> result B) (l : list A) : result (list B) :=
  match l with
  | [] => Ok []
  | a :: l' => b <-? f a ;; bs <-? mapM f l' ;; Ok (b :: bs)
  end.

Definition add2 (a : list (list Q)) (b : list (list nat)) : result (list (list Q)) :=
  if decide (length a = length b)
  then mapM (fun p : list Q * list nat => add1 (fst p) (snd p)) (zip a b)
  else Raise ValueError.

(** ** The histogram store *)

Inductive level : Type := DEBUG | INFO | WARNING | ERROR | CRITICAL.

(** [config[indices]]: the (P, 2) result of a previous fit for one slot. *)
Definition config_slot : Type := list (list fnum).

(** A fit function [func(p, x, config=...)] with its [__name__]. *)
Record pyfunc : Type := {
  fn_name : string;
  fn_call : list fnum -> list Q -> option config_slot -> result (list fnum)
}.

(** [fit_result]: shape (slots, n_par, 2); a row is [value, error]. *)
Record fit_array : Type := {
  n_par : nat;
  fit_slots : list (list (fnum * fnum))
}.

Record Histogram : Type := {
  data : list (list Q);
  bin_centers : list Q;
  bin_edges : list Q;
  bin_width : Q;
  errors : list (list rnum);
  underflow : list Q;
  overflow : list Q;
  fit_result : option fit_array;
  fit_result_label : option (list string);
  fit_chi2_ndof : option (list (fnum * fnum));
  fit_function : option pyfunc;
  xlabel : string;
  ylabel : string;
  label : string;
  logger : list (level * string)
}.

Definition set_data (h : Histogram) v :=
  {| data := v; bin_centers := bin_centers h; bin_edges := bin_edges h;
     bin_width := bin_width h; errors := errors h; underflow := underflow h;
     overflow := overflow h; fit_result := fit_result h;
     fit_result_label := fit_result_label h; fit_chi2_ndof := fit_chi2_ndof h;
     fit_function := fit_function h; xlabel := xlabel h; ylabel := ylabel h;
     label := label h; logger := logger h |}.

Definition set_errors (h : Histogram) v :=
  {| data := data h; bin_centers := bin_centers h; bin_edges := bin_edges h;
     bin_width := bin_width h; errors := v; underflow := underflow h;
     overflow := overflow h; fit_result := fit_result h;
     fit_result_label := fit_result_label h; fit_chi2_ndof := fit_chi2_ndof h;
     fit_function := fit_function h; xlabel := xlabel h; ylabel := ylabel h;
     label := label h; logger := logger h |}.

Definition set_flows (h : Histogram) u o :=
  {| data := data h; bin_centers := bin_centers h; bin_edges := bin_edges h;
     bin_width := bin_width h; errors := errors h; underflow := u;
     overflow := o; fit_result := fit_result h;
     fit_result_label := fit_result_label h; fit_chi2_ndof := fit_chi2_ndof h;
     fit_function := fit_function h; xlabel := xlabel h; ylabel := ylabel h;
     label := label h; logger := logger h |}.

Definition set_fit_result (h : Histogram) v :=
  {| data := data h; bin_centers := bin_centers h; bin_edges := bin_edges h;
     bin_width := bin_width h; errors := errors h; underflow := underflow h;
     overflow := overflow h; fit_result := v;
     fit_result_label := fit_result_label h; fit_chi2_ndof := fit_chi2_ndof h;
     fit_function := fit_function h; xlabel := xlabel h; ylabel := ylabel h;
     label := label h; logger := logger h |}.

Definition set_fit_result_label (h : Histogram) v :=
  {| data := data h; bin_centers := bin_centers h; bin_edges := bin_edges h;
     bin_width := bin_width h; errors := errors h; underflow := underflow h;
     overflow := overflow h; fit_result := fit_result h;
     fit_result_label := v; fit_chi2_ndof := fit_chi2_ndof h;
     fit_function := fit_function h; xlabel := xlabel h; ylabel := ylabel h;
     label := label h; logger := logger h |}.

Definition set_fit_chi2_ndof (h : Histogram) v :=
  {| data := data h; bin_centers := bin_centers h; bin_edges := bin_edges h;
     bin_width := bin_width h; errors := errors h; underflow := underflow h;
     overflow := overflow h; fit_result := fit_result h;
     fit_result_label := fit_result_label h; fit_chi2_ndof := v;
     fit_function := fit_function h; xlabel := xlabel h; ylabel := ylabel h;
     label := label h; logger := logger h |}.

Definition set_fit_function (h : Histogram) v :=
  {| data := data h; bin_centers := bin_centers h; bin_edges := bin_edges h;
     bin_width := bin_width h; errors := errors h; underflow := underflow h;
     overflow := overflow h; fit_result := fit_result h;
     fit_result_label := fit_result_label h; fit_chi2_ndof := fit_chi2_ndof h;
     fit_function := v; xlabel := xlabel h; ylabel := ylabel h;
     label := label h; logger := logger h |}.

(** [self.logger.<level>(msg)] *)
Definition log_msg (h : Histogram) (l : level) (msg : string) :=
  {| data := data h; bin_centers := bin_centers h; bin_edges := bin_edges h;
     bin_width := bin_width h; errors := errors h; underflow := underflow h;
     overflow := overflow h; fit_result := fit_result h;
     fit_result_label := fit_result_label h; fit_chi2_ndof := fit_chi2_ndof h;
     fit_function := fit_function h; xlabel := xlabel h; ylabel := ylabel h;
     label := label h; logger := logger h ++ [(l, msg)] |}.

(** [Histogram._compute_errors]:
    [self.errors = np.sqrt(self.data); self.errors[self.errors == 0.] = 1.] *)
Definition floor_error (e : rnum) : rnum :=
  if rnum_is_zero e then RFin 1%R else e.

Definition _compute_errors (h : Histogram) : Histogram :=
  set_errors h (map (map (fun d => floor_error (np_sqrt d))) (data h)).

(** The bin axis of [Histogram.__init__]: [(bin_width, bin_edges,
    bin_centers)], from the limits when no centers are given, from the
    centers otherwise. *)
Definition init_axis (centers : list Q) (bin_center_min bin_center_max width : Q)
  : result (Q * list Q * list Q) :=
  match centers with
  | [] =>
      edges <-? arange (bin_center_min - width / 2)
                       (bin_center_max + width / 2 + 1) width ;;
      cs <-? arange bin_center_min (bin_center_max + 1) width ;;
      Ok (width, edges, cs)
  | _ =>
      c0 <-? get centers 0 ;;
      c1 <-? get centers 1 ;;
      let w := (c1 - c0)%Q in
      clast <-? get centers (length centers - 1) ;;
      edges <-? arange_np (c0 - w / 2) (clast + w / 2 + 1) w ;;
      Ok (w, edges, centers)
  end.

(** [Histogram.__init__] without a file name. [data_shape] is the number of
    slots. *)
Definition __init__ (data0 : list (list Q)) (data_shape : nat) (centers : list Q)
    (bin_center_min bin_center_max width : Q) (xl yl lb : string)
  : result Histogram :=
  axis <-? init_axis centers bin_center_min bin_center_max width ;;
  let '(w, edges, cs) := axis in
  let blank d e :=
    {| data := d; bin_centers := cs; bin_edges := edges; bin_width := w;
       errors := e; underflow := replicate data_shape 0%Q;
       overflow := replicate data_shape 0%Q;
       fit_result := None; fit_result_label := None; fit_chi2_ndof := None;
       fit_function := None; xlabel := xl; ylabel := yl; label := lb;
       logger := [] |} in
  match data0 with
  | [] =>
      Ok (blank (replicate data_shape (replicate (length cs) 0%Q))
                (replicate data_shape (replicate (length cs) (RFin 0%R))))
  | _ => Ok (_compute_errors (blank data0 []))
  end.

(** [Histogram.find_bin] *)
Definition find_bin (h : Histogram) (x : Q) : result Z :=
  e0 <-? get (bin_edges h) 0 ;;
  Ok (Qfloor ((x - e0) / bin_width h)).

(** The last axis of [data]: [self.data.shape[-1]]. *)
Definition n_bins (h : Histogram) : nat :=
  match data h with
  | [] => length (bin_centers h)
  | row :: _ => length row
  end.

(** [x.astype(int)] on a float64 holding the integer [z]: [z] itself when
    it fits in 64 bits; otherwise the conversion wraps to the most negative
    integer (what the conversion instruction of x86-64 returns). *)
Definition to_int64 (z : Z) : Z :=
  if (- 2 ^ 63 <=? z) && (z <? 2 ^ 63) then z else - 2 ^ 63.

(** The bin index [fill] gives to a sample: the floor division, the
    conversion to an integer, then the two clamping assignments in the order
    of the code. The difference and the floor division are taken here in
    exact arithmetic; the code takes them in float64, and the two agree on
    the samples singled out by [exact_sample] below, for which the properties
    of the index are stated. *)
Definition hist_index (h : Histogram) (e0 v : Q) : Z :=
  let i := to_int64 (Qfloor ((v - e0) / bin_width h)) in
  let i := if Z.of_nat (n_bins h) - 1 <? i then Z.of_nat (n_bins h) - 1 else i in
  if i <? 0 then 0 else i.

(** [row[i] += 1] *)
Definition incr_bin (row : list Q) (i : nat) : result (list Q) :=
  match row !! i with
  | Some c => Ok (<[i := (c + 1)%Q]> row)
  | None => Raise IndexError
  end.

(** [self.data[dim_indices] += 1] where [dim_indices] pairs the position of
    each sample in [value] with its bin: slot [s] receives sample [s]. More
    samples than slots is an [IndexError]. *)
Fixpoint incr_slots (rows : list (list Q)) (bins : list nat) : result (list (list Q)) :=
  match bins, rows with
  | [], _ => Ok rows
  | _ :: _, [] => Raise IndexError
  | b :: bins', row :: rows' =>
      row' <-? incr_bin row b ;;
      rest <-? incr_slots rows' bins' ;;
      Ok (row' :: rest)
  end.

(** [Histogram.fill(value)] on a store with one slot axis, for a
    one-dimensional [value]: sample [s] goes to slot [s] (the optional
    [indices] is left at its default, so that the first branch of the final
    test is taken; the test itself reads [value[..., 0]], which raises on an
    empty [value]). This is the instance of [fill_nd] below for these
    shapes, lemma [fill_nd_one_axis]. *)
Definition fill (h : Histogram) (value : list Q) : result Histogram :=
  e0 <-? get (bin_edges h) 0 ;;
  let hist_indices := map (fun v => Z.to_nat (hist_index h e0 v)) value in
  _ <-? get value 0 ;;
  d <-? incr_slots (data h) hist_indices ;;
  Ok (set_data h d).

(** ** [fill] on stores and values of any shape *)

(** The number of elements of an array of shape [shape]. *)
Definition shape_size (shape : list nat) : nat := foldr Nat.mul 1%nat shape.

(** [np.indices(shape)[:, ...].reshape(len(shape), -1)[:, p]]: the index
    along every axis of the element at the flat position [p], the array being
    laid out in row-major order. *)
Fixpoint unravel (shape : list nat) (p : nat) : list nat :=
  match shape with
  | [] => []
  | _ :: rest => (p / shape_size rest)%nat :: unravel rest (p mod shape_size rest)%nat
  end.

(** The flat position of the element at the indices [idx]. *)
Fixpoint ravel (shape idx : list nat) : nat :=
  match shape, idx with
  | _ :: rest, i :: idx' => (i * shape_size rest + ravel rest idx')%nat
  | _, _ => 0%nat
  end.

(** Every index lies on its axis. *)
Definition in_bounds (shape idx : list nat) : bool :=
  forallb (fun p : nat * nat => (p.1 <? p.2)%nat) (zip idx shape).

(** [a[dim_indices] += 1] on the array [a] of shape [slot_shape + (bins,)]
    held as the list [rows] of its slots, [dim_indices] being a tuple of
    [n_idx] index arrays given here as the list of the index tuples they
    hold. More index arrays than axes, or an index beyond its axis, is an
    [IndexError]. Otherwise every element whose first [n_idx] indices are
    one of the tuples is replaced by its value plus one, once however many
    times the tuple occurs; with fewer index arrays than axes a tuple
    selects all the elements along the remaining axes. *)
Definition np_add_one_at (slot_shape : list nat) (bins : nat) (rows : list (list Q))
    (n_idx : nat) (tuples : list (list nat)) : result (list (list Q)) :=
  if (S (length slot_shape) <? n_idx)%nat then Raise IndexError
  else if forallb (in_bounds (slot_shape ++ [bins])) tuples then
    Ok (imap (fun s row =>
                imap (fun b c =>
                        if existsb (fun t => bool_decide
                                      (t = take n_idx (unravel slot_shape s ++ [b])))
                                   tuples
                        then (c + 1)%Q else c) row) rows)
  else Raise IndexError.

(** [Histogram.fill(value)] on a store whose slots have the shape
    [slot_shape] ([self.data.shape[:-1]], [data] holding the slots in
    row-major order), for a [value] of shape [vshape] given by its elements
    in row-major order; [indices] is left at its default, so that the first
    branch of the final test is taken. In the order of the code:
    [self.bin_edges[0]]; the item assignment that clamps the indices, which
    a zero-dimensional [value] (whose indices are a numpy scalar) does not
    support; [value[..., 0]] and [self.data[..., 0]] of the final test, which
    raise on an empty last axis; the addition. *)
Definition fill_nd (slot_shape : list nat) (h : Histogram) (vshape : list nat)
    (value : list Q) : result Histogram :=
  e0 <-? get (bin_edges h) 0 ;;
  let hist_indices := map (fun v => Z.to_nat (hist_index h e0 v)) value in
  match vshape with
  | [] => Raise TypeError
  | _ :: _ =>
      let dim_indices := imap (fun p b => unravel vshape p ++ [b]) hist_indices in
      if bool_decide (last vshape = Some 0%nat) then Raise IndexError
      else if bool_decide (n_bins h = 0%nat) then Raise IndexError
      else
        d <-? np_add_one_at slot_shape (n_bins h) (data h) (S (length vshape))
                            dim_indices ;;
        Ok (set_data h d)
  end.

(** [Histogram.fill_with_batch(batch)]: [batch] holds the samples of each
    slot (the optional [indices] is left at its default). *)
Definition fill_with_batch (h : Histogram) (batch : list (list Q)) : result Histogram :=
  tmp_hist <-? mapM (fun x => np_histogram x (bin_edges h)) batch ;;
  e0 <-? get (bin_edges h) 0 ;;
  e1 <-? get (bin_edges h) 1 ;;
  let tmp_underflow := map (count_if (fun s => negb (Qgt_bool s e0))) batch in
  let tmp_overflow := map (count_if (fun s => negb (Qlt_bool s e1))) batch in
  d <-? add2 (data h) tmp_hist ;;
  u <-? add1 (underflow h) tmp_underflow ;;
  o <-? add1 (overflow h) tmp_overflow ;;
  Ok (_compute_errors (set_flows (set_data h d) u o)).

(** ** The per-slot fit engine *)

(** Methods that log or assign attributes: the store is threaded through, and
    an exception leaves the store as it was mutated so far. *)
Definition M (A : Type) : Type := Histogram -> result A * Histogram.

Definition ret {A} (a : A) : M A := fun h => (Ok a, h).
Definition throw {A} (e : exn) : M A := fun h => (Raise e, h).
Definition bind {A B} (m : M A) (k : A -> M B) : M B :=
  fun h => match m h with
           | (Ok a, h') => k a h'
           | (Raise e, h') => (Raise e, h')
           end.
Definition lift {A} (r : result A) : M A := fun h => (r, h).
Definition gets {A} (f : Histogram -> A) : M A := fun h => (Ok (f h), h).
Definition modify (f : Histogram -> Histogram) : M unit := fun h => (Ok tt, f h).
Definition logm (l : level) (msg : string) : M unit := modify (fun h => log_msg h l msg).

Notation "x <- m ;; k" := (bind m (fun x => k))
  (at level 100, m at next level, right associativity).
Notation "m ;;; k" := (bind m (fun _ => k))
  (at level 100, right associativity).

Fixpoint forM_ {A} (l : list A) (body : A -> M unit) : M unit :=
  match l with
  | [] => ret tt
  | a :: l' => body a ;;; forM_ l' body
  end.

(** What the call of [scipy.optimize.least_squares] leaves behind when it
    returns: [out.x], [np.sum(out.fun * out.fun)] and the outcome of
    [np.sqrt(np.diag(inv(np.dot(out.jac.T, out.jac))))], which raises
    [LinAlgError] on a singular matrix. *)
Record lsq_out : Type := {
  out_x : list fnum;
  out_chi2 : fnum;
  out_cov : result (list fnum)
}.

(** The objective handed to the optimizer: the model function of the
    parameters and of the bin centers. *)
Definition objective : Type := list fnum -> list Q -> result (list fnum).

(** [fixed_param] of [_axis_fit]: the list of fixed indices and the list of
    their values. *)
Definition fixed_lists : Type := list Z * list fnum.

Definition is_fixed (fx : fixed_lists) (i : nat) : bool :=
  bool_decide (Z.of_nat i ∈ fx.1).

(** The values [fixed_param[1][value_i]] of the entries of [fixed_param[0]]
    equal to [param_i]. *)
Definition fixed_values_at (fx : fixed_lists) (param_i : nat) : result (list fnum) :=
  mapM (fun p : nat * Z => get fx.2 p.1)
       (filter (fun p : nat * Z => p.2 = Z.of_nat param_i) (imap (fun k i => (k, i)) fx.1)).

(** The parameter vector [p_new] that [reduced_func] builds from the free
    parameters [p], position by position of [p0]. *)
Fixpoint rebuild_params (fx : fixed_lists) (positions : list nat) (p : list fnum) (j : nat)
  : result (list fnum) :=
  match positions with
  | [] => Ok []
  | param_i :: rest =>
      if is_fixed fx param_i then
        vs <-? fixed_values_at fx param_i ;;
        tl <-? rebuild_params fx rest p j ;;
        Ok (vs ++ tl)
      else
        v <-? get p j ;;
        tl <-? rebuild_params fx rest p (S j) ;;
        Ok (v :: tl)
  end.

Definition reduced_func (func : objective) (p0 : list fnum) (fx : fixed_lists) : objective :=
  fun p x =>
    p_new <-? rebuild_params fx (seq 0 (length p0)) p 0 ;;
    func p_new x.

(** The entries of [l] at the positions of [p0] that are not fixed. *)
Definition free_entries (fx : fixed_lists) (p0 : list fnum) (l : list fnum)
  : result (list fnum) :=
  mapM (fun i => get l i) (filter (fun i => is_fixed fx i = false) (seq 0 (length p0))).

Definition reduce_p0 (fx : fixed_lists) (p0 : list fnum) : list fnum :=
  omap (fun p : nat * fnum => if is_fixed fx p.1 then None else Some p.2)
       (imap (fun i v => (i, v)) p0).

(** [np.insert(rows, i, row, axis=0)] *)
Definition np_insert {A} (rows : list A) (i : Z) (row : A) : result (list A) :=
  let n := Z.of_nat (length rows) in
  if (i <? - n) || (n <? i) then Raise IndexError
  else
    let j := Z.to_nat (if i <? 0 then i + n else i) in
    Ok (take j rows ++ row :: drop j rows).

(** The loop restoring the fixed parameters, in the order of the list. *)
Fixpoint restore_fixed (idx : list Z) (vals : list fnum) (k : nat)
    (rows : list (fnum * fnum)) : result (list (fnum * fnum)) :=
  match idx with
  | [] => Ok rows
  | i :: idx' =>
      v <-? get vals k ;;
      rows' <-? np_insert rows i (v, Fin 0) ;;
      restore_fixed idx' vals (S k) rows'
  end.

Definition nan_rows (n : nat) : list (fnum * fnum) := replicate n (NaN, NaN).

Definition any_nan (l : list fnum) : bool := existsb isnan l.

Definition slice_list : Type := (Z * Z * Z)%type.

Definition slice_is_empty_marker (sl : slice_list) : bool :=
  let '(a, b, c) := sl in (a =? 0) && (b =? 0) && (c =? 1).

(** [(slice_list[1] - slice_list[0]) / slice_list[2] - len(reduced_p0)] *)
Definition compute_ndof (sl : slice_list) (n_free : nat) : fnum :=
  let '(a, b, c) := sl in
  fsub (fdiv (Fin (inject_Z (b - a))) (Fin (inject_Z c))) (Fin (Qof_nat n_free)).

(** [np.append(val.reshape(n,1), cov.reshape(n,1), axis=1)] *)
Definition two_columns (val cov : list fnum) : result (list (fnum * fnum)) :=
  if decide (length val = length cov) then Ok (zip val cov) else Raise ValueError.

Section Fit.

(** [scipy.optimize.least_squares(residual, x0, args=(x, y, y_err),
    bounds=...)], the residual being [(y - objective(p, x)) / y_err]. An
    exception raised by the objective during the optimisation comes out
    of this call. *)
Variable least_squares :
  objective -> list fnum -> list Q -> list Q -> list rnum ->
  list fnum * list fnum -> result lsq_out.

(** The body of the outer [try] of [_axis_fit]. The result is the fit
    result, or the exception together with the value [chi2] had when it
    was raised, and the messages logged on the way. *)
Definition try_fit (h : Histogram) (idx : nat) (obj : objective)
    (reduced_p0 : list fnum) (sl : slice_list)
    (reduced_bounds : list fnum * list fnum)
  : (list (fnum * fnum) + exn) * fnum * list (level * string) :=
  let '(a, b, c) := sl in
  let args :=
    xs <-? py_slice (bin_centers h) a b c ;;
    row <-? get (data h) idx ;;
    ys <-? py_slice row a b c ;;
    erow <-? get (errors h) idx ;;
    es <-? py_slice erow a b c ;;
    Ok (xs, ys, es) in
  match args with
  | Raise e => (inr e, NaN, [])
  | Ok (xs, ys, es) =>
      match least_squares obj reduced_p0 xs ys es reduced_bounds with
      | Raise e => (inr e, NaN, [])
      | Ok out =>
          let val := out_x out in
          let chi2 := out_chi2 out in
          match out_cov out with
          | Ok cov =>
              match two_columns val cov with
              | Ok rows => (inl rows, chi2, [])
              | Raise e => (inr e, chi2, [])
              end
          | Raise LinAlgError =>
              let msgs := [(WARNING, "Could not compute error in the fit of");
                           (DEBUG, "LinAlgError")] in
              match two_columns val (replicate (length reduced_p0) NaN) with
              | Ok rows => (inl rows, chi2, msgs)
              | Raise e => (inr e, chi2, msgs)
              end
          | Raise e => (inr e, chi2, [])
          end
      end
  end.

(** [Histogram._axis_fit(idx, func, p0, slice_list, bounds, fixed_param)] *)
Definition _axis_fit (idx : nat) (func : objective) (p0 : list fnum)
    (sl : slice_list) (bounds : list fnum * list fnum)
    (fixed_param : option fixed_lists)
  : M (list (fnum * fnum) * fnum * fnum) :=
  reduced <- lift
    match fixed_param with
    | None => Ok (p0, bounds, func)
    | Some fx =>
        lo <-? free_entries fx p0 bounds.1 ;;
        hi <-? free_entries fx p0 bounds.2 ;;
        Ok (reduce_p0 fx p0, (lo, hi), reduced_func func p0 fx)
    end ;;
  let '(reduced_p0, reduced_bounds, obj) := reduced in
  let '(a, b, c) := sl in
  bad <- (if slice_is_empty_marker sl then ret true
          else
            row <- (fun h => (get (data h) idx, h)) ;;
            _ <- lift (py_slice row a b c) ;;
            ret (any_nan reduced_p0 || any_nan reduced_bounds.1
                 || any_nan reduced_bounds.2 || any_nan p0)) ;;
  let ndof := compute_ndof sl (length reduced_p0) in
  fitted <-
    (if bad : bool then
       logm DEBUG "Bad inputs" ;;;
       ret (nan_rows (length reduced_p0), NaN)
     else
       outcome <- gets (fun h => try_fit h idx obj reduced_p0 sl reduced_bounds) ;;
       let '(res, chi2, msgs) := outcome in
       forM_ msgs (fun m => logm m.1 m.2) ;;;
       match res with
       | inl rows => ret (rows, chi2)
       | inr _ =>
           logm ERROR "Could not fit index" ;;;
           logm ERROR "exception" ;;;
           logm DEBUG "p0:" ;;;
           logm DEBUG "bound min:" ;;;
           logm DEBUG "bound max:" ;;;
           ret (nan_rows (length reduced_p0), chi2)
       end) ;;
  let '(fit_res, chi2) := fitted in
  fit_res <- lift
    match fixed_param with
    | None => Ok fit_res
    | Some fx => restore_fixed fx.1 fx.2 0 fit_res
    end ;;
  ret (fit_res, chi2, ndof).

End Fit.

(** The strategy functions handed to [fit]: called with the bin contents of
    the slot, the bin centers and [config=...]. *)
Definition guess_fn : Type := list Q -> list Q -> option config_slot -> result (list fnum).
Definition slice_fn : Type := list Q -> list Q -> option config_slot -> result slice_list.
Definition bounds_fn : Type :=
  list Q -> list Q -> option config_slot -> result (list fnum * list fnum).
Definition labels_fn : Type := unit -> result (list string).

(** The second component of an entry of [fit]'s [fixed_param]: a value, or
    a tuple indexing [config[indices]]. *)
Inductive fixed_value : Type :=
  | FixedVal (v : fnum)
  | FixedRef (r c : Z).

(** [config[i, j]] on the (P, 2) array of one slot. *)
Definition config_at (cfg : config_slot) (i j : Z) : result fnum :=
  row <-? py_index cfg i ;; py_index row j.

(** [config[indices]] when [config] is an array, [None] otherwise. *)
Definition config_of (config : option (list config_slot)) (idx : nat)
  : result (option config_slot) :=
  match config with
  | None => Ok None
  | Some c => cfg <-? get c idx ;; Ok (Some cfg)
  end.

(** The lists [list_fixed_param] that [fit] builds for one slot. *)
Fixpoint build_fixed_lists (fixed_param : list (Z * fixed_value))
    (config : option (list config_slot)) (idx : nat) : result fixed_lists :=
  match fixed_param with
  | [] => Ok ([], [])
  | (i, v) :: rest =>
      x <-? match v with
            | FixedVal x => Ok x
            | FixedRef r c =>
                match config with
                | None => Raise TypeError
                | Some cf => cfg <-? get cf idx ;; config_at cfg r c
                end
            end ;;
      tl <-? build_fixed_lists rest config idx ;;
      Ok (i :: tl.1, x :: tl.2)
  end.

Definition zero_row : fnum * fnum := (Fin 0, Fin 0).

(** The two "make sure sizes matches" steps of [fit] and the assignment
    [self.fit_result[indices] = fit_res]. *)
Definition widen_array (fr : fit_array) (k : nat) : fit_array :=
  if (n_par fr <? k)%nat then
    {| n_par := k;
       fit_slots := map (fun rows => rows ++ replicate (k - n_par fr) zero_row) (fit_slots fr) |}
  else fr.

Definition widen_result (fr : fit_array) (fit_res : list (fnum * fnum))
  : list (fnum * fnum) :=
  if (length fit_res <? n_par fr)%nat then
    fit_res ++ replicate (n_par fr - length fit_res) zero_row
  else fit_res.

Definition store_result (fr : fit_array) (idx : nat) (fit_res : list (fnum * fnum))
  : fit_array :=
  let fr1 := widen_array fr (length fit_res) in
  {| n_par := n_par fr1;
     fit_slots := <[idx := widen_result fr1 fit_res]> (fit_slots fr1) |}.

Section FitLoop.

Variable least_squares :
  objective -> list fnum -> list Q -> list Q -> list rnum ->
  list fnum * list fnum -> result lsq_out.

(** The body of the loop of [Histogram.fit] for the slot [idx]. *)
Definition fit_slot (func : pyfunc) (p0_func : guess_fn) (slice_func : slice_fn)
    (bound_func : bounds_fn) (config : option (list config_slot))
    (fixed_param : list (Z * fixed_value)) (idx : nat) : M unit :=
  let slot_inputs : M (list Q * list Q * option config_slot) :=
    row <- (fun h => (get (data h) idx, h)) ;;
    cs <- gets bin_centers ;;
    cfg <- lift (config_of config idx) ;;
    ret (row, cs, cfg) in
  fr <- gets fit_result ;;
  match fr with
  | Some _ => ret tt
  | None =>
      inp <- slot_inputs ;;
      let '(row, cs, cfg) := inp in
      p0 <- lift (p0_func row cs cfg) ;;
      n <- gets (fun h => length (data h)) ;;
      modify (fun h => set_fit_result h
        (Some {| n_par := length p0;
                 fit_slots := replicate n (nan_rows (length p0)) |}))
  end ;;;
  chi <- gets fit_chi2_ndof ;;
  match chi with
  | Some _ => ret tt
  | None =>
      n <- gets (fun h => length (data h)) ;;
      modify (fun h => set_fit_chi2_ndof h (Some (replicate n (NaN, NaN))))
  end ;;;
  list_fixed_param <- lift
    match fixed_param with
    | [] => Ok None
    | _ => fx <-? build_fixed_lists fixed_param config idx ;; Ok (Some fx)
    end ;;
  inp <- slot_inputs ;;
  let '(row, cs, cfg) := inp in
  p0 <- lift (p0_func row cs cfg) ;;
  sl <- lift (slice_func row cs cfg) ;;
  bounds <- lift (bound_func row cs cfg) ;;
  res <- _axis_fit least_squares idx (fun p x => fn_call func p x cfg) p0 sl bounds
                   list_fixed_param ;;
  let '(fit_res, chi2, ndof) := res in
  fr <- gets fit_result ;;
  match fr with
  | None => throw TypeError
  | Some fr =>
      _ <- lift (get (fit_slots fr) idx) ;;
      modify (fun h => set_fit_result h (Some (store_result fr idx fit_res)))
  end ;;;
  chi <- gets fit_chi2_ndof ;;
  match chi with
  | None => throw TypeError
  | Some chi =>
      _ <- lift (get chi idx) ;;
      modify (fun h => set_fit_chi2_ndof h (Some (<[idx := (chi2, ndof)]> chi)))
  end.

(** [Histogram.fit(func, p0_func, slice_func, bound_func, labels_func,
    config, limited_indices, fixed_param)] *)
Definition fit (func : pyfunc) (p0_func : guess_fn) (slice_func : slice_fn)
    (bound_func : bounds_fn) (labels_func : option labels_fn)
    (config : option (list config_slot)) (limited_indices : option (list nat))
    (fixed_param : list (Z * fixed_value)) : M unit :=
  modify (fun h => set_fit_function h (Some func)) ;;;
  labels <- match labels_func with
            | None => throw TypeError
            | Some f => lift (f tt)
            end ;;
  modify (fun h => set_fit_result_label h (Some labels)) ;;;
  n <- gets (fun h => length (data h)) ;;
  let indices_list :=
    match limited_indices with
    | None | Some [] => seq 0 n
    | Some l => l
    end in
  forM_ indices_list
        (fit_slot func p0_func slice_func bound_func config fixed_param).

End FitLoop.

(** ** The low-light charge-spectrum strategy ([fit_low_light]) *)

(** [np.average(x, weights=y)] *)
Definition np_average (x y : list Q) : result Q :=
  if decide (length x = length y) then
    let scl := Qsum y in
    if Qeq_bool scl 0 then Raise ZeroDivisionError
    else Ok (Qsum (zip_with Qmult x y) / scl)%Q
  else Raise TypeError.

Module LowLight.

Section Guess.

(** The branch [config is None] of [p0_func]: peak finding and a
    secondary curve fit, done by [peakutils] and [scipy]. *)
Variable cold_start : list Q -> list Q -> result (list fnum).

Definition warm_baseline (y x : list Q) (config : config_slot) : result fnum :=
  let nz := nonzero_positions y in
  if (2 <? length nz)%nat then
    i0 <-? get nz 0 ;;
    x0 <-? get x i0 ;;
    let baseline := Fin (x0 + 4 * 4) in
    c00 <-? config_at config 0 0 ;;
    if fgt baseline c00 then
      c10 <-? config_at config 1 0 ;;
      Ok (fsub c00 (fdiv c10 (Fin 2)))
    else Ok baseline
  else Ok (Fin 0).

Definition p0_func : guess_fn := fun y x config =>
  match config with
  | Some config =>
      baseline <-? warm_baseline y x config ;;
      gain <-? config_at config 1 0 ;;
      sigma_e <-? config_at config 2 0 ;;
      sigma_1 <-? config_at config 3 0 ;;
      let amplitude := Qsum y in
      avg <-? np_average x y ;;
      let mean := fdiv (fsub (Fin avg) baseline) gain in
      let mu := if fgt mean (Fin 0) then mean else Fin 0 in
      let mu_xt := Fin 0 in
      let offset := Fin 0 in
      Ok [mu; mu_xt; gain; baseline; sigma_e; sigma_1; Fin amplitude; offset]
  | None => cold_start y x
  end.

End Guess.

(** [slice_func]: from the first to the last nonzero bin. *)
Definition slice_func : slice_fn := fun y x _ =>
  let nz := map Z.of_nat (nonzero_positions y) in
  first <-? py_index nz 0 ;;
  last <-? py_index nz (-1) ;;
  Ok (first, last, 1).

Definition label_func : labels_fn := fun _ =>
  Ok ["$\mu$ [p.e.]"; "$\mu_{XT}$ [p.e.]"; "Gain [LSB/p.e.]"; "Baseline [LSB]";
      "$\sigma_e$ [LSB]"; "$\sigma_1$ [LSB]"; "Amplitude"; "Offset [LSB]"]%string.

End LowLight.

(** ** Persistence

    [save] and [load] are modelled on the Python object itself: the
    attributes of a [Histogram] instance ([self.__dict__]), the numpy arrays
    they refer to (a heap of array storage), and a file system holding npz
    archives. *)

Module Persistence.

(** An element of an array. *)
Inductive cell : Type :=
  | CNone                  (* [None] in an object array *)
  | CQ (q : Q)
  | CR (r : rnum)
  | CF (f : fnum)
  | CS (s : string)
  | CFunc (name : string).

(** The content of an array, of any rank: a 0-d array is a [Leaf]. *)
Inductive ndarray : Type :=
  | Leaf (c : cell)
  | Node (items : list ndarray).

Abbreviation loc := nat (only parsing).

(** The value of an attribute. *)
Inductive pyval : Type :=
  | PNone
  | PNum (q : Q)
  | PStr (s : string)
  | PFunc (f : pyfunc)
  | PRef (l : loc).       (* a numpy array *)

(** The attributes of an instance, the array storage, an npz archive. *)
Abbreviation object := (gmap string pyval) (only parsing).
Abbreviation heap := (gmap loc ndarray) (only parsing).
Abbreviation archive := (gmap string ndarray) (only parsing).

Record filesystem : Type := {
  dirs : gset string;
  files : gmap string archive
}.

(** [np.asanyarray(v)]: the content a value has as an array. *)
Definition as_array (hp : heap) (v : pyval) : result ndarray :=
  match v with
  | PNone => Ok (Leaf CNone)
  | PNum q => Ok (Leaf (CQ q))
  | PStr s => Ok (Leaf (CS s))
  | PFunc f => Ok (Leaf (CFunc (fn_name f)))
  | PRef l =>
      match hp !! l with
      | Some a => Ok a
      | None => Raise (OtherError "dangling array")
      end
  end.

(** [self.<name>] *)
Definition getattr (self : object) (name : string) : result pyval :=
  match self !! name with
  | Some v => Ok v
  | None => Raise AttributeError
  end.

(** [np.copy(a)]: new storage holding the same content. *)
Definition np_copy (hp : heap) (a : ndarray) : loc * heap :=
  let l := fresh (dom hp) in (l, <[l := a]> hp).

(** [a[0]] *)
Definition first_item (a : ndarray) : result ndarray :=
  match a with
  | Node (x :: _) => Ok x
  | _ => Raise IndexError
  end.

(** [os.path.dirname] *)
Fixpoint head_of_path (s : string) : option string :=
  match s with
  | EmptyString => None
  | String c s' =>
      match head_of_path s' with
      | Some d => Some (String c d)
      | None => if Ascii.eqb c "/"%char then Some (String c EmptyString) else None
      end
  end.

Fixpoint all_slashes (s : string) : bool :=
  match s with
  | EmptyString => true
  | String c s' => Ascii.eqb c "/"%char && all_slashes s'
  end.

Fixpoint rstrip_slashes (s : string) : string :=
  match s with
  | EmptyString => EmptyString
  | String c s' => if all_slashes s then EmptyString else String c (rstrip_slashes s')
  end.

Definition dirname (path : string) : string :=
  match head_of_path path with
  | None => EmptyString
  | Some hd => if all_slashes hd then hd else rstrip_slashes hd
  end.

(** [s.endswith(suffix)] *)
Definition endswith (s suffix : string) : bool :=
  let n := String.length s in
  let k := String.length suffix in
  (k <=? n)%nat && String.eqb (substring (n - k) k s) suffix.

Definition isdir (fs : filesystem) (d : string) : bool :=
  bool_decide (d ∈ dirs fs).

Definition isfile (fs : filesystem) (p : string) : bool :=
  bool_decide (is_Some (files fs !! p)).

(** [np.savez_compressed(file, **arrays)]: the extension is appended when
    the name does not end with it. *)
Definition np_savez_compressed (fs : filesystem) (file : string) (arrays : archive)
  : filesystem :=
  let file := if endswith file ".npz" then file else (file ++ ".npz")%string in
  {| dirs := dirs fs; files := <[file := arrays]> (files fs) |}.

(** The right-hand sides of the keyword arguments of [save]. *)
Inductive saved_as : Type :=
  | Attribute (name : string)        (* [key=self.name] *)
  | OneElement (name : string)       (* [key=np.array([self.name])] *)
  | FitFuncName.                     (* [key=np.array([fit_func])] *)

Definition save_plan : list (string * saved_as) :=
  [ ("data", Attribute "data");
    ("bin_centers", Attribute "bin_centers");
    ("bin_edges", Attribute "bin_edges");
    ("bin_width", OneElement "bin_width");
    ("errors", Attribute "errors");
    ("underflow", Attribute "underflow");
    ("overflow", Attribute "overflow");
    ("fit_result", Attribute "fit_result");
    ("fit_function_name", FitFuncName);
    ("fit_chi2_ndof", Attribute "fit_chi2_ndof");
    ("fit_axis", Attribute "fit_axis");
    ("xlabel", OneElement "xlabel");
    ("ylabel", OneElement "ylabel");
    ("label", OneElement "label");
    ("fit_result_label", Attribute "fit_result_label") ]%string.

(** ['NoneType' if not self.fit_function else self.fit_function.__name__];
    only [None] and functions are told apart, any other value has no
    [__name__]. *)
Definition fit_func_name (self : object) : result string :=
  f <-? getattr self "fit_function" ;;
  match f with
  | PNone => Ok "NoneType"%string
  | PFunc f => Ok (fn_name f)
  | _ => Raise AttributeError
  end.

Definition saved_value (hp : heap) (self : object) (fit_func : string) (how : saved_as)
  : result ndarray :=
  match how with
  | Attribute name => v <-? getattr self name ;; as_array hp v
  | OneElement name => v <-? getattr self name ;; a <-? as_array hp v ;; Ok (Node [a])
  | FitFuncName => Ok (Node [Leaf (CS fit_func)])
  end.

Fixpoint build_archive (hp : heap) (self : object) (fit_func : string)
    (plan : list (string * saved_as)) : result archive :=
  match plan with
  | [] => Ok ∅
  | (key, how) :: rest =>
      a <-? saved_value hp self fit_func how ;;
      tl <-? build_archive hp self fit_func rest ;;
      Ok (<[key := a]> tl)
  end.

(** [Histogram.save(filename)] *)
Definition save (fs : filesystem) (hp : heap) (self : object) (filename : string)
  : result filesystem :=
  if negb (isdir fs (dirname filename)) then Raise FileNotFoundError
  else
    match (fit_func <-? fit_func_name self ;;
           build_archive hp self fit_func save_plan) with
    | Ok arrays => Ok (np_savez_compressed fs filename arrays)
    | Raise inst => Raise (WrappedException inst)
    end.

(** The right-hand sides of the assignments of [load]. *)
Inductive loaded_as : Type :=
  | Copy                 (* [np.copy(file[key])] *)
  | CopyFirst            (* [np.copy(file[key][0])] *)
  | FuncNameOrNone.      (* [None if file[key][0] == 'NoneType' else np.copy(file[key][0])] *)

Definition load_plan : list (string * string * loaded_as) :=
  [ ("data", "data", Copy);
    ("bin_centers", "bin_centers", Copy);
    ("bin_edges", "bin_edges", Copy);
    ("bin_width", "bin_width", CopyFirst);
    ("errors", "errors", Copy);
    ("underflow", "underflow", Copy);
    ("overflow", "overflow", Copy);
    ("fit_result", "fit_result", Copy);
    ("fit_function_name", "fit_function_name", FuncNameOrNone);
    ("fit_chi2_ndof", "fit_chi2_ndof", Copy);
    ("fit_axis", "fit_axis", Copy);
    ("xlabel", "xlabel", CopyFirst);
    ("ylabel", "ylabel", CopyFirst);
    ("label", "label", CopyFirst);
    ("fit_result_label", "fit_result_label", Copy) ]%string.

(** An object array: one that holds [None] or another Python object, as
    [np.asanyarray] makes of an attribute that is [None]. Such an array is
    written to the archive as a pickle. *)
Fixpoint has_object (a : ndarray) : bool :=
  match a with
  | Leaf CNone | Leaf (CFunc _) => true
  | Leaf _ => false
  | Node items => existsb has_object items
  end.

(** [file[key]] on the archive that [np.load(filename)] returned. [load]
    leaves the argument [allow_pickle] of [np.load] at its default: [True]
    up to numpy 1.16.2, [False] since numpy 1.16.3, where reading an object
    array out of the archive raises [ValueError]. The default is a parameter
    of the model. *)
Definition getitem (allow_pickle : bool) (file : archive) (key : string)
  : result ndarray :=
  match file !! key with
  | Some a => if has_object a && negb allow_pickle then Raise ValueError else Ok a
  | None => Raise KeyError
  end.

Definition is_NoneType (a : ndarray) : bool :=
  match a with
  | Leaf (CS s) => String.eqb s "NoneType"
  | _ => false
  end.

(** One assignment [self.attr = ...] of [load]. *)
Definition load_one (allow_pickle : bool) (file : archive) (st : object * heap)
    (entry : string * string * loaded_as) : result (object * heap) :=
  let '(attr, key, how) := entry in
  let '(self, hp) := st in
  a <-? getitem allow_pickle file key ;;
  match how with
  | Copy =>
      let '(l, hp') := np_copy hp a in Ok (<[attr := PRef l]> self, hp')
  | CopyFirst =>
      x <-? first_item a ;;
      let '(l, hp') := np_copy hp x in Ok (<[attr := PRef l]> self, hp')
  | FuncNameOrNone =>
      x <-? first_item a ;;
      if is_NoneType x then Ok (<[attr := PNone]> self, hp)
      else
        x' <-? first_item a ;;
        let '(l, hp') := np_copy hp x' in Ok (<[attr := PRef l]> self, hp')
  end.

Fixpoint load_all (allow_pickle : bool) (file : archive) (st : object * heap)
    (plan : list (string * string * loaded_as)) : result (object * heap) :=
  match plan with
  | [] => Ok st
  | entry :: rest =>
      st' <-? load_one allow_pickle file st entry ;;
      load_all allow_pickle file st' rest
  end.

(** [Histogram.load(filename)], under the default [allow_pickle] of the
    numpy at hand. *)
Definition load (allow_pickle : bool) (fs : filesystem) (hp : heap) (self : object)
    (filename : string) : result (object * heap) :=
  if negb (isfile fs filename) then Raise FileNotFoundError
  else
    match (file <-? match files fs !! filename with
                    | Some f => Ok f
                    | None => Raise FileNotFoundError
                    end ;;
           load_all allow_pickle file (self, hp) load_plan) with
    | Ok st => Ok st
    | Raise inst => Raise (WrappedException inst)
    end.

(** [Histogram(filename=...)]: a new object on which [load] runs. *)
Definition from_file (allow_pickle : bool) (fs : filesystem) (hp : heap)
    (filename : string) : result (object * heap) :=
  load allow_pickle fs hp ∅ filename.

(** The content of an attribute, whether it is held as a Python value or
    as an array. *)
Definition content (hp : heap) (self : object) (name : string) : option ndarray :=
  match self !! name with
  | Some v => match as_array hp v with Ok a => Some a | Raise _ => None end
  | None => None
  end.

(** The storage an object refers to. *)
Definition storage (self : object) : gset loc :=
  map_fold (fun _ v acc => match v with PRef l => {[l]} ∪ acc | _ => acc end) ∅ self.

End Persistence.

(** ** Reading the arrays, and the stores used in the examples *)

(** A bin of a nested array. *)
Definition bin_at {A} (a : list (list A)) (s b : nat) : option A :=
  row ← a !! s; row !! b.

(** A store of [n] slots over the axis of centers [cmin .. cmax]. *)
Definition new_store (n : nat) (cmin cmax width : Q) : result Histogram :=
  __init__ [] n [] cmin cmax width "x" "y" "hist".

(** A store built from existing bin contents. *)
Definition store_of_data (d : list (list Q)) : result Histogram :=
  __init__ d (length d) [] 0 1 1 "x" "y" "hist".

(** The content of bin [b] after one count went to bin [b0]. *)
Definition bump (b0 b : nat) (c : Q) : Q := if decide (b = b0) then (c + 1)%Q else c.

(** The store of a constructor call that succeeded. *)
Definition blank_store : Histogram :=
  {| data := []; bin_centers := []; bin_edges := []; bin_width := 1;
     errors := []; underflow := []; overflow := [];
     fit_result := None; fit_result_label := None; fit_chi2_ndof := None;
     fit_function := None; xlabel := ""; ylabel := ""; label := ""; logger := [] |}.

Definition from_ok (r : result Histogram) : Histogram :=
  match r with Ok h => h | Raise _ => blank_store end.

(** One slot over the axis of centers 0 .. 10, step 1. *)
Definition store_0_10 : Histogram := from_ok (new_store 1 0 10 1).

(** Successive calls [fill(np.array([v]))] on a store with one slot, one
    per sample. *)
Fixpoint fill_each (h : Histogram) (samples : list Q) : result Histogram :=
  match samples with
  | [] => Ok h
  | v :: rest => h' <-? fill_nd [1%nat] h [1%nat] [v] ;; fill_each h' rest
  end.

(** The example of a fill as the specification words it: the four samples
    5, 5, 5 and 7 given to [fill] on the one-slot store over the centers
    0 .. 10, whatever the shape in which the four samples are arranged. *)
Definition fill_5_5_5_7_at_once : Prop :=
  exists (vshape : list nat) (h' : Histogram),
    fill_nd [1%nat] store_0_10 vshape [5; 5; 5; 7]%Q = Ok h'
    /\ data h' = [[0; 0; 0; 0; 0; 3; 0; 1; 0; 0; 0]]%Q.

(** The rationals that a float64 holds: [m * 2^e] with [|m| < 2^53] and
    [-1074 <= e <= 971]. *)
Definition binary64 (q : Q) : Prop :=
  exists m e : Z, Z.abs m < 2 ^ 53 /\ -1074 <= e <= 971 /\ (q == inject_Z m * 2 ^ e)%Q.

(** The samples on which the float64 arithmetic of [fill] is exact: the
    sample, its distance to the first edge [e0] and the quotient of that
    distance by the bin width are values of a float64, so that neither the
    subtraction nor the floor division rounds. Integer samples on an axis of
    width 1 with half-integer edges are of this kind. *)
Definition exact_sample (h : Histogram) (e0 v : Q) : Prop :=
  binary64 v /\ binary64 (v - e0) /\ binary64 ((v - e0) / bin_width h).

(** The underflow bookkeeping of [fill_with_batch] as the specification
    words it: the count of the samples strictly below the first edge is
    added to the underflow of each slot. *)
Definition underflow_counts_below_first_edge : Prop :=
  forall (h h' : Histogram) (batch : list (list Q)) (e0 : Q),
    bin_edges h !! 0%nat = Some e0 ->
    fill_with_batch h batch = Ok h' ->
    underflow h'
    = zip_with (fun u x => (u + Qof_nat (count_if (fun s => Qlt_bool s e0) x))%Q)
               (underflow h) batch.

(** The validation of the bin width as the specification words it: a width
    that is not positive makes the construction of the axis fail. *)
Definition nonpositive_width_rejected : Prop :=
  forall bin_center_min bin_center_max width : Q,
    (width <= 0)%Q ->
    is_ok (init_axis [] bin_center_min bin_center_max width) = false.




(** ** Reasoning about the methods that thread the store *)

(** [triple P m Q E]: from a store satisfying [P], [m] either returns [a]
    in a store satisfying [Q a], or raises in a store satisfying [E]. *)
Definition triple {A} (P : Histogram -> Prop) (m : M A)
    (Q : A -> Histogram -> Prop) (E : Histogram -> Prop) : Prop :=
  forall h, P h ->
    match m h with
    | (Ok a, h') => Q a h'
    | (Raise _, h') => E h'
    end.

(** A property of the store that logging does not disturb. *)
Definition log_stable (P : Histogram -> Prop) : Prop :=
  forall h l msg, P h -> P (log_msg h l msg).

(** [fit_result] is rectangular: every slot holds [n_par] rows. *)
Definition rectangular (fr : fit_array) : Prop :=
  Forall (fun rows => length rows = n_par fr) (fit_slots fr).

(** The invariant of the fit loop. *)
Definition fit_result_rectangular (h : Histogram) : Prop :=
  match fit_result h with
  | None => True
  | Some fr => rectangular fr
  end.

(** An optimizer that returns its starting point, with unit errors. *)
Definition lsq_identity :
  objective -> list fnum -> list Q -> list Q -> list rnum ->
  list fnum * list fnum -> result lsq_out :=
  fun _ x0 _ _ _ _ =>
    Ok {| out_x := x0; out_chi2 := Fin 0; out_cov := Ok (map (fun _ => Fin 1) x0) |}.

(** A model function and strategy functions for the examples: the guess has
    6 parameters on a slot whose content sums to 3, 8 parameters otherwise. *)
Definition model_f : pyfunc :=
  {| fn_name := "model_f"; fn_call := fun p x _ => Ok (map (fun _ => Fin 0) x) |}.

Definition guess_6_or_8 : guess_fn := fun y _ _ =>
  Ok (replicate (if Qeq_bool (Qsum y) 3 then 6 else 8) (Fin 1)).

Definition whole_axis : slice_fn := fun y _ _ => Ok (0, Z.of_nat (length y), 1).

Definition no_bounds : bounds_fn := fun y _ _ =>
  let n := if Qeq_bool (Qsum y) 3 then 6%nat else 8%nat in
  Ok (replicate n NInf, replicate n PInf).

(** Two slots, A holding 3 counts and B holding 5. *)
Definition store_A_B : Histogram :=
  from_ok (__init__ [[1; 2; 0]; [0; 3; 2]]%Q 2 [] 0 2 1 "x" "y" "hist").

(** The array the loop body of [fit] works on, given the value [f0] that
    [fit_result] had on entry: that array, or the NaN-filled array allocated
    when there was none. *)
Definition allocated (f0 : option fit_array) (fr0 : fit_array) : Prop :=
  f0 = Some fr0
  \/ (f0 = None
      /\ exists n k, fr0 = {| n_par := k; fit_slots := replicate n (nan_rows k) |}).

Definition rectangular_opt (f0 : option fit_array) : Prop :=
  match f0 with
  | None => True
  | Some fr => rectangular fr
  end.

(** The state of [fit_result] once the loop body has allocated the array,
    and once it has written the result of the slot [idx]. *)
Definition slot_allocated (f0 : option fit_array) (h : Histogram) : Prop :=
  exists fr0, allocated f0 fr0 /\ fit_result h = Some fr0.

Definition slot_stored (f0 : option fit_array) (idx : nat) (h : Histogram) : Prop :=
  exists fr0 fit_res,
    allocated f0 fr0
    /\ (idx < length (fit_slots fr0))%nat
    /\ fit_result h = Some (store_result fr0 idx fit_res).



(** An optimizer that raises on a guess of 6 parameters and returns its
    starting point otherwise. *)
Definition lsq_raises_on_6 :
  objective -> list fnum -> list Q -> list Q -> list rnum ->
  list fnum * list fnum -> result lsq_out :=
  fun obj x0 xs ys es bounds =>
    if decide (length x0 = 6%nat) then Raise (OtherError "objective")
    else lsq_identity obj x0 xs ys es bounds.






(** The store [store_A_B] with its fit arrays allocated for 6 parameters. *)
Definition store_A_B_allocated : Histogram :=
  set_fit_chi2_ndof
    (set_fit_result store_A_B
       (Some {| n_par := 6; fit_slots := [nan_rows 6; nan_rows 6] |}))
    (Some [(NaN, NaN); (NaN, NaN)]).

(** What [load] leaves in the attribute for an array [a] of the archive. *)
Definition loaded_value (how : Persistence.loaded_as) (a : Persistence.ndarray)
  : result Persistence.ndarray :=
  match how with
  | Persistence.Copy => Ok a
  | Persistence.CopyFirst => Persistence.first_item a
  | Persistence.FuncNameOrNone =>
      x <-? Persistence.first_item a ;;
      Ok (if Persistence.is_NoneType x then Persistence.Leaf Persistence.CNone else x)
  end.

(** The round trip of the fit function identifier as the specification
    words it: the name of the fit function of the saved store is what the
    loaded store holds (with a numpy that reads the object arrays of the
    archive). *)
Definition fit_function_name_round_trip : Prop :=
  forall (fs fs' : Persistence.filesystem) (hp : Persistence.heap)
         (self : Persistence.object) (filename : string) (f : pyfunc),
    Persistence.endswith filename ".npz" = true ->
    Persistence.save fs hp self filename = Ok fs' ->
    self !! "fit_function"%string = Some (Persistence.PFunc f) ->
    exists self' hp',
      Persistence.from_file true fs' hp filename = Ok (self', hp')
      /\ Persistence.content hp' self' "fit_function_name"
         = Some (Persistence.Leaf (Persistence.CS (fn_name f))).

(** A store with one slot of two bins, not fitted but given a fit function
    whose name is [name]. *)
Definition example_heap : Persistence.heap :=
  list_to_map
    [ (0%nat, Persistence.Node [Persistence.Node
                 [Persistence.Leaf (Persistence.CQ 0); Persistence.Leaf (Persistence.CQ 4)]]);
      (1%nat, Persistence.Node
                 [Persistence.Leaf (Persistence.CQ 0); Persistence.Leaf (Persistence.CQ 1)]);
      (2%nat, Persistence.Node
                 [Persistence.Leaf (Persistence.CQ (-1 # 2));
                  Persistence.Leaf (Persistence.CQ (1 # 2));
                  Persistence.Leaf (Persistence.CQ (3 # 2))]);
      (3%nat, Persistence.Node [Persistence.Node
                 [Persistence.Leaf (Persistence.CR (RFin 1));
                  Persistence.Leaf (Persistence.CR (RFin 2))]]);
      (4%nat, Persistence.Node [Persistence.Leaf (Persistence.CQ 0)]);
      (5%nat, Persistence.Node [Persistence.Leaf (Persistence.CQ 0)]) ].

Definition example_object (name : string) : Persistence.object :=
  list_to_map
    [ ("data", Persistence.PRef 0%nat); ("bin_centers", Persistence.PRef 1%nat);
      ("bin_edges", Persistence.PRef 2%nat); ("bin_width", Persistence.PNum 1);
      ("errors", Persistence.PRef 3%nat); ("underflow", Persistence.PRef 4%nat);
      ("overflow", Persistence.PRef 5%nat); ("fit_result", Persistence.PNone);
      ("fit_result_label", Persistence.PNone); ("fit_chi2_ndof", Persistence.PNone);
      ("fit_function",
       Persistence.PFunc {| fn_name := name; fn_call := fun p x _ => Ok p |});
      ("fit_axis", Persistence.PNone); ("xlabel", Persistence.PStr "x");
      ("ylabel", Persistence.PStr "y"); ("label", Persistence.PStr "hist") ]%string.

Definition example_fs : Persistence.filesystem :=
  {| Persistence.dirs := {[ "/out"%string ]}; Persistence.files := ∅ |}.

(** The attributes that a plan of [load] assigns. *)
Definition plan_attrs (plan : list (string * string * Persistence.loaded_as))
  : list string :=
  map (fun e => e.1.1) plan.

(** The attribute a keyword argument of [save] is read from. *)
Definition saved_from (how : Persistence.saved_as) : option string :=
  match how with
  | Persistence.Attribute name | Persistence.OneElement name => Some name
  | Persistence.FitFuncName => None
  end.

(** How [load] undoes what [save] did to a value. *)
Definition undone_by (how_s : Persistence.saved_as) (how_l : Persistence.loaded_as)
  : Prop :=
  match how_s, how_l with
  | Persistence.Attribute _, Persistence.Copy => True
  | Persistence.OneElement _, Persistence.CopyFirst => True
  | Persistence.FitFuncName, Persistence.FuncNameOrNone => True
  | _, _ => False
  end.

(** * More of the code *)

(** ** Shapes and totals *)

(** [np.sum] of an integer array. *)
Definition nat_sum (l : list nat) : nat := foldr Nat.add 0%nat l.

(** The arrays of a store fit together: the edges increase, there is one
    more edge than bins in every slot, and [underflow] and [overflow] hold one
    entry per slot. *)
Definition consistent (h : Histogram) : Prop :=
  increasing (bin_edges h) = true
  /\ (2 <= length (bin_edges h))%nat
  /\ Forall (fun row => S (length row) = length (bin_edges h)) (data h)
  /\ length (underflow h) = length (data h)
  /\ length (overflow h) = length (data h).

(** Two arrays holding equal numbers. *)
Definition same_numbers (a b : list Q) : Prop := Forall2 Qeq a b.
Definition same_numbers2 (a b : list (list Q)) : Prop := Forall2 same_numbers a b.

(** ** Fixed parameters *)

(** The entries of [l] at the positions that [idx] does not list. *)
Definition free_part {A} (idx : list Z) (l : list A) : list A :=
  omap (fun p : nat * A => if bool_decide (Z.of_nat p.1 ∈ idx) then None else Some p.2)
       (imap (fun i v => (i, v)) l).

(** The same with the positions renumbered by [g]. *)
Abbreviation free_at g idx l :=
  (omap (fun p => if bool_decide (Z.of_nat p.1 ∈ idx) then None else Some p.2)
        (imap (fun i v => (g i, v)) l)).

(** ** What a fit leaves alone *)

(** The histogram itself: everything of the store but the results of the
    fit and the log. *)
Definition same_histogram (h h' : Histogram) : Prop :=
  data h' = data h /\ errors h' = errors h
  /\ bin_centers h' = bin_centers h /\ bin_edges h' = bin_edges h
  /\ bin_width h' = bin_width h
  /\ underflow h' = underflow h /\ overflow h' = overflow h
  /\ xlabel h' = xlabel h /\ ylabel h' = ylabel h /\ label h' = label h.

(** ** The bounds of the low-light strategy, and the high-light strategy *)

(** float64 multiplication; zero times an infinity is NaN. *)
Definition fmul (x y : fnum) : fnum :=
  match x, y with
  | NaN, _ | _, NaN => NaN
  | Fin a, Fin b => Fin (a * b)
  | Fin a, PInf | PInf, Fin a =>
      if Qeq_bool a 0 then NaN else if Qle_bool 0 a then PInf else NInf
  | Fin a, NInf | NInf, Fin a =>
      if Qeq_bool a 0 then NaN else if Qle_bool 0 a then NInf else PInf
  | PInf, PInf | NInf, NInf => PInf
  | PInf, NInf | NInf, PInf => NInf
  end.



Module LowLightBounds.

(** [fit_low_light.bounds_func] *)
Definition bounds_func : bounds_fn := fun y x config =>
  match config with
  | None =>
      Ok (replicate 8 (Fin 0),
          [Fin 200; Fin 1; PInf; PInf; PInf; PInf; PInf; PInf])
  | Some config =>
      baseline <-? py_index config 0 ;;
      gain <-? py_index config 1 ;;
      sigma_e <-? py_index config 2 ;;
      sigma_1 <-? py_index config 3 ;;
      gain0 <-? py_index gain 0 ;;
      gain1 <-? py_index gain 1 ;;
      baseline0 <-? py_index baseline 0 ;;
      sigma_e0 <-? py_index sigma_e 0 ;;
      sigma_10 <-? py_index sigma_1 0 ;;
      let param_min :=
        [Fin 0; Fin 0; fsub gain0 (fmul (Fin 5) gain1);
         fsub baseline0 (fmul (Fin 2) gain0);
         fdiv sigma_e0 (Fin 2); fdiv sigma_10 (Fin 2); Fin 0; NInf] in
      let param_max :=
        [PInf; Fin 1; fadd gain0 (fmul (Fin 5) gain1); fadd baseline0 (Fin 3);
         fmul sigma_e0 (Fin 2); fmul sigma_10 (Fin 2); PInf; PInf] in
      Ok (param_min, param_max)
  end.

End LowLightBounds.

Module HighLight.

(** [fit_high_light.slice_func]: from the first to the last bin whose
    center is not zero. *)
Definition slice_func : slice_fn := fun y x _ =>
  let nz := map Z.of_nat (nonzero_positions x) in
  if decide (length nz = 0%nat) then Ok (0, 1, 1)
  else
    first <-? py_index nz 0 ;;
    last <-? py_index nz (-1) ;;
    Ok (first, last, 1).

(** [fit_high_light.bounds_func] *)
Definition bounds_func : bounds_fn := fun _ _ _ =>
  Ok ([Fin 0; Fin 0; Fin 0; NInf; Fin 0; Fin 0; Fin 0; NInf],
      [PInf; Fin 1; PInf; PInf; PInf; PInf; PInf; PInf]).

End HighLight.

(** ** Loading the results of a fit only *)

Module FitOnly.

Import Persistence.

(** The assignments of [load_fit_results]. *)
Definition fit_plan : list (string * string * loaded_as) :=
  [ ("fit_result", "fit_result", Copy);
    ("fit_function_name", "fit_function_name", FuncNameOrNone);
    ("fit_chi2_ndof", "fit_chi2_ndof", Copy);
    ("fit_axis", "fit_axis", Copy);
    ("fit_result_label", "fit_result_label", Copy) ]%string.

(** [Histogram.load_fit_results(filename)], under the default
    [allow_pickle] of the numpy at hand. *)
Definition load_fit_results (allow_pickle : bool) (fs : filesystem) (hp : heap)
    (self : object) (filename : string) : result (object * heap) :=
  if negb (isfile fs filename) then Raise FileNotFoundError
  else
    match (file <-? match files fs !! filename with
                    | Some f => Ok f
                    | None => Raise FileNotFoundError
                    end ;;
           load_all allow_pickle file (self, hp) fit_plan) with
    | Ok st => Ok st
    | Raise inst => Raise (WrappedException inst)
    end.

(** [Histogram(filename=..., fit_only=True)] *)
Definition from_file_fit_only (allow_pickle : bool) (fs : filesystem) (hp : heap)
    (filename : string) : result (object * heap) :=
  load_fit_results allow_pickle fs hp ∅ filename.

End FitOnly.

(** A path with a directory part. *)
Fixpoint has_slash (s : string) : bool :=
  match s with
  | EmptyString => false
  | String c s' => Ascii.eqb c "/"%char || has_slash s'
  end.

(** ** Filling a store from the events of a run ([data_treatement/dark_hist])

    The readers are taken by what they yield: a file is the list of its
    events, an event the list of its telescopes with data, a telescope the
    samples of each of its pixels. The progress bar and the log of the
    module are not part of the store and are left out. *)

Module DarkHist.

Definition tel_data : Type := list (list Q).
Definition event : Type := list tel_data.

Record options : Type := {
  min_event : Z;
  max_event : Z;
  pixel_list : list Z
}.

(** The body of the loop over the telescopes of an event. *)
Definition fill_tel (opts : options) (hist_type : string) (hist : Histogram)
    (tel : tel_data) : result Histogram :=
  data <-? mapM (py_index tel) (pixel_list opts) ;;
  if String.eqb hist_type "raw" then fill_with_batch hist data
  else if String.eqb hist_type "integral" then
    let temp := map (fun samples => Qsum (map (fun s => (s - 2000)%Q) samples)) data in
    fill hist temp
  else Ok hist.

Fixpoint fill_event (opts : options) (hist_type : string) (hist : Histogram)
    (ev : event) : result Histogram :=
  match ev with
  | [] => Ok hist
  | tel :: tels =>
      hist' <-? fill_tel opts hist_type hist tel ;;
      fill_event opts hist_type hist' tels
  end.

(** The loop over the events of one file; [break] leaves it. *)
Fixpoint run_events (opts : options) (hist_type : string) (events : list event)
    (event_number : Z) (hist : Histogram) : result (Z * Histogram) :=
  match events with
  | [] => Ok (event_number, hist)
  | ev :: rest =>
      if max_event opts <? event_number then Ok (event_number, hist)
      else if event_number <? min_event opts then
        run_events opts hist_type rest (event_number + 1) hist
      else
        hist' <-? fill_event opts hist_type hist ev ;;
        run_events opts hist_type rest (event_number + 1) hist'
  end.

(** The loop over the files. *)
Fixpoint run_files (opts : options) (hist_type : string) (files : list (list event))
    (event_number : Z) (hist : Histogram) : result (Z * Histogram) :=
  match files with
  | [] => Ok (event_number, hist)
  | events :: rest =>
      r <-? run_events opts hist_type events event_number hist ;;
      run_files opts hist_type rest r.1 r.2
  end.

(** [dark_hist.run(hist, options, hist_type)] *)
Definition run (hist : Histogram) (opts : options) (hist_type : string)
    (files : list (list event)) : result Histogram :=
  r <-? run_files opts hist_type files 0 hist ;;
  Ok r.2.

(** Filling the store with the events of a list, one after the other. *)
Fixpoint fill_events (opts : options) (hist_type : string) (hist : Histogram)
    (events : list event) : result Histogram :=
  match events with
  | [] => Ok hist
  | ev :: rest =>
      hist' <-? fill_event opts hist_type hist ev ;;
      fill_events opts hist_type hist' rest
  end.

(** The events of a list, numbered from [n] on, whose number lies between
    [min_event] and [max_event], both included. *)
Fixpoint numbered_in (opts : options) (n : Z) (events : list event) : list event :=
  match events with
  | [] => []
  | ev :: rest =>
      if (min_event opts <=? n) && (n <=? max_event opts)
      then ev :: numbered_in opts (n + 1) rest
      else numbered_in opts (n + 1) rest
  end.

End DarkHist.

(** * Properties *)

(** ** Poisson errors *)

Lemma Q2R_zero : Q2R 0 = 0%R.
Proof. unfold Q2R; simpl. lra. Qed.

Lemma Qeq_bool_zero_Q2R (d : Q) : Qeq_bool d 0 = true <-> Q2R d = 0%R.
Proof.
  rewrite Qeq_bool_iff. split.
  - intros E. rewrite (Qeq_eqR _ _ E). apply Q2R_zero.
  - intros E. apply eqR_Qeq. rewrite E. symmetry. apply Q2R_zero.
Qed.

(** The error of one bin: 1 on an empty bin, the square root otherwise. *)
Lemma floor_error_sqrt (d : Q) :
  floor_error (np_sqrt d) = if Qeq_bool d 0 then RFin 1%R else np_sqrt d.
Proof.
  unfold floor_error, np_sqrt.
  destruct (Qle_bool 0 d) eqn:Hpos; simpl.
  - apply Qle_bool_iff, Qle_Rle in Hpos. rewrite Q2R_zero in Hpos.
    destruct (Req_dec_T (sqrt (Q2R d)) 0%R) as [Hz | Hnz].
    + apply sqrt_eq_0 in Hz; [| exact Hpos].
      apply Qeq_bool_zero_Q2R in Hz. now rewrite Hz.
    + destruct (Qeq_bool d 0) eqn:Hd; [| reflexivity].
      apply Qeq_bool_zero_Q2R in Hd. rewrite Hd, sqrt_0 in Hnz. now destruct Hnz.
  - destruct (Qeq_bool d 0) eqn:Hd; [| reflexivity].
    apply Qeq_bool_iff in Hd. rewrite Hd in Hpos. discriminate Hpos.
Qed.

Lemma sqrt_four : sqrt (Q2R 4) = 2%R.
Proof.
  replace (Q2R 4) with (2 * 2)%R by (unfold Q2R; simpl; lra).
  apply sqrt_square. lra.
Qed.

Lemma bin_at_map {A B} (f : A -> B) (a : list (list A)) (s b : nat) :
  bin_at (map (map f) a) s b = f <$> bin_at a s b.
Proof.
  unfold bin_at. rewrite list_lookup_fmap.
  destruct (a !! s) as [row |]; simpl; [| reflexivity].
  apply list_lookup_fmap.
Qed.

Lemma compute_errors_bin (h : Histogram) (s b : nat) :
  bin_at (errors (_compute_errors h)) s b
  = (fun d => if Qeq_bool d 0 then RFin 1%R else np_sqrt d) <$> bin_at (data h) s b.
Proof.
  unfold _compute_errors; simpl. rewrite bin_at_map.
  destruct (bin_at (data h) s b); simpl; [| reflexivity].
  now rewrite floor_error_sqrt.
Qed.

Lemma compute_errors_data (h : Histogram) : data (_compute_errors h) = data h.
Proof. reflexivity. Qed.

Lemma fill_with_batch_errors (h h' : Histogram) (batch : list (list Q)) :
  fill_with_batch h batch = Ok h' ->
  exists h1, h' = _compute_errors h1.
Proof.
  unfold fill_with_batch.
  destruct (mapM _ batch); simpl; [| discriminate].
  destruct (get (bin_edges h) 0); simpl; [| discriminate].
  destruct (get (bin_edges h) 1); simpl; [| discriminate].
  destruct (add2 _ _); simpl; [| discriminate].
  destruct (add1 (underflow h) _); simpl; [| discriminate].
  destruct (add1 (overflow h) _); simpl; [| discriminate].
  intros [= <-]. eexists. reflexivity.
Qed.

(** C7. After [_compute_errors], and after every [fill_with_batch], which
    ends with it, every entry of [errors] is the square root of the entry of
    [data] at the same place, except that it is 1 where [data] is 0; a bin
    holding 0 has error 1 and a bin holding 4 has error 2. *)
Theorem poisson_error_floor :
  (forall (h : Histogram) (s b : nat) (d : Q),
      bin_at (data h) s b = Some d ->
      bin_at (errors (_compute_errors h)) s b
      = Some (if Qeq_bool d 0 then RFin 1%R else np_sqrt d))
  /\ (forall (h h' : Histogram) (batch : list (list Q)) (s b : nat) (d : Q),
         fill_with_batch h batch = Ok h' ->
         bin_at (data h') s b = Some d ->
         bin_at (errors h') s b
         = Some (if Qeq_bool d 0 then RFin 1%R else np_sqrt d))
  /\ floor_error (np_sqrt 0) = RFin 1%R
  /\ floor_error (np_sqrt 4) = RFin 2%R.
Proof.
  split; [| split; [| split]].
  - intros h s b d Hd. now rewrite compute_errors_bin, Hd.
  - intros h h' batch s b d Hfill Hd.
    destruct (fill_with_batch_errors _ _ _ Hfill) as [h1 ->].
    rewrite compute_errors_data in Hd. now rewrite compute_errors_bin, Hd.
  - now rewrite floor_error_sqrt.
  - rewrite floor_error_sqrt. simpl. unfold np_sqrt. simpl. now rewrite sqrt_four.
Qed.

Lemma poisson_error_floor_witness :
  exists h : Histogram,
    store_of_data [[0; 4]]%Q = Ok h
    /\ bin_at (data h) 0 1 = Some 4%Q
    /\ bin_at (errors (_compute_errors h)) 0 1 = Some (np_sqrt 4).
Proof.
  eexists. split; [reflexivity |]. split; [reflexivity |].
  apply (proj1 poisson_error_floor _ 0%nat 1%nat 4%Q). reflexivity.
Defined.

(** ** Single-value fill *)

Lemma rbind_ok {A B} (r : result A) (k : A -> result B) (b : B) :
  (x <-? r ;; k x) = Ok b -> exists a, r = Ok a /\ k a = Ok b.
Proof. destruct r as [a | e]; simpl; [eauto | discriminate]. Qed.

Lemma get_ok {A} (l : list A) (i : nat) (a : A) : get l i = Ok a <-> l !! i = Some a.
Proof. unfold get. destruct (l !! i); split; congruence. Qed.

Lemma to_int64_fits (z : Z) : - 2 ^ 63 <= z < 2 ^ 63 -> to_int64 z = z.
Proof.
  intros Hz. unfold to_int64.
  destruct (Z.leb_spec (- 2 ^ 63) z); [| lia].
  destruct (Z.ltb_spec z (2 ^ 63)); [reflexivity | lia].
Qed.

Lemma to_int64_wraps (z : Z) : 2 ^ 63 <= z -> to_int64 z = - 2 ^ 63.
Proof.
  intros Hz. unfold to_int64.
  destruct (Z.ltb_spec z (2 ^ 63)); [lia |]. now rewrite andb_false_r.
Qed.

Lemma to_int64_neg (z : Z) : z < 0 -> to_int64 z < 0.
Proof.
  intros Hz. unfold to_int64.
  destruct ((- 2 ^ 63 <=? z) && (z <? 2 ^ 63)); lia.
Qed.

Lemma hist_index_clamp (h : Histogram) (e0 v : Q) :
  (0 < n_bins h)%nat ->
  hist_index h e0 v
  = Z.max 0 (Z.min (Z.of_nat (n_bins h) - 1)
                   (to_int64 (Qfloor ((v - e0) / bin_width h)))).
Proof.
  intros HN. unfold hist_index.
  destruct (Z.ltb_spec (Z.of_nat (n_bins h) - 1)
                       (to_int64 (Qfloor ((v - e0) / bin_width h))));
    [destruct (Z.ltb_spec (Z.of_nat (n_bins h) - 1) 0)
    | destruct (Z.ltb_spec (to_int64 (Qfloor ((v - e0) / bin_width h))) 0)]; lia.
Qed.

Lemma hist_index_range (h : Histogram) (e0 v : Q) :
  (0 < n_bins h)%nat ->
  0 <= hist_index h e0 v <= Z.of_nat (n_bins h) - 1.
Proof. intros HN. rewrite hist_index_clamp by exact HN. lia. Qed.

Lemma Qfloor_neg (q : Q) : (q < 0)%Q -> Qfloor q < 0.
Proof.
  intros Hq. destruct (Z.ltb_spec (Qfloor q) 0) as [| Hge]; [assumption |].
  exfalso. apply (Qlt_irrefl 0).
  apply Qle_lt_trans with q; [| exact Hq].
  apply Qle_trans with (inject_Z (Qfloor q)); [| apply Qfloor_le].
  change 0%Q with (inject_Z 0). rewrite <- Zle_Qle. exact Hge.
Qed.

Lemma Qfloor_ge (q : Q) (n : Z) : (inject_Z n <= q)%Q -> n <= Qfloor q.
Proof.
  intros Hq. rewrite <- (Qfloor_Z n). now apply Qfloor_resp_le.
Qed.

Lemma Qfloor_lt (q : Q) (n : Z) : (q < inject_Z n)%Q -> Qfloor q < n.
Proof.
  intros Hq. destruct (Z.ltb_spec (Qfloor q) n) as [| Hge]; [assumption |].
  exfalso. apply (Qlt_irrefl q).
  apply Qlt_le_trans with (inject_Z n); [exact Hq |].
  apply Qle_trans with (inject_Z (Qfloor q)); [| apply Qfloor_le].
  rewrite <- Zle_Qle. exact Hge.
Qed.

Lemma Qshift_sub_le (e0 v w : Q) (n : Z) :
  (0 < w)%Q -> (e0 + inject_Z n * w <= v)%Q -> (inject_Z n <= (v - e0) / w)%Q.
Proof.
  intros Hw Hv. apply Qle_shift_div_l; [exact Hw |].
  apply Qplus_le_l with (z := e0). unfold Qminus.
  rewrite <- Qplus_assoc, (Qplus_comm (- e0)), Qplus_opp_r, Qplus_0_r.
  now rewrite Qplus_comm.
Qed.

Lemma Qshift_sub_lt (e0 v w : Q) (n : Z) :
  (0 < w)%Q -> (v < e0 + inject_Z n * w)%Q -> ((v - e0) / w < inject_Z n)%Q.
Proof.
  intros Hw Hv. apply Qlt_shift_div_r; [exact Hw |].
  apply Qplus_lt_l with (z := e0). unfold Qminus.
  rewrite <- Qplus_assoc, (Qplus_comm (- e0)), Qplus_opp_r, Qplus_0_r.
  now rewrite Qplus_comm.
Qed.

(** Samples below the axis fall in bin 0, samples beyond it in the last
    bin, as long as the quotient fits in 64 bits; past that, the conversion
    wraps and the sample falls in bin 0. *)
Lemma hist_index_outside (h : Histogram) (e0 v : Q) :
  (0 < n_bins h)%nat -> (0 < bin_width h)%Q ->
  ((v < e0)%Q -> hist_index h e0 v = 0)
  /\ ((e0 + Qof_nat (n_bins h) * bin_width h <= v)%Q ->
      (v < e0 + inject_Z (2 ^ 63) * bin_width h)%Q ->
      hist_index h e0 v = Z.of_nat (n_bins h) - 1)
  /\ ((e0 + inject_Z (2 ^ 63) * bin_width h <= v)%Q -> hist_index h e0 v = 0).
Proof.
  intros HN Hw. rewrite hist_index_clamp by exact HN. split; [| split].
  - intros Hv.
    assert (to_int64 (Qfloor ((v - e0) / bin_width h)) < 0); [| lia].
    apply to_int64_neg, Qfloor_neg. apply Qlt_shift_div_r; [exact Hw |].
    rewrite Qmult_0_l. unfold Qminus. rewrite <- (Qplus_opp_r e0).
    apply Qplus_lt_l. exact Hv.
  - intros Hv Hfit.
    assert (Z.of_nat (n_bins h) <= Qfloor ((v - e0) / bin_width h)) as Hlo
      by (apply Qfloor_ge; now apply Qshift_sub_le).
    assert (Qfloor ((v - e0) / bin_width h) < 2 ^ 63) as Hhi
      by (apply Qfloor_lt; now apply Qshift_sub_lt).
    rewrite to_int64_fits by lia. lia.
  - intros Hv.
    assert (2 ^ 63 <= Qfloor ((v - e0) / bin_width h)) as Hlo
      by (apply Qfloor_ge; now apply Qshift_sub_le).
    rewrite to_int64_wraps by exact Hlo. lia.
Qed.

Lemma incr_bin_ok (row : list Q) (b : nat) :
  (b < length row)%nat ->
  exists c, row !! b = Some c /\ incr_bin row b = Ok (<[b := (c + 1)%Q]> row).
Proof.
  intros Hb. destruct (lookup_lt_is_Some_2 row b Hb) as [c Hc].
  exists c. split; [exact Hc |]. unfold incr_bin. now rewrite Hc.
Qed.

Lemma incr_bin_lookup (row : list Q) (b0 b : nat) (c : Q) :
  row !! b0 = Some c ->
  <[b0 := (c + 1)%Q]> row !! b = bump b0 b <$> row !! b.
Proof.
  intros Hc. unfold bump. destruct (decide (b = b0)) as [-> | Hne].
  - rewrite list_lookup_insert_eq by (eapply lookup_lt_Some; eauto). now rewrite Hc.
  - rewrite list_lookup_insert_ne by congruence.
    destruct (row !! b); reflexivity.
Qed.

Lemma incr_slots_ok (bins : list nat) : forall rows : list (list Q),
  (length bins <= length rows)%nat ->
  (forall s row b, rows !! s = Some row -> bins !! s = Some b -> (b < length row)%nat) ->
  exists rows',
    incr_slots rows bins = Ok rows'
    /\ length rows' = length rows
    /\ (forall s b0 b, bins !! s = Some b0 ->
                       bin_at rows' s b = bump b0 b <$> bin_at rows s b)
    /\ (forall s, bins !! s = None -> rows' !! s = rows !! s).
Proof.
  induction bins as [| b0 bins IH]; intros rows Hlen Hin.
  - exists rows. destruct rows; simpl; repeat split; auto; intros; discriminate.
  - destruct rows as [| row rows]; [simpl in Hlen; lia |].
    destruct (incr_bin_ok row b0) as (c & Hc & Hrow).
    { apply (Hin 0%nat); reflexivity. }
    destruct (IH rows) as (rows' & Hrows & Hl & Hhit & Hmiss).
    { simpl in Hlen. lia. }
    { intros s r b Hr Hb. apply (Hin (S s)); assumption. }
    exists (<[b0 := (c + 1)%Q]> row :: rows'). simpl.
    rewrite Hrow, Hrows. simpl. repeat split.
    + now rewrite Hl.
    + intros [| s] b1 b Hs; simpl in Hs.
      * injection Hs as <-. unfold bin_at; simpl. now apply incr_bin_lookup.
      * apply (Hhit s b1 b Hs).
    + intros [| s] Hs; simpl in Hs; [discriminate |]. apply (Hmiss s Hs).
Qed.

Lemma fill_data (h h' : Histogram) (value : list Q) :
  fill h value = Ok h' ->
  exists e0 d,
    bin_edges h !! 0%nat = Some e0
    /\ incr_slots (data h) (map (fun v => Z.to_nat (hist_index h e0 v)) value) = Ok d
    /\ h' = set_data h d.
Proof.
  unfold fill. intros H.
  apply rbind_ok in H as (e0 & He0 & H). apply get_ok in He0.
  apply rbind_ok in H as (v0 & _ & H).
  apply rbind_ok in H as (d & Hd & H). injection H as <-.
  now exists e0, d.
Qed.

Lemma length_unravel (shape : list nat) : forall p, length (unravel shape p) = length shape.
Proof. induction shape as [| d rest IH]; intros p; simpl; [reflexivity | now rewrite IH]. Qed.

Lemma unravel_lt (shape : list nat) : forall p,
  (p < shape_size shape)%nat -> Forall2 lt (unravel shape p) shape.
Proof.
  induction shape as [| d rest IH]; intros p Hp; simpl; [constructor |].
  simpl in Hp.
  assert (0 < shape_size rest)%nat as Hpos by nia.
  constructor.
  - apply Nat.Div0.div_lt_upper_bound. nia.
  - apply IH. now apply Nat.mod_upper_bound, Nat.neq_0_lt_0.
Qed.

Lemma ravel_unravel (shape : list nat) : forall p,
  (p < shape_size shape)%nat -> ravel shape (unravel shape p) = p.
Proof.
  induction shape as [| d rest IH]; intros p Hp; simpl in *; [lia |].
  assert (0 < shape_size rest)%nat as Hpos by nia.
  rewrite IH by (now apply Nat.mod_upper_bound, Nat.neq_0_lt_0).
  pose proof (Nat.div_mod_eq p (shape_size rest)). nia.
Qed.

Lemma ravel_lt (shape : list nat) : forall idx,
  Forall2 lt idx shape -> (ravel shape idx < shape_size shape)%nat.
Proof.
  induction shape as [| d rest IH]; intros idx Hidx.
  - inversion Hidx. simpl. lia.
  - inversion Hidx as [| i d' idx' rest' Hi Hrest]; subst. simpl.
    specialize (IH _ Hrest). nia.
Qed.

Lemma unravel_ravel (shape : list nat) : forall idx,
  Forall2 lt idx shape -> unravel shape (ravel shape idx) = idx.
Proof.
  induction shape as [| d rest IH]; intros idx Hidx.
  - now inversion Hidx.
  - inversion Hidx as [| i d' idx' rest' Hi Hrest]; subst. simpl.
    pose proof (ravel_lt _ _ Hrest) as Hr.
    rewrite Nat.div_add_l by lia. rewrite (Nat.div_small _ _ Hr), Nat.add_0_r.
    rewrite Nat.add_comm, Nat.Div0.mod_add, (Nat.mod_small _ _ Hr).
    now rewrite IH.
Qed.

Lemma in_bounds_lt (shape idx : list nat) :
  Forall2 lt idx shape -> in_bounds shape idx = true.
Proof.
  intros H. unfold in_bounds. induction H as [| i d idx shape Hi _ IH]; [reflexivity |].
  simpl. rewrite IH, andb_true_r. now apply Nat.ltb_lt.
Qed.

Lemma bin_at_imap2 (f : nat -> nat -> Q -> Q) (rows : list (list Q)) (s b : nat) :
  bin_at (imap (fun s row => imap (f s) row) rows) s b = f s b <$> bin_at rows s b.
Proof.
  unfold bin_at. rewrite list_lookup_imap.
  destruct (rows !! s) as [row |]; simpl; [| reflexivity].
  now rewrite list_lookup_imap.
Qed.

Lemma imap_id_ext {A} (f : nat -> A -> A) (l : list A) :
  (forall i x, l !! i = Some x -> f i x = x) -> imap f l = l.
Proof.
  intros Hf. apply list_eq. intros i. rewrite list_lookup_imap.
  destruct (l !! i) as [x |] eqn:Hx; simpl; [| reflexivity]. now rewrite (Hf i x Hx).
Qed.

Lemma fill_nd_unfold (slot_shape : list nat) (h : Histogram) (vshape : list nat)
    (value : list Q) (e0 : Q) :
  bin_edges h !! 0%nat = Some e0 -> vshape <> [] ->
  last vshape <> Some 0%nat -> (0 < n_bins h)%nat ->
  fill_nd slot_shape h vshape value
  = (d <-? np_add_one_at slot_shape (n_bins h) (data h) (S (length vshape))
             (imap (fun p b => unravel vshape p ++ [b])
                   (map (fun v => Z.to_nat (hist_index h e0 v)) value)) ;;
     Ok (set_data h d)).
Proof.
  intros He0 Hrank Hlast HN. unfold fill_nd. apply get_ok in He0. rewrite He0.
  cbn [rbind]. destruct vshape as [| d0 vs]; [contradiction |].
  rewrite bool_decide_eq_false_2 by exact Hlast.
  rewrite bool_decide_eq_false_2 by lia. reflexivity.
Qed.

Lemma Forall2_lt_le (idx vs ss : list nat) :
  Forall2 lt idx vs -> Forall2 le vs ss -> Forall2 lt idx ss.
Proof.
  intros H. revert ss.
  induction H as [| i d idx vs Hi _ IH]; intros ss Hle; inversion Hle; subst;
    constructor; [lia | auto].
Qed.

Section FillAnyShape.

Variables (slot_shape vshape : list nat) (h : Histogram) (value : list Q) (e0 : Q).

Let tuples : list (list nat) :=
  imap (fun p b => unravel vshape p ++ [b])
       (map (fun v => Z.to_nat (hist_index h e0 v)) value).

Let hit (n_idx s b : nat) : bool :=
  existsb (fun t => bool_decide (t = take n_idx (unravel slot_shape s ++ [b]))) tuples.

Lemma tuples_lookup (p : nat) (t : list nat) :
  tuples !! p = Some t <->
  exists v, value !! p = Some v /\ t = unravel vshape p ++ [Z.to_nat (hist_index h e0 v)].
Proof.
  unfold tuples. rewrite list_lookup_imap, list_lookup_fmap.
  destruct (value !! p) as [v |]; simpl; split.
  - intros [= <-]. eauto.
  - intros (v' & [= <-] & ->). reflexivity.
  - discriminate.
  - intros (v' & Hv & _). discriminate.
Qed.

Lemma hit_spec (n_idx s b : nat) :
  hit n_idx s b = true <->
  exists p v, value !! p = Some v
              /\ unravel vshape p ++ [Z.to_nat (hist_index h e0 v)]
                 = take n_idx (unravel slot_shape s ++ [b]).
Proof.
  unfold hit. rewrite existsb_exists. split.
  - intros (t & Hin & Ht). apply bool_decide_eq_true_1 in Ht.
    apply list_elem_of_In, list_elem_of_lookup in Hin as [p Hp].
    apply tuples_lookup in Hp as (v & Hv & Hp). exists p, v. split; [exact Hv |].
    now rewrite <- Hp.
  - intros (p & v & Hv & Ht). exists (unravel vshape p ++ [Z.to_nat (hist_index h e0 v)]).
    split; [| now apply bool_decide_eq_true_2].
    apply list_elem_of_In. apply (list_elem_of_lookup_2 _ p), tuples_lookup. eauto.
Qed.

Hypothesis He0 : bin_edges h !! 0%nat = Some e0.
Hypothesis Hvalue : length value = shape_size vshape.
Hypothesis Hfits : Forall2 le vshape slot_shape.
Hypothesis Hrank : vshape <> [].
Hypothesis Hlast : last vshape <> Some 0%nat.
Hypothesis HN : (0 < n_bins h)%nat.

Lemma sample_in_bounds (p : nat) (v : Q) :
  value !! p = Some v ->
  Forall2 lt (unravel vshape p) slot_shape
  /\ (Z.to_nat (hist_index h e0 v) < n_bins h)%nat.
Proof using All.
  intros Hv. split.
  - apply lookup_lt_Some in Hv. rewrite Hvalue in Hv.
    pose proof (unravel_lt vshape p Hv) as Hlt.
    exact (Forall2_lt_le _ _ _ Hlt Hfits).
  - pose proof (hist_index_range h e0 v HN). lia.
Qed.

(** The call returns, with the bins that [hit] tells. *)
Lemma fill_nd_full_rank :
  fill_nd slot_shape h vshape value
  = Ok (set_data h
          (imap (fun s row =>
                   imap (fun b c => if hit (S (length vshape)) s b then (c + 1)%Q else c) row)
                (data h))).
Proof using All.
  rewrite (fill_nd_unfold slot_shape h vshape value e0 He0 Hrank Hlast HN).
  unfold np_add_one_at.
  rewrite (Forall2_length _ _ _ Hfits).
  destruct (Nat.ltb_spec (S (length slot_shape)) (S (length slot_shape))); [lia |].
  fold tuples.
  assert (forallb (in_bounds (slot_shape ++ [n_bins h])) tuples = true) as ->.
  { apply forallb_forall. intros t Hin.
    apply list_elem_of_In, list_elem_of_lookup in Hin as [p Hp].
    apply tuples_lookup in Hp as (v & Hv & ->).
    destruct (sample_in_bounds p v Hv) as [Hidx Hb].
    apply in_bounds_lt. apply Forall2_app; [exact Hidx |]. now repeat constructor. }
  cbn [rbind]. reflexivity.
Qed.

(** In a value with as many axes as the store has slot axes, the sample at
    the position [p] belongs to the slot with the same indices. *)
Definition slot_of (p : nat) : nat := ravel slot_shape (unravel vshape p).

Lemma slot_of_inj (p q : nat) :
  (p < length value)%nat -> (q < length value)%nat -> slot_of p = slot_of q -> p = q.
Proof using All.
  intros Hp Hq Heq. unfold slot_of in Heq.
  destruct (lookup_lt_is_Some_2 _ _ Hp) as [v Hv].
  destruct (lookup_lt_is_Some_2 _ _ Hq) as [w Hw].
  destruct (sample_in_bounds p v Hv) as [Hpb _].
  destruct (sample_in_bounds q w Hw) as [Hqb _].
  apply (f_equal (unravel slot_shape)) in Heq.
  rewrite !unravel_ravel in Heq by assumption.
  rewrite Hvalue in Hp, Hq.
  rewrite <- (ravel_unravel vshape p Hp), <- (ravel_unravel vshape q Hq).
  now rewrite Heq.
Qed.

Lemma hit_sample (p : nat) (v : Q) (b : nat) :
  value !! p = Some v ->
  hit (S (length vshape)) (slot_of p) b
  = bool_decide (b = Z.to_nat (hist_index h e0 v)).
Proof using All.
  intros Hv. destruct (sample_in_bounds p v Hv) as [Hpb _].
  assert (take (S (length vshape)) (unravel slot_shape (slot_of p) ++ [b])
          = unravel vshape p ++ [b]) as Htake.
  { unfold slot_of. rewrite unravel_ravel by exact Hpb.
    apply take_ge. rewrite length_app, length_unravel. simpl. lia. }
  apply eq_true_iff_eq. rewrite hit_spec, bool_decide_eq_true. rewrite Htake. split.
  - intros (q & w & Hw & Ht). apply app_inj_tail in Ht as [Hq Hb].
    assert (q = p) as ->.
    { destruct (sample_in_bounds q w Hw) as [Hqb _].
      apply slot_of_inj; [eapply lookup_lt_Some; eauto .. |].
      unfold slot_of. now rewrite Hq. }
    rewrite Hv in Hw. injection Hw as <-. now rewrite Hb.
  - intros ->. exists p, v. split; [exact Hv | reflexivity].
Qed.

Lemma hit_other_slot (s b : nat) :
  (s < shape_size slot_shape)%nat ->
  (forall p, (p < length value)%nat -> slot_of p <> s) ->
  hit (S (length vshape)) s b = false.
Proof using All.
  intros Hs Hother. destruct (hit (S (length vshape)) s b) eqn:Hhit; [| reflexivity].
  apply hit_spec in Hhit as (p & v & Hv & Ht).
  rewrite take_ge in Ht
    by (rewrite length_app, length_unravel, (Forall2_length _ _ _ Hfits); simpl; lia).
  apply app_inj_tail in Ht as [Hp _].
  exfalso. apply (Hother p); [eapply lookup_lt_Some; eauto |].
  unfold slot_of. rewrite Hp. now apply ravel_unravel.
Qed.

End FillAnyShape.

Lemma imap_bump_insert (row : list Q) (b0 : nat) (c0 : Q) :
  row !! b0 = Some c0 ->
  imap (fun b c => if bool_decide (b = b0) then (c + 1)%Q else c) row
  = <[b0 := (c0 + 1)%Q]> row.
Proof.
  intros Hc. apply list_eq. intros b. rewrite list_lookup_imap.
  destruct (decide (b = b0)) as [-> | Hne].
  - rewrite list_lookup_insert_eq by (eapply lookup_lt_Some; eauto).
    rewrite Hc. simpl. now rewrite bool_decide_eq_true_2.
  - rewrite list_lookup_insert_ne by congruence.
    destruct (row !! b) as [c |]; simpl; [| reflexivity].
    now rewrite bool_decide_eq_false_2.
Qed.

Lemma ravel_one_axis (n k p : nat) : ravel [n] (unravel [k] p) = p.
Proof. cbn [ravel unravel shape_size foldr]. rewrite Nat.div_1_r. lia. Qed.

(** C5, as the code has it. Given a value with one axis per slot axis of
    the store, none of them longer than the store's, and samples on which
    the float64 arithmetic is exact, [fill] sends every
    sample to the bin of index floor((value - bin_edges[0]) / bin_width),
    converted to a 64-bit integer and clamped into [0, N-1], and adds one to
    [data] at [slot, bin], the slot being the one at the indices the sample
    has in [value]; nothing else of [data] changes, and [underflow],
    [overflow] and [errors] are left as they are. Below the axis the bin is
    0; beyond it the bin is N-1 as long as the quotient fits in 64 bits, and
    0 past that, where the conversion wraps. Filling the one-slot store
    over the centers 0 .. 10 with 5, 5, 5 and 7 in four calls gives 3 in bin
    5, 1 in bin 7 and 0 elsewhere; the four samples in one call raise
    [IndexError], the store having one slot; and a value with fewer axes
    than the store has slot axes adds one to every bin of whole slots, or
    raises [IndexError]; a value without axes raises [TypeError]. *)
Theorem fill_single_value :
  (forall (slot_shape vshape : list nat) (h : Histogram) (value : list Q) (e0 : Q),
      bin_edges h !! 0%nat = Some e0 ->
      length (data h) = shape_size slot_shape ->
      length value = shape_size vshape ->
      Forall2 le vshape slot_shape ->
      vshape <> [] ->
      last vshape <> Some 0%nat ->
      (0 < n_bins h)%nat ->
      binary64 e0 ->
      binary64 (bin_width h) ->
      (forall v, v ∈ value -> exact_sample h e0 v) ->
      exists h',
        fill_nd slot_shape h vshape value = Ok h'
        /\ (forall (p : nat) (v : Q) (b : nat),
               value !! p = Some v ->
               let slot := ravel slot_shape (unravel vshape p) in
               bin_at (data h') slot b
               = bump (Z.to_nat (Z.max 0 (Z.min (Z.of_nat (n_bins h) - 1)
                           (to_int64 (Qfloor ((v - e0) / bin_width h)))))) b
                   <$> bin_at (data h) slot b)
        /\ (forall s : nat,
               (forall p, (p < length value)%nat ->
                          ravel slot_shape (unravel vshape p) <> s) ->
               data h' !! s = data h !! s)
        /\ underflow h' = underflow h /\ overflow h' = overflow h
        /\ errors h' = errors h)
  /\ (forall n k p : nat, ravel [n] (unravel [k] p) = p)
  /\ (forall (h : Histogram) (e0 v : Q),
         (0 < n_bins h)%nat -> (0 < bin_width h)%Q ->
         binary64 e0 -> binary64 (bin_width h) -> exact_sample h e0 v ->
         ((v < e0)%Q -> hist_index h e0 v = 0)
         /\ ((e0 + Qof_nat (n_bins h) * bin_width h <= v)%Q ->
             (v < e0 + inject_Z (2 ^ 63) * bin_width h)%Q ->
             hist_index h e0 v = Z.of_nat (n_bins h) - 1)
         /\ ((e0 + inject_Z (2 ^ 63) * bin_width h <= v)%Q -> hist_index h e0 v = 0))
  /\ (h' <-? fill_each store_0_10 [5; 5; 5; 7]%Q ;;
      Ok (data h', underflow h', overflow h'))
     = Ok ([[0; 0; 0; 0; 0; 3; 0; 1; 0; 0; 0]]%Q, [0%Q], [0%Q])
  /\ fill_nd [1%nat] store_0_10 [4%nat] [5; 5; 5; 7]%Q = Raise IndexError
  /\ (h' <-? fill_nd [1%nat] store_0_10 [1%nat] [10000000000000000000%Q] ;; Ok (data h'))
     = Ok [[1; 0; 0; 0; 0; 0; 0; 0; 0; 0; 0]]%Q
  /\ (h <-? new_store 4 0 2 1 ;;
      h' <-? fill_nd [2%nat; 2%nat] h [2%nat] [0; 1]%Q ;; Ok (data h'))
     = Ok [[1; 1; 1]; [0; 0; 0]; [0; 0; 0]; [1; 1; 1]]%Q
  /\ (h <-? new_store 4 0 2 1 ;; fill_nd [2%nat; 2%nat] h [2%nat] [0; 2]%Q)
     = Raise IndexError
  /\ (forall (slot_shape : list nat) (h : Histogram) (value : list Q),
         bin_edges h <> [] -> fill_nd slot_shape h [] value = Raise TypeError).
Proof.
  split; [| split; [| split; [| split; [| split; [| split; [| split; [| split]]]]]]].
  - intros slot_shape vshape h value e0 He0 Hdata Hvalue Hfits Hrank Hlast HN _ _ _.
    pose proof (fill_nd_full_rank slot_shape vshape h value e0 He0 Hvalue Hfits Hrank
                  Hlast HN) as Hfill.
    eexists. split; [exact Hfill |]. split; [| split; [| repeat split]].
    + intros p v b Hv slot. subst slot. cbn [data set_data].
      rewrite bin_at_imap2, <- hist_index_clamp by exact HN.
      pose proof (hit_sample slot_shape vshape h value e0 He0 Hvalue Hfits Hrank Hlast HN
                    p v b Hv) as Hs.
      unfold slot_of in Hs. rewrite Hs. unfold bump.
      destruct (bin_at (data h) _ b) as [c |]; [| reflexivity]. simpl.
      destruct (decide (b = Z.to_nat (hist_index h e0 v))) as [Hb | Hb].
      * now rewrite bool_decide_eq_true_2.
      * now rewrite bool_decide_eq_false_2.
    + intros s Hother. cbn [data set_data]. rewrite list_lookup_imap.
      destruct (data h !! s) as [row |] eqn:Hrow; [| reflexivity]. simpl. f_equal.
      apply imap_id_ext. intros b c _.
      rewrite (hit_other_slot slot_shape vshape h value e0 He0 Hvalue Hfits Hrank Hlast HN);
        [reflexivity | | exact Hother].
      apply lookup_lt_Some in Hrow. lia.
  - intros n k p. apply ravel_one_axis.
  - intros h e0 v HN Hw _ _ _. now apply hist_index_outside.
  - vm_compute. reflexivity.
  - vm_compute. reflexivity.
  - vm_compute. reflexivity.
  - vm_compute. reflexivity.
  - vm_compute. reflexivity.
  - intros slot_shape h value Hedges. unfold fill_nd, get.
    destruct (bin_edges h) as [| e0 edges]; [contradiction | reflexivity].
Qed.

Lemma fill_single_value_witness :
  exists h',
    fill_nd [1%nat] store_0_10 [1%nat] [5%Q] = Ok h'
    /\ bin_at (data h') 0 5 = Some 1%Q.
Proof.
  destruct (proj1 fill_single_value [1%nat] [1%nat] store_0_10 [5%Q] (-1 # 2)%Q)
    as (h' & Hfill & Hhit & _).
  - reflexivity.
  - reflexivity.
  - reflexivity.
  - repeat constructor.
  - discriminate.
  - discriminate.
  - vm_compute. lia.
  - exists (-1), (-1). split; [reflexivity |]. split; [lia | reflexivity].
  - exists 1, 0. split; [reflexivity |]. split; [lia | reflexivity].
  - intros v Hv. apply list_elem_of_singleton in Hv as ->.
    split; [| split].
    + exists 5, 0. split; [reflexivity |]. split; [lia | reflexivity].
    + exists 11, (-1). split; [reflexivity |]. split; [lia | reflexivity].
    + exists 11, (-1). split; [reflexivity |]. split; [lia | reflexivity].
  - exists h'. split; [exact Hfill |].
    pose proof (Hhit 0%nat 5%Q 5%nat eq_refl) as H5. cbv zeta in H5.
    rewrite (ravel_one_axis 1 1 0) in H5. rewrite H5. reflexivity.
Defined.

(** C5, as stated: the four samples given to [fill] in one call raise on
    the one-slot store, in whatever shape they are arranged. *)
Lemma fill_5_5_5_7_at_once_counterexample : ~ fill_5_5_5_7_at_once.
Proof.
  intros (vshape & h' & Hfill & _).
  destruct vshape as [| d [| d2 rest]].
  - discriminate Hfill.
  - destruct d; discriminate Hfill.
  - unfold fill_nd in Hfill. cbn [get lookup list_lookup store_0_10] in Hfill.
    change (get (bin_edges store_0_10) 0) with (@Ok Q (-1 # 2)%Q) in Hfill.
    cbn [rbind] in Hfill.
    destruct (bool_decide _); [discriminate |].
    destruct (bool_decide _); [discriminate |].
    unfold np_add_one_at in Hfill. cbn [length] in Hfill.
    destruct (Nat.ltb_spec 2 (S (S (S (length rest))))); [discriminate | lia].
Qed.

(** ** Batch fill *)

Lemma mapM_ok {A B} (f : A -> result B) (g : A -> B) (l : list A) :
  (forall a, a ∈ l -> f a = Ok (g a)) -> mapM f l = Ok (map g l).
Proof.
  induction l as [| a l IH]; intros Hf; simpl; [reflexivity |].
  rewrite (Hf a) by left. simpl.
  rewrite IH by (intros; apply Hf; now right). reflexivity.
Qed.

Lemma count_if_ext {A} (p q : A -> bool) (l : list A) :
  (forall a, p a = q a) -> count_if p l = count_if q l.
Proof.
  intros Hpq. unfold count_if. f_equal.
  induction l as [| a l IH]; [reflexivity |].
  rewrite !filter_cons, IH.
  destruct (decide (p a = true)) as [Hp | Hp], (decide (q a = true)) as [Hq | Hq];
    try reflexivity; rewrite Hpq in Hp; contradiction.
Qed.

Lemma count_if_cons_false {A} (p : A -> bool) (a : A) (l : list A) :
  p a = false -> count_if p (a :: l) = count_if p l.
Proof.
  intros Hp. unfold count_if. rewrite filter_cons.
  destruct (decide (p a = true)); [congruence | reflexivity].
Qed.

Lemma length_bin_counts (x edges : list Q) :
  S (length (bin_counts x edges)) = length edges \/ edges = [].
Proof.
  induction edges as [| lo [| hi rest] IH]; [now right | now left |].
  left. destruct IH as [IH | IH]; [| discriminate].
  change (bin_counts x (lo :: hi :: rest)) with
    ((match rest with
      | [] => count_if (fun s => Qle_bool lo s && Qle_bool s hi) x
      | _ => count_if (fun s => Qle_bool lo s && Qlt_bool s hi) x
      end) :: bin_counts x (hi :: rest)).
  simpl length in *. lia.
Qed.

Lemma add1_ok (a : list Q) (b : list nat) :
  length a = length b ->
  add1 a b = Ok (zip_with (fun u v => (u + Qof_nat v)%Q) a b).
Proof. intros H. unfold add1. destruct (decide _); [reflexivity | contradiction]. Qed.

Lemma add2_ok (a : list (list Q)) (b : list (list nat)) :
  length a = length b ->
  (forall s row cnt, a !! s = Some row -> b !! s = Some cnt -> length row = length cnt) ->
  add2 a b = Ok (zip_with (zip_with (fun u v => (u + Qof_nat v)%Q)) a b).
Proof.
  intros Hlen Hrows. unfold add2. destruct (decide _) as [_ |]; [| contradiction].
  clear Hlen. revert b Hrows.
  induction a as [| row a IH]; intros [| cnt b] Hrows; try reflexivity.
  simpl. rewrite add1_ok by (apply (Hrows 0%nat); reflexivity). simpl.
  rewrite IH by (intros s r c Hr Hc; apply (Hrows (S s)); assumption).
  reflexivity.
Qed.

(** A sample below every edge, or above every edge, is in no bin. *)
Lemma bin_counts_below (x : list Q) (v : Q) (edges : list Q) :
  Forall (fun e => (v < e)%Q) edges ->
  bin_counts (v :: x) edges = bin_counts x edges.
Proof.
  induction edges as [| lo [| hi rest] IH]; intros Hall; [reflexivity | reflexivity |].
  change (bin_counts (v :: x) (lo :: hi :: rest)) with
    ((match rest with
      | [] => count_if (fun s => Qle_bool lo s && Qle_bool s hi) (v :: x)
      | _ => count_if (fun s => Qle_bool lo s && Qlt_bool s hi) (v :: x)
      end) :: bin_counts (v :: x) (hi :: rest)).
  change (bin_counts x (lo :: hi :: rest)) with
    ((match rest with
      | [] => count_if (fun s => Qle_bool lo s && Qle_bool s hi) x
      | _ => count_if (fun s => Qle_bool lo s && Qlt_bool s hi) x
      end) :: bin_counts x (hi :: rest)).
  inversion Hall as [| ? ? Hlo Hrest]; subst.
  rewrite (IH Hrest).
  assert (Qle_bool lo v = false) as Hf.
  { destruct (Qle_bool lo v) eqn:E; [| reflexivity].
    apply Qle_bool_iff in E. exfalso. eapply Qlt_not_le; eauto. }
  f_equal. destruct rest; apply count_if_cons_false; now rewrite Hf.
Qed.

Lemma bin_counts_above (x : list Q) (v : Q) (edges : list Q) :
  Forall (fun e => (e < v)%Q) edges ->
  bin_counts (v :: x) edges = bin_counts x edges.
Proof.
  induction edges as [| lo [| hi rest] IH]; intros Hall; [reflexivity | reflexivity |].
  change (bin_counts (v :: x) (lo :: hi :: rest)) with
    ((match rest with
      | [] => count_if (fun s => Qle_bool lo s && Qle_bool s hi) (v :: x)
      | _ => count_if (fun s => Qle_bool lo s && Qlt_bool s hi) (v :: x)
      end) :: bin_counts (v :: x) (hi :: rest)).
  change (bin_counts x (lo :: hi :: rest)) with
    ((match rest with
      | [] => count_if (fun s => Qle_bool lo s && Qle_bool s hi) x
      | _ => count_if (fun s => Qle_bool lo s && Qlt_bool s hi) x
      end) :: bin_counts x (hi :: rest)).
  inversion Hall as [| ? ? Hlo Hrest]; subst.
  rewrite (IH Hrest).
  inversion Hrest as [| ? ? Hhi _]; subst.
  assert (Qle_bool v hi = false) as Hf.
  { destruct (Qle_bool v hi) eqn:E; [| reflexivity].
    apply Qle_bool_iff in E. exfalso. eapply Qlt_not_le; eauto. }
  assert (Qlt_bool v hi = false) as Hg.
  { unfold Qlt_bool. apply negb_false_iff, Qle_bool_iff. now apply Qlt_le_weak. }
  f_equal. destruct rest; apply count_if_cons_false;
    rewrite ?Hf, ?Hg; apply andb_false_r.
Qed.

Lemma np_histogram_ok (x edges : list Q) (e0 : Q) :
  increasing edges = true -> edges !! 0%nat = Some e0 ->
  np_histogram x edges = Ok (bin_counts x edges).
Proof.
  intros Hinc He0. unfold np_histogram. rewrite Hinc.
  destruct edges; [discriminate | reflexivity].
Qed.

Lemma fill_with_batch_underflow (h h' : Histogram) (batch : list (list Q)) (e0 : Q) :
  bin_edges h !! 0%nat = Some e0 ->
  fill_with_batch h batch = Ok h' ->
  add1 (underflow h) (map (count_if (fun s => negb (Qgt_bool s e0))) batch)
  = Ok (underflow h').
Proof.
  intros He0 H. unfold fill_with_batch in H.
  apply rbind_ok in H as (hist & _ & H).
  apply rbind_ok in H as (e0' & He0' & H). apply get_ok in He0'.
  rewrite He0 in He0'. injection He0' as <-.
  apply rbind_ok in H as (e1 & _ & H).
  apply rbind_ok in H as (d & _ & H).
  apply rbind_ok in H as (u & Hu & H).
  apply rbind_ok in H as (o & _ & H).
  injection H as <-. exact Hu.
Qed.

(** C4, as the code has it. For a batch holding the samples of every slot,
    [fill_with_batch] adds to the data of each slot the histogram of its
    samples over [bin_edges], adds to its underflow the count of the samples
    at or below the first edge (not greater than it), adds to its overflow
    the count of the samples at or above the second edge, and recomputes
    [errors] for the whole store; a sample below every edge or above every
    edge is counted in no bin of [data]. *)
Theorem fill_with_batch_bookkeeping (h : Histogram) (batch : list (list Q)) (e0 e1 : Q) :
  increasing (bin_edges h) = true ->
  bin_edges h !! 0%nat = Some e0 ->
  bin_edges h !! 1%nat = Some e1 ->
  length batch = length (data h) ->
  Forall (fun row => S (length row) = length (bin_edges h)) (data h) ->
  length (underflow h) = length batch ->
  length (overflow h) = length batch ->
  exists h',
    fill_with_batch h batch = Ok h'
    /\ data h' = zip_with (zip_with (fun c n => (c + Qof_nat n)%Q)) (data h)
                          (map (fun x => bin_counts x (bin_edges h)) batch)
    /\ underflow h'
       = zip_with (fun u x => (u + Qof_nat (count_if (fun s => Qle_bool s e0) x))%Q)
                  (underflow h) batch
    /\ overflow h'
       = zip_with (fun o x => (o + Qof_nat (count_if (fun s => Qle_bool e1 s) x))%Q)
                  (overflow h) batch
    /\ errors h' = map (map (fun d => floor_error (np_sqrt d))) (data h')
    /\ (forall (x : list Q) (v : Q),
           Forall (fun e => (v < e)%Q) (bin_edges h)
           \/ Forall (fun e => (e < v)%Q) (bin_edges h) ->
           bin_counts (v :: x) (bin_edges h) = bin_counts x (bin_edges h)).
Proof.
  intros Hinc He0 He1 Hlen Hrect Hu Ho.
  eexists. split; [| split; [| split; [| split; [| split]]]].
  - unfold fill_with_batch.
    rewrite (mapM_ok _ (fun x => bin_counts x (bin_edges h)))
      by (intros x _; now apply np_histogram_ok with e0).
    cbn [rbind]. apply get_ok in He0, He1. rewrite He0, He1. cbn [rbind].
    rewrite add2_ok; cycle 1.
    { now rewrite length_map. }
    { intros s row cnt Hrow Hcnt. rewrite list_lookup_fmap in Hcnt.
      destruct (batch !! s) as [x |]; [| discriminate]. injection Hcnt as <-.
      rewrite Forall_lookup in Hrect. specialize (Hrect _ _ Hrow).
      destruct (length_bin_counts x (bin_edges h)) as [E | E]; [lia |].
      rewrite E in He0. discriminate. }
    cbn [rbind]. rewrite !add1_ok by now rewrite length_map. cbn [rbind].
    reflexivity.
  - reflexivity.
  - simpl. rewrite zip_with_fmap_r. apply zip_with_ext; [| reflexivity..].
    intros u x. do 2 f_equal. apply count_if_ext. intros s.
    unfold Qgt_bool. apply negb_involutive.
  - simpl. rewrite zip_with_fmap_r. apply zip_with_ext; [| reflexivity..].
    intros o x. do 2 f_equal. apply count_if_ext. intros s.
    unfold Qlt_bool. apply negb_involutive.
  - reflexivity.
  - intros x v [Hb | Ha]; [now apply bin_counts_below | now apply bin_counts_above].
Qed.

Lemma fill_with_batch_bookkeeping_witness :
  exists h',
    fill_with_batch store_0_10 [[-1 # 2; 5; 20; 0]]%Q = Ok h'
    /\ data h' = [[2; 0; 0; 0; 0; 1; 0; 0; 0; 0; 0]]%Q
    /\ underflow h' = [1%Q] /\ overflow h' = [2%Q].
Proof.
  destruct (fill_with_batch_bookkeeping store_0_10 [[-1 # 2; 5; 20; 0]]%Q (-1 # 2) (1 # 2))
    as (h' & Hfill & Hd & Hu & Ho & _).
  - reflexivity.
  - reflexivity.
  - reflexivity.
  - reflexivity.
  - repeat constructor.
  - reflexivity.
  - reflexivity.
  - exists h'. split; [exact Hfill |]. rewrite Hd, Hu, Ho.
    repeat split; vm_compute; reflexivity.
Defined.

(** C4, as stated: a sample lying exactly on the first edge is counted in
    the underflow (and in the first bin), although it is not below the
    edge. *)
Lemma underflow_counts_below_first_edge_counterexample :
  ~ underflow_counts_below_first_edge.
Proof.
  intros Hclaim.
  assert (exists h', fill_with_batch store_0_10 [[-1 # 2]]%Q = Ok h') as [h' Hfill]
    by (eexists; reflexivity).
  pose proof (fill_with_batch_underflow store_0_10 h' _ (-1 # 2)%Q eq_refl Hfill) as Hcode.
  rewrite (Hclaim store_0_10 h' [[-1 # 2]]%Q (-1 # 2)%Q eq_refl Hfill) in Hcode.
  vm_compute in Hcode. discriminate Hcode.
Qed.

(** ** Construction of the bin axis *)

Lemma Qdiv_nonneg_neg (a w : Q) : (0 <= a)%Q -> (w < 0)%Q -> (a / w <= 0)%Q.
Proof.
  intros Ha Hw.
  assert (a / w == - (a / - w))%Q as ->.
  { field. intros E. rewrite E in Hw. now apply Qlt_irrefl in Hw. }
  apply (Qopp_le_compat 0). apply Qle_shift_div_l.
  - apply (Qopp_lt_compat w 0). exact Hw.
  - now rewrite Qmult_0_l.
Qed.

Lemma Qceiling_nonpos (q : Q) : (q <= 0)%Q -> Qceiling q <= 0.
Proof.
  intros Hq. unfold Qceiling.
  assert (0 <= Qfloor (- q)); [| lia].
  apply Qfloor_ge. apply (Qopp_le_compat q 0). exact Hq.
Qed.

Lemma arange_ok (start stop step : Q) :
  ~ (step == 0)%Q -> exists l, arange start stop step = Ok l.
Proof.
  intros Hs. unfold arange.
  destruct (Qeq_bool step 0) eqn:E; [apply Qeq_bool_iff in E; contradiction |].
  eexists. reflexivity.
Qed.

Lemma arange_empty (start stop step : Q) :
  (step < 0)%Q -> (start <= stop)%Q -> arange start stop step = Ok [].
Proof.
  intros Hs Hle. unfold arange.
  destruct (Qeq_bool step 0) eqn:E.
  { apply Qeq_bool_iff in E. rewrite E in Hs. now apply Qlt_irrefl in Hs. }
  assert (Qceiling ((stop - start) / step) <= 0) as Hc.
  { apply Qceiling_nonpos, Qdiv_nonneg_neg; [| exact Hs].
    unfold Qminus. rewrite <- (Qplus_opp_r start). now apply Qplus_le_l. }
  replace (Z.to_nat (Qceiling ((stop - start) / step))) with 0%nat by lia.
  reflexivity.
Qed.

(** C8, as the code has it. The constructor does not check the width: with
    a zero width the construction fails, the error being the one of
    [np.arange]; with a negative width it succeeds, and the axis it builds
    has no centers when [bin_center_min <= bin_center_max + 1]. *)
Theorem nonpositive_width_axis (bin_center_min bin_center_max width : Q) :
  ((width == 0)%Q ->
   init_axis [] bin_center_min bin_center_max width = Raise ZeroDivisionError
   /\ forall n xl yl lb,
        __init__ [] n [] bin_center_min bin_center_max width xl yl lb
        = Raise ZeroDivisionError)
  /\ ((width < 0)%Q ->
      exists edges centers,
        init_axis [] bin_center_min bin_center_max width = Ok (width, edges, centers)
        /\ ((bin_center_min <= bin_center_max + 1)%Q -> centers = [])
        /\ forall n xl yl lb,
             is_ok (__init__ [] n [] bin_center_min bin_center_max width xl yl lb) = true).
Proof.
  split.
  - intros Hw. apply Qeq_bool_iff in Hw.
    assert (init_axis [] bin_center_min bin_center_max width = Raise ZeroDivisionError) as E.
    { unfold init_axis, arange. now rewrite Hw. }
    split; [exact E |]. intros. unfold __init__. now rewrite E.
  - intros Hw.
    assert (~ (width == 0)%Q) as Hnz.
    { intros E. rewrite E in Hw. now apply Qlt_irrefl in Hw. }
    destruct (arange_ok (bin_center_min - width / 2) (bin_center_max + width / 2 + 1)
                        width Hnz) as [edges He].
    destruct (arange_ok bin_center_min (bin_center_max + 1) width Hnz) as [cs Hc].
    assert (init_axis [] bin_center_min bin_center_max width = Ok (width, edges, cs)) as E.
    { unfold init_axis. now rewrite He, Hc. }
    exists edges, cs. split; [exact E |]. split.
    + intros Hle. rewrite (arange_empty _ _ _ Hw Hle) in Hc. now injection Hc.
    + intros. unfold __init__. now rewrite E.
Qed.

Lemma nonpositive_width_axis_witness :
  init_axis [] 0 10 0 = Raise ZeroDivisionError
  /\ exists edges centers, init_axis [] 0 10 (-1) = Ok ((-1)%Q, edges, centers).
Proof.
  split.
  - apply (proj1 (nonpositive_width_axis 0 10 0)). reflexivity.
  - destruct (proj2 (nonpositive_width_axis 0 10 (-1))) as (edges & cs & E & _).
    + reflexivity.
    + exists edges, cs. exact E.
Defined.

(** C8, as stated: the width -1 over the centers 0 .. 10 is accepted, and
    gives an empty axis. *)
Lemma nonpositive_width_rejected_counterexample : ~ nonpositive_width_rejected.
Proof.
  intros Hclaim.
  specialize (Hclaim 0%Q 10%Q (-1)%Q).
  assert (init_axis [] 0 10 (-1) = Ok ((-1)%Q, [], [])) as E by reflexivity.
  rewrite E in Hclaim. simpl in Hclaim.
  discriminate Hclaim. discriminate.
Qed.

(** ** The warm-start guess of the low-light strategy *)






(** ** The fit loop *)

(** C10. [fit] calls [labels_func()] before the loop over the slots: when
    [labels_func] is left at [None] the call raises [TypeError], whatever
    the other arguments and the store; by then only [fit_function] has been
    assigned: no slot has been fitted, [fit_result] and [fit_chi2_ndof] are
    as they were and nothing was logged. *)
Theorem fit_without_labels_func
    (least_squares : objective -> list fnum -> list Q -> list Q -> list rnum ->
                     list fnum * list fnum -> result lsq_out)
    (func : pyfunc) (p0_func : guess_fn) (slice_func : slice_fn) (bound_func : bounds_fn)
    (config : option (list config_slot)) (limited_indices : option (list nat))
    (fixed_param : list (Z * fixed_value)) (h : Histogram) :
  let r := fit least_squares func p0_func slice_func bound_func None config
               limited_indices fixed_param h in
  r.1 = Raise TypeError
  /\ r.2 = set_fit_function h (Some func)
  /\ fit_result r.2 = fit_result h
  /\ fit_chi2_ndof r.2 = fit_chi2_ndof h
  /\ fit_result_label r.2 = fit_result_label h
  /\ logger r.2 = logger h.
Proof. repeat split. Qed.

(** *** Rules for [triple] *)

Section TripleRules.

Context {A B : Type}.
Implicit Types (P E : Histogram -> Prop).

Lemma triple_ret P E (a : A) (Q : A -> Histogram -> Prop) :
  (forall h, P h -> Q a h) -> triple P (ret a) Q E.
Proof. intros H h HP. simpl. auto. Qed.

Lemma triple_throw P E (e : exn) (Q : A -> Histogram -> Prop) :
  (forall h, P h -> E h) -> triple P (throw e) Q E.
Proof. intros H h HP. simpl. auto. Qed.

Lemma triple_lift P E (r : result A) (Q : A -> Histogram -> Prop) :
  (forall h, P h -> E h) ->
  (forall a h, r = Ok a -> P h -> Q a h) ->
  triple P (lift r) Q E.
Proof. intros HE HQ h HP. unfold lift. destruct r; auto. Qed.

Lemma triple_gets P E (f : Histogram -> A) (Q : A -> Histogram -> Prop) :
  (forall h, P h -> Q (f h) h) -> triple P (gets f) Q E.
Proof. intros H h HP. simpl. auto. Qed.

Lemma triple_bind P E (m : M A) (k : A -> M B)
    (Q : A -> Histogram -> Prop) (R : B -> Histogram -> Prop) :
  triple P m Q E ->
  (forall a, triple (Q a) (k a) R E) ->
  triple P (bind m k) R E.
Proof.
  intros Hm Hk h HP. unfold bind. specialize (Hm h HP).
  destruct (m h) as [[a | e] h']; [apply Hk; exact Hm | exact Hm].
Qed.

Lemma triple_weaken P P' E (m : M A) (Q Q' : A -> Histogram -> Prop) :
  triple P' m Q' E ->
  (forall h, P h -> P' h) ->
  (forall a h, Q' a h -> Q a h) ->
  triple P m Q E.
Proof.
  intros Hm HP HQ h Hh. specialize (Hm h (HP h Hh)).
  destruct (m h) as [[a | e] h']; auto.
Qed.

End TripleRules.

Lemma triple_modify P E (f : Histogram -> Histogram) (Q : unit -> Histogram -> Prop) :
  (forall h, P h -> Q tt (f h)) -> triple P (modify f) Q E.
Proof. intros H h HP. simpl. auto. Qed.

Lemma triple_logm P (l : level) (msg : string) :
  log_stable P -> triple P (logm l msg) (fun _ => P) P.
Proof. intros HP. apply triple_modify. intros h Hh. now apply HP. Qed.

Lemma triple_forM_ {A} P (l : list A) (body : A -> M unit) :
  (forall a, triple P (body a) (fun _ => P) P) ->
  triple P (forM_ l body) (fun _ => P) P.
Proof.
  intros Hbody. induction l as [| a l IH]; simpl.
  - now apply triple_ret.
  - eapply triple_bind; [apply Hbody | intros ?; exact IH].
Qed.

(** A computation that reads the store without changing it. *)
Lemma triple_read {A} P (f : Histogram -> result A) :
  triple P (fun h => (f h, h)) (fun _ => P) P.
Proof. intros h HP. destruct (f h); exact HP. Qed.

(** [_axis_fit] only logs. *)
Lemma axis_fit_logs_only least_squares P (idx : nat) (func : objective) (p0 : list fnum)
    (sl : slice_list) (bounds : list fnum * list fnum) (fixed_param : option fixed_lists) :
  log_stable P ->
  triple P (_axis_fit least_squares idx func p0 sl bounds fixed_param) (fun _ => P) P.
Proof.
  intros HP. unfold _axis_fit.
  eapply triple_bind; [apply triple_lift with (Q := fun _ => P); auto |].
  intros [[reduced_p0 reduced_bounds] obj]. destruct sl as [[a b] c].
  eapply triple_bind with (Q := fun _ => P).
  { destruct (slice_is_empty_marker (a, b, c)).
    - now apply triple_ret.
    - eapply triple_bind; [apply triple_read |]. intros row.
      eapply triple_bind; [apply triple_lift with (Q := fun _ => P); auto |].
      intros ?. now apply triple_ret. }
  intros bad.
  eapply triple_bind with (Q := fun _ => P).
  { destruct bad.
    - eapply triple_bind; [now apply triple_logm |]. intros ?. now apply triple_ret.
    - eapply triple_bind; [apply triple_gets with (Q := fun _ => P); auto |].
      intros [[res chi2] msgs].
      eapply triple_bind.
      { apply triple_forM_. intros m. now apply triple_logm. }
      intros ?. destruct res.
      + now apply triple_ret.
      + repeat (eapply triple_bind; [now apply triple_logm | intros ?]).
        now apply triple_ret. }
  intros [fit_res chi2].
  eapply triple_bind; [apply triple_lift with (Q := fun _ => P); auto |].
  intros fit_res'. now apply triple_ret.
Qed.

(** *** The reconciliation of the parameter counts *)

Lemma length_nan_rows (k : nat) : length (nan_rows k) = k.
Proof. apply length_replicate. Qed.

Lemma allocated_rectangular (f0 : option fit_array) (fr0 : fit_array) :
  rectangular_opt f0 -> allocated f0 fr0 -> rectangular fr0.
Proof.
  intros Hf0 [-> | (-> & n & k & ->)]; [exact Hf0 |].
  unfold rectangular. simpl. apply Forall_replicate, length_nan_rows.
Qed.

Lemma widen_array_slots (fr : fit_array) (k : nat) :
  n_par (widen_array fr k) = Nat.max (n_par fr) k
  /\ fit_slots (widen_array fr k)
     = map (fun rows => rows ++ replicate (Nat.max (n_par fr) k - n_par fr)%nat zero_row)
           (fit_slots fr).
Proof.
  unfold widen_array. destruct (Nat.ltb_spec (n_par fr) k) as [Hlt | Hge]; simpl.
  - replace (Nat.max (n_par fr) k) with k by lia. split; reflexivity.
  - replace (Nat.max (n_par fr) k) with (n_par fr) by lia. split; [reflexivity |].
    rewrite Nat.sub_diag. simpl.
    induction (fit_slots fr) as [| rows l IH]; [reflexivity |].
    simpl. now rewrite app_nil_r, <- IH.
Qed.

Lemma widen_array_rectangular (fr : fit_array) (k : nat) :
  rectangular fr -> rectangular (widen_array fr k).
Proof.
  intros Hr. unfold rectangular.
  destruct (widen_array_slots fr k) as [-> ->].
  apply Forall_fmap. eapply Forall_impl; [exact Hr |].
  intros rows Hrows. simpl. rewrite length_app, length_replicate, Hrows. lia.
Qed.

Lemma widen_result_rows (fr : fit_array) (fit_res : list (fnum * fnum)) :
  (length fit_res <= n_par fr)%nat ->
  widen_result fr fit_res = fit_res ++ replicate (n_par fr - length fit_res)%nat zero_row
  /\ length (widen_result fr fit_res) = n_par fr.
Proof.
  intros Hle. unfold widen_result.
  destruct (Nat.ltb_spec (length fit_res) (n_par fr)) as [Hlt | Hge].
  - split; [reflexivity |]. rewrite length_app, length_replicate. lia.
  - replace (n_par fr - length fit_res)%nat with 0%nat by lia.
    simpl. rewrite app_nil_r. split; [reflexivity | lia].
Qed.

(** What the two padding steps and the assignment do to the array. *)
Lemma store_result_spec (fr : fit_array) (idx : nat) (fit_res : list (fnum * fnum)) :
  rectangular fr ->
  (idx < length (fit_slots fr))%nat ->
  let fr' := store_result fr idx fit_res in
  rectangular fr'
  /\ n_par fr' = Nat.max (n_par fr) (length fit_res)
  /\ length (fit_slots fr') = length (fit_slots fr)
  /\ fit_slots fr' !! idx
     = Some (fit_res ++ replicate (n_par fr' - length fit_res)%nat zero_row)
  /\ (forall s rows, s <> idx -> fit_slots fr !! s = Some rows ->
        fit_slots fr' !! s = Some (rows ++ replicate (n_par fr' - n_par fr)%nat zero_row)).
Proof.
  intros Hr Hidx fr'. subst fr'. unfold store_result.
  pose proof (widen_array_rectangular fr (length fit_res) Hr) as Hr1.
  destruct (widen_array_slots fr (length fit_res)) as [Hn Hs].
  destruct (widen_result_rows (widen_array fr (length fit_res)) fit_res) as [Hw Hwl];
    [rewrite Hn; lia |].
  assert (length (fit_slots (widen_array fr (length fit_res))) = length (fit_slots fr))
    as Hlen by (rewrite Hs; apply length_map).
  simpl. split; [| split; [| split; [| split]]].
  - unfold rectangular. simpl. apply Forall_insert; [exact Hr1 | exact Hwl].
  - exact Hn.
  - now rewrite length_insert.
  - rewrite list_lookup_insert_eq by lia. now rewrite Hw.
  - intros s rows Hne Hrows. rewrite list_lookup_insert_ne by congruence.
    rewrite Hs, list_lookup_fmap, Hrows, Hn. reflexivity.
Qed.

Lemma slot_stored_rectangular (f0 : option fit_array) (idx : nat) (h : Histogram) :
  rectangular_opt f0 -> slot_stored f0 idx h -> fit_result_rectangular h.
Proof.
  intros Hf0 (fr0 & res & Ha & Hidx & Hfr).
  unfold fit_result_rectangular. rewrite Hfr.
  apply store_result_spec; [eapply allocated_rectangular; eauto | exact Hidx].
Qed.

Lemma slot_allocated_rectangular (f0 : option fit_array) (h : Histogram) :
  rectangular_opt f0 -> slot_allocated f0 h -> fit_result_rectangular h.
Proof.
  intros Hf0 (fr0 & Ha & Hfr). unfold fit_result_rectangular. rewrite Hfr.
  eapply allocated_rectangular; eauto.
Qed.

Lemma log_stable_fit_result (P : option fit_array -> Prop) :
  log_stable (fun h => P (fit_result h)).
Proof. intros h l msg Hh. exact Hh. Qed.

Section FitSlotTriple.

Variable least_squares :
  objective -> list fnum -> list Q -> list Q -> list rnum ->
  list fnum * list fnum -> result lsq_out.
Variables (func : pyfunc) (p0_func : guess_fn) (slice_func : slice_fn)
          (bound_func : bounds_fn) (config : option (list config_slot))
          (fixed_param : list (Z * fixed_value)).

(** The loop body on the slot [idx], from a store whose [fit_result] is
    [f0]: when it returns, the array is the one it found or allocated, with
    the result of the slot written by [store_result]; when it raises,
    [fit_result] is rectangular all the same. *)
Lemma fit_slot_triple (idx : nat) (f0 : option fit_array) :
  rectangular_opt f0 ->
  triple (fun h => fit_result h = f0)
         (fit_slot least_squares func p0_func slice_func bound_func config fixed_param idx)
         (fun _ => slot_stored f0 idx)
         fit_result_rectangular.
Proof.
  intros Hf0.
  assert (forall h, fit_result h = f0 -> fit_result_rectangular h) as HE0.
  { intros h Hh. unfold fit_result_rectangular. now rewrite Hh. }
  assert (forall h, slot_allocated f0 h -> fit_result_rectangular h) as HE1
    by (intros h; now apply slot_allocated_rectangular).
  assert (forall h, slot_stored f0 idx h -> fit_result_rectangular h) as HE2
    by (intros h; now apply slot_stored_rectangular).
  assert (log_stable (slot_allocated f0)) as Hlog
    by apply (log_stable_fit_result (fun f => exists fr0, allocated f0 fr0 /\ f = Some fr0)).
  unfold fit_slot. cbv zeta.
  (* the allocation of [fit_result] *)
  eapply triple_bind with (Q := fun fr h => fit_result h = f0 /\ fr = f0).
  { apply triple_gets. auto. }
  intros fr.
  eapply triple_bind with (Q := fun _ => slot_allocated f0).
  { destruct fr as [fr |].
    - apply triple_ret. intros h [Hh <-]. exists fr. split; [now left | exact Hh].
    - eapply triple_bind with (Q := fun _ h => fit_result h = f0 /\ None = f0).
      { eapply triple_bind with (Q := fun _ h => fit_result h = f0 /\ None = f0).
        { intros h HP. destruct (get (data h) idx); [exact HP | apply HE0, HP]. }
        intros row.
        eapply triple_bind with (Q := fun _ h => fit_result h = f0 /\ None = f0).
        { apply triple_gets. auto. }
        intros cs.
        eapply triple_bind with (Q := fun _ h => fit_result h = f0 /\ None = f0).
        { apply triple_lift; [intros h HP; apply HE0, HP | auto]. }
        intros cfg. apply triple_ret. auto. }
      intros [[row cs] cfg].
      eapply triple_bind with (Q := fun _ h => fit_result h = f0 /\ None = f0).
      { apply triple_lift; [intros h HP; apply HE0, HP | auto]. }
      intros p0.
      eapply triple_bind with (Q := fun _ h => fit_result h = f0 /\ None = f0).
      { apply triple_gets. auto. }
      intros n. apply triple_modify. intros h [_ <-].
      eexists. split; [right; split; [reflexivity | eauto] | reflexivity]. }
  intros ?.
  (* the allocation of [fit_chi2_ndof] *)
  eapply triple_bind with (Q := fun _ => slot_allocated f0).
  { apply triple_gets. auto. }
  intros chi.
  eapply triple_bind with (Q := fun _ => slot_allocated f0).
  { destruct chi as [chi |].
    - apply triple_ret. auto.
    - eapply triple_bind with (Q := fun _ => slot_allocated f0).
      { apply triple_gets. auto. }
      intros n. apply triple_modify. auto. }
  intros ?.
  (* the inputs of the slot and the fit itself *)
  eapply triple_bind with (Q := fun _ => slot_allocated f0).
  { apply triple_lift; auto. }
  intros list_fixed_param.
  eapply triple_bind with (Q := fun _ => slot_allocated f0).
  { eapply triple_bind with (Q := fun _ => slot_allocated f0).
    { intros h HP. destruct (get (data h) idx); [exact HP | now apply HE1]. }
    intros row.
    eapply triple_bind with (Q := fun _ => slot_allocated f0).
    { apply triple_gets. auto. }
    intros cs.
    eapply triple_bind with (Q := fun _ => slot_allocated f0).
    { apply triple_lift; auto. }
    intros cfg. apply triple_ret. auto. }
  intros [[row cs] cfg].
  eapply triple_bind with (Q := fun _ => slot_allocated f0); [apply triple_lift; auto |].
  intros p0.
  eapply triple_bind with (Q := fun _ => slot_allocated f0); [apply triple_lift; auto |].
  intros sl.
  eapply triple_bind with (Q := fun _ => slot_allocated f0); [apply triple_lift; auto |].
  intros bounds.
  eapply triple_bind with (Q := fun _ => slot_allocated f0).
  { eapply triple_weaken with (P' := slot_allocated f0) (Q' := fun _ => slot_allocated f0)
                              (E := fit_result_rectangular).
    - intros h HP.
      pose proof (axis_fit_logs_only least_squares (slot_allocated f0) idx
                    (fun p x => fn_call func p x cfg) p0 sl bounds list_fixed_param
                    Hlog h HP) as Hfit.
      destruct (_axis_fit _ _ _ _ _ _ _ h) as [[out | e] h']; [exact Hfit | now apply HE1].
    - auto.
    - auto. }
  intros [[fit_res chi2] ndof].
  (* the reconciliation and the assignment *)
  eapply triple_bind with (Q := fun fr h => slot_allocated f0 h /\ fit_result h = fr).
  { apply triple_gets. auto. }
  intros fr1.
  eapply triple_bind with (Q := fun _ => slot_stored f0 idx).
  { destruct fr1 as [fr1 |].
    - eapply triple_bind
        with (Q := fun _ h => slot_allocated f0 h /\ fit_result h = Some fr1
                              /\ (idx < length (fit_slots fr1))%nat).
      { apply triple_lift; [intros h [HP _]; now apply HE1 |].
        intros got h Hget [HP Hfr]. repeat split; try assumption.
        apply get_ok in Hget. eapply lookup_lt_Some; eauto. }
      intros ?. apply triple_modify.
      intros h ((fr0 & Ha & Hfr0) & Hfr & Hidx).
      rewrite Hfr in Hfr0. injection Hfr0 as <-.
      exists fr1, fit_res. repeat split; assumption.
    - apply triple_throw. intros h [HP _]. now apply HE1. }
  intros ?.
  eapply triple_bind with (Q := fun _ => slot_stored f0 idx).
  { apply triple_gets. auto. }
  intros chi'. destruct chi' as [chi' |].
  - eapply triple_bind with (Q := fun _ => slot_stored f0 idx); [apply triple_lift; auto |].
    intros ?. apply triple_modify. auto.
  - apply triple_throw. auto.
Qed.

End FitSlotTriple.

Lemma fit_slot_keeps_rectangular least_squares func p0_func slice_func bound_func
    config fixed_param (idx : nat) :
  triple fit_result_rectangular
         (fit_slot least_squares func p0_func slice_func bound_func config fixed_param idx)
         (fun _ => fit_result_rectangular) fit_result_rectangular.
Proof.
  intros h Hh.
  pose proof (fit_slot_triple least_squares func p0_func slice_func bound_func config
                fixed_param idx (fit_result h) Hh h eq_refl) as Hslot.
  destruct (fit_slot _ _ _ _ _ _ _ _ h) as [[[] | e] h']; [| exact Hslot].
  eapply slot_stored_rectangular; [exact Hh | exact Hslot].
Qed.

Lemma fit_keeps_rectangular least_squares func p0_func slice_func bound_func labels_func
    config limited_indices fixed_param :
  triple fit_result_rectangular
         (fit least_squares func p0_func slice_func bound_func labels_func config
              limited_indices fixed_param)
         (fun _ => fit_result_rectangular) fit_result_rectangular.
Proof.
  unfold fit.
  eapply triple_bind with (Q := fun _ => fit_result_rectangular);
    [apply triple_modify; auto |].
  intros ?.
  eapply triple_bind with (Q := fun _ => fit_result_rectangular).
  { destruct labels_func; [apply triple_lift; auto | apply triple_throw; auto]. }
  intros labels.
  eapply triple_bind with (Q := fun _ => fit_result_rectangular);
    [apply triple_modify; auto |].
  intros ?.
  eapply triple_bind with (Q := fun _ => fit_result_rectangular);
    [apply triple_gets; auto |].
  intros n. apply triple_forM_. intros idx. apply fit_slot_keeps_rectangular.
Qed.

(** C2. The array [fit_result] stays rectangular over all slots through
    every slot that [fit] fits (and also when the fit of a slot raises):
    the result of a slot with more rows than the array is wide makes the
    array grow by zero rows on every slot, a result with fewer rows is
    padded with zero rows up to the width of the array before it is
    written. Fitting slot A with a guess of 6 parameters and then slot B
    with a guess of 8 leaves an array 8 rows wide, the two extra rows of
    slot A being zero. *)
Theorem parameter_count_reconciliation :
  (forall (fr : fit_array) (idx : nat) (fit_res : list (fnum * fnum)),
      rectangular fr ->
      (idx < length (fit_slots fr))%nat ->
      let fr' := store_result fr idx fit_res in
      rectangular fr'
      /\ n_par fr' = Nat.max (n_par fr) (length fit_res)
      /\ length (fit_slots fr') = length (fit_slots fr)
      /\ fit_slots fr' !! idx
         = Some (fit_res ++ replicate (n_par fr' - length fit_res)%nat (Fin 0, Fin 0))
      /\ (forall s rows, s <> idx -> fit_slots fr !! s = Some rows ->
            fit_slots fr' !! s
            = Some (rows ++ replicate (n_par fr' - n_par fr)%nat (Fin 0, Fin 0))))
  /\ (forall least_squares func p0_func slice_func bound_func config fixed_param
             (idx : nat) (h : Histogram),
         fit_result_rectangular h ->
         let r := fit_slot least_squares func p0_func slice_func bound_func config
                           fixed_param idx h in
         fit_result_rectangular r.2
         /\ (r.1 = Ok tt -> slot_stored (fit_result h) idx r.2))
  /\ (forall least_squares func p0_func slice_func bound_func labels_func config
             limited_indices fixed_param (h : Histogram),
         fit_result_rectangular h ->
         fit_result_rectangular
           (fit least_squares func p0_func slice_func bound_func labels_func config
                limited_indices fixed_param h).2)
  /\ (let r := fit lsq_identity model_f guess_6_or_8 whole_axis no_bounds
                   (Some LowLight.label_func) None None [] store_A_B in
      r.1 = Ok tt
      /\ fit_result r.2
         = Some {| n_par := 8;
                   fit_slots :=
                     [replicate 6 (Fin 1, Fin 1) ++ replicate 2 (Fin 0, Fin 0);
                      replicate 8 (Fin 1, Fin 1)] |}).
Proof.
  split; [| split; [| split]].
  - intros fr idx fit_res Hr Hidx. exact (store_result_spec fr idx fit_res Hr Hidx).
  - intros ls func p0_func slice_func bound_func config fixed_param idx h Hh r.
    subst r.
    pose proof (fit_slot_triple ls func p0_func slice_func bound_func config
                  fixed_param idx (fit_result h) Hh h eq_refl) as Hslot.
    destruct (fit_slot _ _ _ _ _ _ _ _ h) as [[[] | e] h']; simpl.
    + split; [eapply slot_stored_rectangular; eauto | auto].
    + split; [exact Hslot | discriminate].
  - intros ls func p0_func slice_func bound_func labels_func config limited_indices
           fixed_param h Hh.
    pose proof (fit_keeps_rectangular ls func p0_func slice_func bound_func labels_func
                  config limited_indices fixed_param h Hh) as Hfit.
    destruct (fit _ _ _ _ _ _ _ _ _ h) as [[[] | e] h']; exact Hfit.
  - vm_compute. split; reflexivity.
Qed.

Lemma parameter_count_reconciliation_witness :
  let fr := {| n_par := 6;
               fit_slots := [replicate 6 (NaN, NaN); replicate 6 (NaN, NaN)] |} in
  let fr' := store_result fr 1 (replicate 8 (Fin 1, Fin 1)) in
  n_par fr' = 8%nat
  /\ fit_slots fr' !! 0%nat
     = Some (replicate 6 (NaN, NaN) ++ replicate 2 (Fin 0, Fin 0))
  /\ fit_slots fr' !! 1%nat = Some (replicate 8 (Fin 1, Fin 1)).
Proof.
  intros fr fr'.
  destruct (proj1 parameter_count_reconciliation fr 1%nat (replicate 8 (Fin 1, Fin 1)))
    as (_ & Hn & _ & Hslot & Hother).
  - repeat constructor.
  - simpl. lia.
  - split; [exact Hn |]. split.
    + apply (Hother 0%nat (replicate 6 (NaN, NaN))); [discriminate | reflexivity].
    + exact Hslot.
Defined.

(** *** Exceptions in the fit of one slot *)

Ltac run_store :=
  cbv beta iota zeta delta [bind gets lift ret modify throw logm];
  cbn [fst snd data bin_centers errors fit_result fit_chi2_ndof logger
       set_fit_result set_fit_chi2_ndof log_msg].














(** ** Fixed parameters *)

Lemma np_insert_ok {A} (rows : list A) (i : nat) (row : A) :
  (i <= length rows)%nat ->
  np_insert rows (Z.of_nat i) row = Ok (take i rows ++ row :: drop i rows).
Proof.
  intros Hi. unfold np_insert.
  destruct (Z.ltb_spec (Z.of_nat i) (- Z.of_nat (length rows))); [lia |].
  destruct (Z.ltb_spec (Z.of_nat (length rows)) (Z.of_nat i)); [lia |].
  destruct (Z.ltb_spec (Z.of_nat i) 0); [lia |].
  simpl. now rewrite Nat2Z.id.
Qed.

(** One fixed parameter: its row [value, 0] comes back at its index, the
    fitted rows keep their order around it. *)
Lemma single_fixed_parameter_restored (rows : list (fnum * fnum)) (i : nat) (v : fnum) :
  (i <= length rows)%nat ->
  exists full,
    restore_fixed [Z.of_nat i] [v] 0 rows = Ok full
    /\ full !! i = Some (v, Fin 0)
    /\ length full = S (length rows)
    /\ take i full = take i rows
    /\ drop (S i) full = drop i rows.
Proof.
  intros Hi. exists (take i rows ++ (v, Fin 0) :: drop i rows).
  assert (length (take i rows) = i) as Hlen by (rewrite length_take; lia).
  split; [| split; [| split; [| split]]].
  - simpl. now rewrite np_insert_ok.
  - rewrite lookup_app_r by lia. now rewrite Hlen, Nat.sub_diag.
  - rewrite length_app, Hlen. simpl. rewrite length_drop. lia.
  - rewrite take_app_le by lia. rewrite take_take. f_equal. lia.
  - rewrite drop_app_ge by lia. rewrite Hlen.
    replace (S i - i)%nat with 1%nat by lia. reflexivity.
Qed.

(** C6, at the input where the code departs from it. With the fixed
    parameters (2, 7) and (0, 9) given in this order on a guess of 6
    parameters, the objective receives 7 as parameter 2 and 9 as parameter
    0, but the rows are put back one after the other in the order of the
    list: the row [7, 0] is inserted at index 2 of the four fitted rows and
    then pushed to index 3 by the insertion of [9, 0] at index 0. The result
    has the full parameter count, and its entry 2 is a fitted row, not
    [7, 0]. *)
Theorem fixed_parameters_out_of_order :
  let fixed_param := [(2, FixedVal (Fin 7)); (0, FixedVal (Fin 9))] in
  let r := fit lsq_identity model_f guess_6_or_8 whole_axis no_bounds
               (Some LowLight.label_func) None (Some [0%nat]) fixed_param store_A_B in
  r.1 = Ok tt
  /\ (exists fr,
         fit_result r.2 = Some fr
         /\ fit_slots fr !! 0%nat
            = Some [(Fin 9, Fin 0); (Fin 1, Fin 1); (Fin 1, Fin 1);
                    (Fin 7, Fin 0); (Fin 1, Fin 1); (Fin 1, Fin 1)])
  /\ (forall a b c d : fnum,
         rebuild_params ([2; 0], [Fin 7; Fin 9]) (seq 0 6) [a; b; c; d] 0
         = Ok [Fin 9; a; Fin 7; b; c; d])
  /\ restore_fixed [2; 0] [Fin 7; Fin 9] 0 (replicate 4 (Fin 1, Fin 1))
     = Ok [(Fin 9, Fin 0); (Fin 1, Fin 1); (Fin 1, Fin 1);
           (Fin 7, Fin 0); (Fin 1, Fin 1); (Fin 1, Fin 1)].
Proof.
  split; [| split; [| split]].
  - vm_compute. reflexivity.
  - eexists. split; vm_compute; reflexivity.
  - intros a b c d. reflexivity.
  - reflexivity.
Qed.

(** ** Persistence *)

Section PersistenceProps.

Import Persistence.

Lemma as_array_mono (hp hp' : heap) (v : pyval) (a : ndarray) :
  hp ⊆ hp' -> as_array hp v = Ok a -> as_array hp' v = Ok a.
Proof.
  intros Hsub. destruct v as [| | | | l]; cbn [as_array]; try auto.
  destruct (hp !! l) as [b |] eqn:Hl; [| discriminate].
  intros [= <-]. now rewrite (lookup_weaken _ _ _ _ Hl Hsub).
Qed.

Lemma content_mono (hp hp' : heap) (self self' : object) (name : string) (a : ndarray) :
  hp ⊆ hp' -> self' !! name = self !! name ->
  content hp self name = Some a -> content hp' self' name = Some a.
Proof.
  intros Hsub Hname. unfold content. rewrite Hname.
  destruct (self !! name) as [v |]; [| discriminate].
  destruct (as_array hp v) as [b |] eqn:Hb; [| discriminate].
  intros [= <-]. now rewrite (as_array_mono _ _ _ _ Hsub Hb).
Qed.

(** [np.copy] allocates storage that was not in use. *)
Lemma np_copy_fresh (hp hp' : heap) (a : ndarray) (l : loc) :
  np_copy hp a = (l, hp') ->
  (l ∉ dom hp) /\ hp' !! l = Some a /\ hp ⊆ hp'.
Proof.
  unfold np_copy. intros [= <- <-].
  pose proof (is_fresh (dom hp)) as Hfresh.
  split; [exact Hfresh |]. split; [apply lookup_insert_eq |].
  apply insert_subseteq. now apply not_elem_of_dom.
Qed.

Lemma content_new_array (hp : heap) (self : object) (attr : string) (l : loc) (a : ndarray) :
  hp !! l = Some a -> content hp (<[attr := PRef l]> self) attr = Some a.
Proof. intros Hl. unfold content. rewrite lookup_insert_eq. simpl. now rewrite Hl. Qed.

(** One assignment of [load]. *)
Lemma load_one_spec (allow_pickle : bool) (file : archive) (self self' : object)
    (hp hp' : heap) (attr key : string) (how : loaded_as) :
  load_one allow_pickle file (self, hp) (attr, key, how) = Ok (self', hp') ->
  exists a v,
    file !! key = Some a
    /\ loaded_value how a = Ok v
    /\ content hp' self' attr = Some v
    /\ hp ⊆ hp'
    /\ (forall name, name <> attr -> self' !! name = self !! name)
    /\ (forall l, self' !! attr = Some (PRef l) -> l ∉ dom hp).
Proof.
  unfold load_one, getitem.
  destruct (file !! key) as [a |]; cbn [rbind]; [| discriminate].
  destruct (has_object a && negb allow_pickle); cbn [rbind]; [discriminate |].
  intros Hload. exists a.
  assert (forall (x : ndarray),
             (let '(l, hp1) := np_copy hp x in Ok (<[attr := PRef l]> self, hp1))
             = Ok (self', hp') ->
             content hp' self' attr = Some x /\ hp ⊆ hp'
             /\ (forall name, name <> attr -> self' !! name = self !! name)
             /\ (forall l, self' !! attr = Some (PRef l) -> l ∉ dom hp)) as Hcopy.
  { intros x Hx. destruct (np_copy hp x) as [l hp1] eqn:Hcp.
    injection Hx as <- <-.
    destruct (np_copy_fresh _ _ _ _ Hcp) as (Hfresh & Hl & Hsub).
    split; [now apply content_new_array |]. split; [exact Hsub |]. split.
    - intros name Hne. now apply lookup_insert_ne.
    - intros l'. rewrite lookup_insert_eq. now intros [= <-]. }
  destruct how; simpl.
  - exists a. split; [reflexivity |]. split; [reflexivity |]. now apply Hcopy.
  - destruct (first_item a) as [x |]; cbn [rbind] in *; [| discriminate].
    exists x. split; [reflexivity |]. split; [reflexivity |]. now apply Hcopy.
  - destruct (first_item a) as [x |]; cbn [rbind] in *; [| discriminate].
    destruct (is_NoneType x).
    + injection Hload as <- <-. exists (Leaf CNone).
      split; [reflexivity |]. split; [reflexivity |]. split.
      { unfold content. now rewrite lookup_insert_eq. }
      split; [reflexivity |]. split.
      * intros name Hne. now apply lookup_insert_ne.
      * intros l. rewrite lookup_insert_eq. discriminate.
    + exists x. split; [reflexivity |]. split; [reflexivity |]. now apply Hcopy.
Qed.

Lemma load_one_ok (allow_pickle : bool) (file : archive) (st : object * heap)
    (attr key : string) (how : loaded_as) (a v : ndarray) :
  file !! key = Some a -> has_object a && negb allow_pickle = false ->
  loaded_value how a = Ok v ->
  exists st', load_one allow_pickle file st (attr, key, how) = Ok st'.
Proof.
  intros Hkey Hobj Hv. destruct st as [self hp]. unfold load_one, getitem.
  rewrite Hkey, Hobj. cbn [rbind]. destruct how; simpl in Hv.
  - destruct (np_copy hp a). eauto.
  - rewrite Hv. cbn [rbind]. destruct (np_copy hp v). eauto.
  - destruct (first_item a) as [x |]; cbn [rbind] in *; [| discriminate].
    destruct (is_NoneType x); [eauto |]. destruct (np_copy hp x). eauto.
Qed.

(** All the assignments of [load]. *)
Lemma load_all_spec (allow_pickle : bool) (file : archive)
    (plan : list (string * string * loaded_as)) :
  forall (self self' : object) (hp hp' : heap),
    NoDup (plan_attrs plan) ->
    load_all allow_pickle file (self, hp) plan = Ok (self', hp') ->
    hp ⊆ hp'
    /\ (forall name, name ∉ plan_attrs plan -> self' !! name = self !! name)
    /\ (forall attr key how, (attr, key, how) ∈ plan ->
          exists a v,
            file !! key = Some a
            /\ loaded_value how a = Ok v
            /\ content hp' self' attr = Some v
            /\ (forall l, self' !! attr = Some (PRef l) -> l ∉ dom hp)).
Proof.
  induction plan as [| [[attr0 key0] how0] plan IH]; intros self self' hp hp' Hnd Hload.
  - simpl in Hload. injection Hload as <- <-.
    split; [reflexivity |]. split; [reflexivity |].
    intros attr key how Hin. inversion Hin.
  - simpl in Hload. apply rbind_ok in Hload as ([self1 hp1] & Hone & Hrest).
    apply NoDup_cons in Hnd as [Hnotin Hnd].
    destruct (load_one_spec _ _ _ _ _ _ _ _ _ Hone)
      as (a0 & v0 & Hkey0 & Hv0 & Hc0 & Hsub0 & Hframe0 & Hfresh0).
    destruct (IH _ _ _ _ Hnd Hrest) as (Hsub & Hframe & Hplan).
    split; [etrans; eauto |]. split.
    + intros name Hname. apply not_elem_of_cons in Hname as [Hne Hname].
      rewrite Hframe by exact Hname. now apply Hframe0.
    + intros attr key how Hin. apply elem_of_cons in Hin as [[= -> -> ->] | Hin].
      * exists a0, v0. split; [exact Hkey0 |]. split; [exact Hv0 |]. split.
        { eapply content_mono; [exact Hsub | now apply Hframe | exact Hc0]. }
        intros l Hl. apply Hfresh0. rewrite <- Hl. symmetry. now apply Hframe.
      * destruct (Hplan _ _ _ Hin) as (a & v & Hkey & Hv & Hc & Hfresh).
        exists a, v. split; [exact Hkey |]. split; [exact Hv |]. split; [exact Hc |].
        intros l Hl Hdom. apply (Hfresh l Hl).
        apply (subseteq_dom _ _ Hsub0). exact Hdom.
Qed.

Lemma load_all_ok (allow_pickle : bool) (file : archive)
    (plan : list (string * string * loaded_as)) :
  forall st : object * heap,
    (forall attr key how, (attr, key, how) ∈ plan ->
       exists a v, file !! key = Some a /\ has_object a && negb allow_pickle = false
                   /\ loaded_value how a = Ok v) ->
    exists st', load_all allow_pickle file st plan = Ok st'.
Proof.
  induction plan as [| [[attr0 key0] how0] plan IH]; intros st Hplan.
  - eexists. reflexivity.
  - destruct (Hplan attr0 key0 how0) as (a & v & Hkey & Hobj & Hv); [left |].
    destruct (load_one_ok allow_pickle file st attr0 key0 how0 a v Hkey Hobj Hv)
      as [st1 Hone].
    destruct (IH st1) as [st' Hrest].
    { intros attr key how Hin. apply (Hplan attr). now right. }
    exists st'. cbn [load_all]. now rewrite Hone.
Qed.

(** Without pickles, the first object array of the archive that a plan
    reads stops the loading with [ValueError]. *)
Lemma load_all_refuses (file : archive) (plan : list (string * string * loaded_as)) :
  forall st : object * heap,
    (forall attr key how, (attr, key, how) ∈ plan ->
       exists a v, file !! key = Some a /\ loaded_value how a = Ok v) ->
    (exists attr key how a,
       (attr, key, how) ∈ plan /\ file !! key = Some a /\ has_object a = true) ->
    load_all false file st plan = Raise ValueError.
Proof.
  induction plan as [| [[attr0 key0] how0] plan IH]; intros st Hplan Hobj.
  - destruct Hobj as (attr & key & how & a & Hin & _). inversion Hin.
  - destruct (Hplan attr0 key0 how0) as (a0 & v0 & Hkey0 & Hv0); [left |].
    cbn [load_all].
    destruct (has_object a0) eqn:Hobj0.
    + destruct st as [self hp]. unfold load_one, getitem.
      rewrite Hkey0, Hobj0. reflexivity.
    + destruct (load_one_ok false file st attr0 key0 how0 a0 v0 Hkey0) as [st1 ->];
        [now rewrite Hobj0 | exact Hv0 |].
      cbn [rbind]. apply IH.
      * intros attr key how Hin. apply (Hplan attr). now right.
      * destruct Hobj as (attr & key & how & a & Hin & Hkey & Ha).
        apply elem_of_cons in Hin as [[= -> -> ->] | Hin].
        { rewrite Hkey0 in Hkey. injection Hkey as <-. congruence. }
        exists attr, key, how, a. repeat split; assumption.
Qed.

(** The archive that [save] writes. *)
Lemma build_archive_spec (hp : heap) (self : object) (fit_func : string)
    (plan : list (string * saved_as)) :
  forall arrays : archive,
    NoDup (map fst plan) ->
    build_archive hp self fit_func plan = Ok arrays ->
    forall key how, (key, how) ∈ plan ->
      exists a, saved_value hp self fit_func how = Ok a /\ arrays !! key = Some a.
Proof.
  induction plan as [| [key0 how0] plan IH]; intros arrays Hnd Hbuild key how Hin.
  - inversion Hin.
  - simpl in Hbuild. apply rbind_ok in Hbuild as (a0 & Ha0 & Hbuild).
    apply rbind_ok in Hbuild as (tl & Htl & Hbuild). injection Hbuild as <-.
    simpl in Hnd. apply NoDup_cons in Hnd as [Hnotin Hnd].
    apply elem_of_cons in Hin as [[= -> ->] | Hin].
    + exists a0. split; [exact Ha0 | apply lookup_insert_eq].
    + destruct (IH tl Hnd Htl key how Hin) as (a & Ha & Hkey).
      exists a. split; [exact Ha |]. rewrite lookup_insert_ne; [exact Hkey |].
      intros <-. apply Hnotin. apply list_elem_of_fmap. now exists (key0, how).
Qed.

End PersistenceProps.

Section RoundTrip.

Import Persistence.

(** Every assignment of [load] reads the key that [save] wrote for the
    same attribute, and undoes the wrapping [save] applied. *)
Lemma plans_agree (attr key : string) (how_l : loaded_as) :
  (attr, key, how_l) ∈ load_plan ->
  exists how_s,
    (key, how_s) ∈ save_plan
    /\ undone_by how_s how_l
    /\ (saved_from how_s = Some attr
        \/ (how_s = FitFuncName /\ attr = "fit_function_name"%string)).
Proof.
  intros Hin. unfold load_plan in Hin.
  repeat (apply elem_of_cons in Hin as [[= -> -> ->] | Hin]);
    [ .. | inversion Hin ];
    (eexists; split; [unfold save_plan; repeat constructor |];
     split; [exact I |]; first [left; reflexivity | right; split; reflexivity]).
Qed.

Lemma load_plan_attrs_NoDup : NoDup (plan_attrs load_plan).
Proof. apply (bool_decide_unpack _). vm_compute. exact I. Qed.

Lemma save_plan_keys_NoDup : NoDup (map fst save_plan).
Proof. apply (bool_decide_unpack _). vm_compute. exact I. Qed.

Lemma saved_value_loads (hp : heap) (self : object) (fit_func : string)
    (how_s : saved_as) (how_l : loaded_as) (a : ndarray) :
  undone_by how_s how_l ->
  saved_value hp self fit_func how_s = Ok a ->
  exists v, loaded_value how_l a = Ok v.
Proof.
  intros Hun Ha. destruct how_s, how_l; try contradiction; simpl in *.
  - eauto.
  - apply rbind_ok in Ha as (v0 & _ & Ha). apply rbind_ok in Ha as (x & _ & Ha).
    injection Ha as <-. simpl. eauto.
  - injection Ha as <-. simpl. eauto.
Qed.

(** What comes back for an attribute is the content it had. *)
Lemma saved_value_round_trip (hp : heap) (self : object) (fit_func name : string)
    (how_s : saved_as) (how_l : loaded_as) (a v : ndarray) :
  saved_from how_s = Some name ->
  undone_by how_s how_l ->
  saved_value hp self fit_func how_s = Ok a ->
  loaded_value how_l a = Ok v ->
  content hp self name = Some v.
Proof.
  intros Hname Hun Ha Hv. unfold content.
  destruct how_s as [n | n |], how_l; try contradiction; try discriminate;
    injection Hname as ->; cbn [saved_value] in Ha.
  - apply rbind_ok in Ha as (v0 & Hattr & Ha).
    unfold getattr in Hattr. destruct (self !! name); [| discriminate].
    injection Hattr as ->. rewrite Ha. simpl in Hv. congruence.
  - apply rbind_ok in Ha as (v0 & Hattr & Ha). apply rbind_ok in Ha as (x & Hx & Ha).
    unfold getattr in Hattr. destruct (self !! name); [| discriminate].
    injection Hattr as ->. injection Ha as <-. rewrite Hx. simpl in Hv. congruence.
Qed.

End RoundTrip.

Section RoundTripTheorem.

Import Persistence.

Lemma save_inv (fs fs' : filesystem) (hp : heap) (self : object) (filename : string) :
  endswith filename ".npz" = true ->
  save fs hp self filename = Ok fs' ->
  exists fit_func arrays,
    fit_func_name self = Ok fit_func
    /\ build_archive hp self fit_func save_plan = Ok arrays
    /\ files fs' !! filename = Some arrays.
Proof.
  intros Hext. unfold save.
  destruct (negb (isdir fs (dirname filename))); [discriminate |].
  destruct (fit_func_name self) as [fit_func |] eqn:Hfn; cbn [rbind]; [| discriminate].
  destruct (build_archive hp self fit_func save_plan) as [arrays |] eqn:Hb;
    [| discriminate].
  intros [= <-]. exists fit_func, arrays.
  split; [reflexivity |]. split; [exact Hb |].
  unfold np_savez_compressed. rewrite Hext. simpl. apply lookup_insert_eq.
Qed.

(** The archive that [save] builds holds under [fit_axis] the content of
    that attribute: when it is an object array, a plan of [load] that reads
    it is stopped where pickles are not allowed. *)
Lemma load_saved_archive_refused (hp : heap) (self other : object) (fit_func : string)
    (arrays : archive) (plan : list (string * string * loaded_as)) (a : ndarray) :
  (forall e, e ∈ plan -> e ∈ load_plan) ->
  ("fit_axis", "fit_axis", Copy)%string ∈ plan ->
  build_archive hp self fit_func save_plan = Ok arrays ->
  content hp self "fit_axis" = Some a -> has_object a = true ->
  load_all false arrays (other, hp) plan = Raise ValueError.
Proof.
  intros Hsub Hin Hbuild Hc Ha.
  pose proof (build_archive_spec hp self fit_func save_plan arrays
                save_plan_keys_NoDup Hbuild) as Hsaved.
  apply load_all_refuses.
  - intros attr key how Hin'.
    destruct (plans_agree attr key how (Hsub _ Hin')) as (how_s & Hin_s & Hun & _).
    destruct (Hsaved key how_s Hin_s) as (a' & Ha' & Hkey).
    destruct (saved_value_loads _ _ _ _ _ _ Hun Ha') as [v Hv].
    exists a', v. split; assumption.
  - destruct (Hsaved "fit_axis"%string (Attribute "fit_axis")) as (a' & Ha' & Hkey);
      [unfold save_plan; repeat constructor |].
    exists "fit_axis"%string, "fit_axis"%string, Copy, a'.
    split; [exact Hin |]. split; [exact Hkey |].
    assert (content hp self "fit_axis" = Some a') as Hc'.
    { apply (saved_value_round_trip hp self fit_func "fit_axis" (Attribute "fit_axis")
               Copy a' a'); [reflexivity | exact I | exact Ha' | reflexivity]. }
    rewrite Hc in Hc'. injection Hc' as <-. exact Ha.
Qed.

(** C3, as the code has it. Where [np.load] reads the object arrays of the
    archive (its default up to numpy 1.16.2), a store saved to a path ending
    in [.npz] (the name under which [np.savez_compressed] writes) and loaded
    again from that path comes back with the content of [data],
    [bin_centers], [bin_edges], [bin_width], [errors], [underflow],
    [overflow], [fit_result], [fit_chi2_ndof], [fit_axis], the labels and
    [fit_result_label] equal to the originals, and with the name of the fit
    function in [fit_function_name] ([None] when there was none), provided
    that name is not the sentinel ["NoneType"]; every array of the loaded
    store is new storage, so that writing into the arrays of one store
    leaves the other as it is. Where [np.load] refuses pickles (its default
    since numpy 1.16.3), loading the saved file raises the exception wrapping
    [ValueError] as soon as [fit_axis] is an object array, which it is in
    every store: the constructor sets it to [None] and nothing assigns it. *)
Theorem save_load_round_trip
    (fs fs' : filesystem) (hp : heap) (self : object) (filename : string) :
  endswith filename ".npz" = true ->
  save fs hp self filename = Ok fs' ->
  (forall f, self !! "fit_function"%string = Some (PFunc f) ->
             fn_name f <> "NoneType"%string) ->
  (forall a, content hp self "fit_axis" = Some a -> has_object a = true ->
             from_file false fs' hp filename = Raise (WrappedException ValueError))
  /\ exists (self' : object) (hp' : heap),
    from_file true fs' hp filename = Ok (self', hp')
    /\ plan_attrs load_plan
       = ["data"; "bin_centers"; "bin_edges"; "bin_width"; "errors"; "underflow";
          "overflow"; "fit_result"; "fit_function_name"; "fit_chi2_ndof"; "fit_axis";
          "xlabel"; "ylabel"; "label"; "fit_result_label"]%string
    /\ (forall name, name ∈ plan_attrs load_plan ->
          name <> "fit_function_name"%string ->
          is_Some (content hp self name)
          /\ content hp' self' name = content hp self name)
    /\ (forall f, self !! "fit_function"%string = Some (PFunc f) ->
          content hp' self' "fit_function_name" = Some (Leaf (CS (fn_name f))))
    /\ (self !! "fit_function"%string = Some PNone ->
          content hp' self' "fit_function_name" = Some (Leaf CNone))
    /\ (forall name l, self' !! name = Some (PRef l) -> l ∉ dom hp)
    /\ hp ⊆ hp'
    /\ (forall name l a, l ∈ dom hp ->
          content (<[l := a]> hp') self' name = content hp' self' name)
    /\ (forall name name' l a, self' !! name' = Some (PRef l) ->
          is_Some (content hp self name) ->
          content (<[l := a]> hp') self name = content hp self name).
Proof.
  intros Hext Hsave Hname.
  destruct (save_inv _ _ _ _ _ Hext Hsave) as (fit_func & arrays & Hfn & Hbuild & Hfile).
  pose proof (build_archive_spec hp self fit_func save_plan arrays
                save_plan_keys_NoDup Hbuild) as Hsaved.
  split.
  { intros a Hc Ha. unfold from_file, load, isfile. rewrite Hfile.
    rewrite bool_decide_eq_true_2 by eauto. cbn [negb rbind].
    rewrite (load_saved_archive_refused hp self ∅ fit_func arrays load_plan a);
      [reflexivity | auto | unfold load_plan; repeat constructor | exact Hbuild
      | exact Hc | exact Ha]. }
  assert (forall attr key how, (attr, key, how) ∈ load_plan ->
            exists a v, arrays !! key = Some a /\ has_object a && negb true = false
                        /\ loaded_value how a = Ok v) as Hloadable.
  { intros attr key how Hin.
    destruct (plans_agree attr key how Hin) as (how_s & Hin_s & Hun & _).
    destruct (Hsaved key how_s Hin_s) as (a & Ha & Hkey).
    destruct (saved_value_loads _ _ _ _ _ _ Hun Ha) as [v Hv].
    exists a, v. split; [exact Hkey |]. split; [apply andb_false_r | exact Hv]. }
  destruct (load_all_ok true arrays load_plan (∅, hp)
              (fun attr key how Hin => Hloadable attr key how Hin)) as [[self' hp'] Hload].
  destruct (load_all_spec true arrays load_plan ∅ self' hp hp' load_plan_attrs_NoDup Hload)
    as (Hsub & Hframe & Hplan).
  assert (forall name l, self' !! name = Some (PRef l) -> l ∉ dom hp) as Hfresh.
  { intros name l Hl.
    destruct (decide (name ∈ plan_attrs load_plan)) as [Hin | Hnotin].
    - apply list_elem_of_fmap in Hin as ([[attr key] how] & -> & Hin).
      destruct (Hplan _ _ _ Hin) as (_ & _ & _ & _ & _ & Hf). now apply Hf.
    - rewrite (Hframe name Hnotin) in Hl. rewrite lookup_empty in Hl. discriminate. }
  exists self', hp'.
  split; [| split; [reflexivity |
            split; [| split; [| split; [| split; [exact Hfresh |
            split; [exact Hsub | split]]]]]]].
  - unfold from_file, load, isfile. rewrite Hfile.
    rewrite bool_decide_eq_true_2 by eauto. cbn [negb rbind]. now rewrite Hload.
  - intros name Hin Hne.
    apply list_elem_of_fmap in Hin as ([[attr key] how] & -> & Hin). simpl in *.
    destruct (plans_agree attr key how Hin) as (how_s & Hin_s & Hun & [Hfrom | [_ ->]]);
      [| contradiction].
    destruct (Hsaved key how_s Hin_s) as (a & Ha & Hkey).
    destruct (Hplan _ _ _ Hin) as (a' & v & Hkey' & Hv & Hc & _).
    rewrite Hkey in Hkey'. injection Hkey' as <-.
    rewrite (saved_value_round_trip _ _ _ _ _ _ _ _ Hfrom Hun Ha Hv).
    split; [eauto | exact Hc].
  - intros f Hf.
    assert (("fit_function_name", "fit_function_name", FuncNameOrNone)%string ∈ load_plan)
      as Hin by (unfold load_plan; repeat constructor).
    destruct (Hplan _ _ _ Hin) as (a & v & Hkey & Hv & Hc & _).
    destruct (Hsaved "fit_function_name"%string FitFuncName) as (a' & Ha' & Hkey');
      [unfold save_plan; repeat constructor |].
    rewrite Hkey in Hkey'. injection Hkey' as <-.
    unfold fit_func_name, getattr in Hfn. rewrite Hf in Hfn. injection Hfn as <-.
    injection Ha' as <-. simpl in Hv.
    destruct (String.eqb_spec (fn_name f) "NoneType") as [E | _];
      [now apply Hname in E |].
    injection Hv as <-. exact Hc.
  - intros Hnone.
    assert (("fit_function_name", "fit_function_name", FuncNameOrNone)%string ∈ load_plan)
      as Hin by (unfold load_plan; repeat constructor).
    destruct (Hplan _ _ _ Hin) as (a & v & Hkey & Hv & Hc & _).
    destruct (Hsaved "fit_function_name"%string FitFuncName) as (a' & Ha' & Hkey');
      [unfold save_plan; repeat constructor |].
    rewrite Hkey in Hkey'. injection Hkey' as <-.
    unfold fit_func_name, getattr in Hfn. rewrite Hnone in Hfn. injection Hfn as <-.
    injection Ha' as <-. simpl in Hv. injection Hv as <-. exact Hc.
  - intros name l a Hl. unfold content.
    destruct (self' !! name) as [[| | | | l'] |] eqn:Hv; try reflexivity.
    cbn [as_array]. rewrite lookup_insert_ne; [reflexivity |].
    intros <-. now apply (Hfresh name l).
  - intros name name' l a Hl [b Hb]. rewrite Hb.
    unfold content in *.
    destruct (self !! name) as [[| | | | l0] |]; try exact Hb.
    cbn [as_array] in *.
    destruct (hp !! l0) as [c |] eqn:Hl0; [| discriminate].
    rewrite lookup_insert_ne.
    + now rewrite (lookup_weaken _ _ _ _ Hl0 Hsub).
    + intros <-. apply (Hfresh name' l Hl). apply elem_of_dom. eauto.
Qed.

(** The sentinel: a fit function that is itself called [NoneType] comes
    back as [None]. *)
Lemma sentinel_comes_back_none (allow_pickle : bool) (fs fs' : filesystem)
    (hp hp' : heap) (self self' : object) (filename : string) (f : pyfunc) :
  endswith filename ".npz" = true ->
  save fs hp self filename = Ok fs' ->
  self !! "fit_function"%string = Some (PFunc f) ->
  fn_name f = "NoneType"%string ->
  from_file allow_pickle fs' hp filename = Ok (self', hp') ->
  content hp' self' "fit_function_name" = Some (Leaf CNone).
Proof.
  intros Hext Hsave Hf Hn Hload.
  destruct (save_inv _ _ _ _ _ Hext Hsave) as (fit_func & arrays & Hfn & Hbuild & Hfile).
  pose proof (build_archive_spec hp self fit_func save_plan arrays
                save_plan_keys_NoDup Hbuild) as Hsaved.
  unfold from_file, load, isfile in Hload. rewrite Hfile in Hload.
  rewrite bool_decide_eq_true_2 in Hload by eauto. cbn [negb rbind] in Hload.
  destruct (load_all allow_pickle arrays (∅, hp) load_plan) as [[s1 h1] |] eqn:Hall;
    [| discriminate].
  injection Hload as -> ->.
  destruct (load_all_spec allow_pickle arrays load_plan ∅ self' hp hp'
              load_plan_attrs_NoDup Hall) as (_ & _ & Hplan).
  destruct (Hplan "fit_function_name" "fit_function_name" FuncNameOrNone)%string
    as (a & v & Hkey & Hv & Hc & _); [unfold load_plan; repeat constructor |].
  destruct (Hsaved "fit_function_name"%string FitFuncName) as (a' & Ha' & Hkey');
    [unfold save_plan; repeat constructor |].
  rewrite Hkey in Hkey'. injection Hkey' as <-.
  unfold fit_func_name, getattr in Hfn. rewrite Hf in Hfn. injection Hfn as <-.
  injection Ha' as <-. rewrite Hn in Hv. simpl in Hv. injection Hv as <-. exact Hc.
Qed.

End RoundTripTheorem.

Lemma save_load_round_trip_witness :
  exists fs' self' hp',
    Persistence.save example_fs example_heap (example_object "model_f") "/out/h.npz"
    = Ok fs'
    /\ Persistence.from_file true fs' example_heap "/out/h.npz" = Ok (self', hp')
    /\ Persistence.content hp' self' "data"
       = Persistence.content example_heap (example_object "model_f") "data"
    /\ Persistence.content hp' self' "fit_function_name"
       = Some (Persistence.Leaf (Persistence.CS "model_f"))
    /\ Persistence.from_file false fs' example_heap "/out/h.npz"
       = Raise (WrappedException ValueError).
Proof.
  assert (exists fs',
             Persistence.save example_fs example_heap (example_object "model_f")
                              "/out/h.npz" = Ok fs') as [fs' Hsave]
    by (eexists; vm_compute; reflexivity).
  destruct (save_load_round_trip example_fs fs' example_heap (example_object "model_f")
              "/out/h.npz") as (Hrefused & self' & hp' & Hload & _ & Hsame & Hname & _).
  - reflexivity.
  - exact Hsave.
  - intros f Hf. vm_compute in Hf. injection Hf as <-. discriminate.
  - exists fs', self', hp'. split; [exact Hsave |]. split; [exact Hload |].
    split; [| split].
    + apply Hsame; [| discriminate]. unfold plan_attrs, Persistence.load_plan. simpl.
      repeat constructor.
    + apply (Hname {| fn_name := "model_f"; fn_call := fun p x _ => Ok p |}).
      reflexivity.
    + apply (Hrefused (Persistence.Leaf Persistence.CNone)); reflexivity.
Defined.

(** C3, as stated: a fit function that is itself called [NoneType] is
    saved under the sentinel and comes back as [None]. *)
Lemma fit_function_name_round_trip_counterexample : ~ fit_function_name_round_trip.
Proof.
  intros Hclaim.
  destruct (Persistence.save example_fs example_heap (example_object "NoneType")
                             "/out/h.npz") as [fs' |] eqn:Hsave;
    [| vm_compute in Hsave; discriminate Hsave].
  destruct (Hclaim example_fs fs' example_heap (example_object "NoneType") "/out/h.npz"
                   {| fn_name := "NoneType"; fn_call := fun p x _ => Ok p |}
                   eq_refl Hsave eq_refl) as (self' & hp' & Hload & Hname).
  rewrite (sentinel_comes_back_none true example_fs fs' example_heap hp'
             (example_object "NoneType") self' "/out/h.npz"
             {| fn_name := "NoneType"; fn_call := fun p x _ => Ok p |}
             eq_refl Hsave eq_refl eq_refl Hload) in Hname.
  discriminate Hname.
Qed.

(** * Properties of more of the code *)

(** ** Totals of the bins *)

Lemma Qsum_insert (row : list Q) (b : nat) (c : Q) :
  row !! b = Some c -> (Qsum (<[b := (c + 1)%Q]> row) == Qsum row + 1)%Q.
Proof.
  revert b. induction row as [| q row IH]; intros [| b] Hb; try discriminate.
  - simpl in Hb. injection Hb as ->.
    change ((c + 1) + Qsum row == (c + Qsum row) + 1)%Q. ring.
  - simpl in Hb.
    change (q + Qsum (<[b := (c + 1)%Q]> row) == (q + Qsum row) + 1)%Q.
    rewrite (IH b Hb). ring.
Qed.

Lemma incr_slots_inv (bins : list nat) : forall rows rows' : list (list Q),
  incr_slots rows bins = Ok rows' ->
  length rows' = length rows
  /\ (forall s b, bins !! s = Some b ->
        exists row c, rows !! s = Some row /\ row !! b = Some c
                      /\ rows' !! s = Some (<[b := (c + 1)%Q]> row))
  /\ (forall s, bins !! s = None -> rows' !! s = rows !! s).
Proof.
  induction bins as [| b0 bins IH]; intros rows rows' H.
  - destruct rows; simpl in H; injection H as <-;
      (split; [reflexivity |]; split; [intros; discriminate | reflexivity]).
  - destruct rows as [| row rows]; [discriminate |].
    simpl in H. apply rbind_ok in H as (row' & Hrow & H).
    apply rbind_ok in H as (rest & Hrest & H). injection H as <-.
    unfold incr_bin in Hrow. destruct (row !! b0) as [c |] eqn:Hc; [| discriminate].
    injection Hrow as <-.
    destruct (IH _ _ Hrest) as (Hl & Hhit & Hmiss).
    split; [simpl; now rewrite Hl |]. split.
    + intros [| s] b Hs; simpl in Hs.
      * injection Hs as <-. exists row, c. repeat split; assumption.
      * apply (Hhit s b Hs).
    + intros [| s] Hs; simpl in Hs; [discriminate |]. apply (Hmiss s Hs).
Qed.

(** The row of the slot of a sample after [fill]: one more count in the
    bin of the sample. *)
Lemma fill_nd_sample_row (slot_shape vshape : list nat) (h : Histogram)
    (value : list Q) (e0 : Q) (p : nat) (v : Q) :
  bin_edges h !! 0%nat = Some e0 ->
  length (data h) = shape_size slot_shape ->
  length value = shape_size vshape ->
  Forall2 le vshape slot_shape ->
  vshape <> [] ->
  last vshape <> Some 0%nat ->
  (0 < n_bins h)%nat ->
  Forall (fun row => length row = n_bins h) (data h) ->
  value !! p = Some v ->
  exists h' row c,
    fill_nd slot_shape h vshape value = Ok h'
    /\ data h !! ravel slot_shape (unravel vshape p) = Some row
    /\ row !! Z.to_nat (hist_index h e0 v) = Some c
    /\ data h' !! ravel slot_shape (unravel vshape p)
       = Some (<[Z.to_nat (hist_index h e0 v) := (c + 1)%Q]> row)
    /\ length (data h') = length (data h)
    /\ Forall (fun row => length row = n_bins h) (data h')
    /\ bin_edges h' = bin_edges h /\ underflow h' = underflow h
    /\ overflow h' = overflow h.
Proof.
  intros He0 Hdata Hvalue Hfits Hrank Hlast HN Hrect Hv.
  pose proof (fill_nd_full_rank slot_shape vshape h value e0 He0 Hvalue Hfits Hrank
                Hlast HN) as Hfill.
  destruct (sample_in_bounds slot_shape vshape h value e0 He0 Hvalue Hfits Hrank Hlast HN
              p v Hv) as [Hidx Hb].
  pose proof (ravel_lt _ _ Hidx) as Hslot. rewrite <- Hdata in Hslot.
  destruct (lookup_lt_is_Some_2 _ _ Hslot) as [row Hrow].
  assert (length row = n_bins h) as Hlen
    by (rewrite Forall_lookup in Hrect; exact (Hrect _ _ Hrow)).
  destruct (lookup_lt_is_Some_2 row (Z.to_nat (hist_index h e0 v))) as [c Hc]; [lia |].
  eexists _, row, c. split; [exact Hfill |]. split; [exact Hrow |]. split; [exact Hc |].
  cbn [data set_data bin_edges underflow overflow].
  split; [| split; [apply length_imap | split; [| repeat split]]].
  - rewrite list_lookup_imap, Hrow. cbn [fmap option_fmap option_map]. f_equal.
    rewrite <- (imap_bump_insert row _ c Hc). apply imap_ext. intros b c' _.
    pose proof (hit_sample slot_shape vshape h value e0 He0 Hvalue Hfits Hrank Hlast HN
                  p v b Hv) as Hs.
    unfold slot_of in Hs. now rewrite Hs.
  - apply Forall_lookup. intros s r Hr. rewrite list_lookup_imap in Hr.
    destruct (data h !! s) as [r0 |] eqn:Hr0; [| discriminate].
    injection Hr as <-. rewrite length_imap.
    rewrite Forall_lookup in Hrect. exact (Hrect _ _ Hr0).
Qed.

(** X1. Every sample of a value with one axis per slot axis of the store
    adds exactly one count to its slot, whether or not it falls on the axis:
    [fill] returns, the total of the slot grows by one and its number of
    bins stays. *)
Theorem fill_adds_one_count (slot_shape vshape : list nat) (h : Histogram)
    (value : list Q) (e0 : Q) (p : nat) (v : Q) :
  bin_edges h !! 0%nat = Some e0 ->
  length (data h) = shape_size slot_shape ->
  length value = shape_size vshape ->
  Forall2 le vshape slot_shape ->
  vshape <> [] ->
  last vshape <> Some 0%nat ->
  (0 < n_bins h)%nat ->
  Forall (fun row => length row = n_bins h) (data h) ->
  value !! p = Some v ->
  exists h' row row',
    fill_nd slot_shape h vshape value = Ok h'
    /\ data h !! ravel slot_shape (unravel vshape p) = Some row
    /\ data h' !! ravel slot_shape (unravel vshape p) = Some row'
    /\ length row' = length row
    /\ (Qsum row' == Qsum row + 1)%Q.
Proof.
  intros He0 Hdata Hvalue Hfits Hrank Hlast HN Hrect Hv.
  destruct (fill_nd_sample_row slot_shape vshape h value e0 p v He0 Hdata Hvalue Hfits
              Hrank Hlast HN Hrect Hv) as (h' & row & c & Hfill & Hrow & Hc & Hrow' & _).
  exists h', row, (<[Z.to_nat (hist_index h e0 v) := (c + 1)%Q]> row).
  split; [exact Hfill |]. split; [exact Hrow |]. split; [exact Hrow' |].
  split; [apply length_insert |]. now apply Qsum_insert.
Qed.

Lemma fill_adds_one_count_witness :
  exists h' row row',
    fill_nd [1%nat] store_0_10 [1%nat] [250%Q] = Ok h'
    /\ data store_0_10 !! 0%nat = Some row
    /\ data h' !! 0%nat = Some row'
    /\ length row' = length row
    /\ (Qsum row' == Qsum row + 1)%Q.
Proof.
  apply (fill_adds_one_count [1%nat] [1%nat] store_0_10 [250%Q] (-1 # 2)%Q 0 250%Q).
  - reflexivity.
  - reflexivity.
  - reflexivity.
  - repeat constructor.
  - discriminate.
  - discriminate.
  - vm_compute. lia.
  - repeat constructor.
  - reflexivity.
Defined.

(** ** The order of the calls of [fill] *)

Lemma incr_bin_comm (row row1 row12 : list Q) (x1 x2 : nat) :
  incr_bin row x1 = Ok row1 -> incr_bin row1 x2 = Ok row12 ->
  exists row2, incr_bin row x2 = Ok row2 /\ incr_bin row2 x1 = Ok row12.
Proof.
  unfold incr_bin. intros H1 H2.
  destruct (row !! x1) as [c1 |] eqn:Hc1; [| discriminate]. injection H1 as <-.
  destruct (decide (x1 = x2)) as [<- | Hne].
  - rewrite list_lookup_insert_eq in H2 by (eapply lookup_lt_Some; eauto).
    injection H2 as <-. exists (<[x1 := (c1 + 1)%Q]> row).
    split; [now rewrite Hc1 |].
    rewrite list_lookup_insert_eq by (eapply lookup_lt_Some; eauto). reflexivity.
  - rewrite list_lookup_insert_ne in H2 by exact Hne.
    destruct (row !! x2) as [c2 |] eqn:Hc2; [| discriminate]. injection H2 as <-.
    exists (<[x2 := (c2 + 1)%Q]> row). split; [reflexivity |].
    rewrite list_lookup_insert_ne by congruence. rewrite Hc1.
    now rewrite list_insert_insert_ne by congruence.
Qed.

Lemma incr_slots_comm (rows : list (list Q)) : forall (b1 b2 : list nat) r1 r12,
  incr_slots rows b1 = Ok r1 -> incr_slots r1 b2 = Ok r12 ->
  exists r2, incr_slots rows b2 = Ok r2 /\ incr_slots r2 b1 = Ok r12.
Proof.
  induction rows as [| row rows IH]; intros b1 b2 r1 r12 H1 H2.
  - destruct b1; [| discriminate]. injection H1 as <-.
    destruct b2; [| discriminate]. injection H2 as <-.
    exists []. split; reflexivity.
  - destruct b1 as [| x1 b1].
    { injection H1 as <-. exists r12. split; [exact H2 |]. now destruct r12. }
    destruct b2 as [| x2 b2].
    { assert (r12 = r1) as -> by (destruct r1; simpl in H2; congruence).
      exists (row :: rows). split; [reflexivity | exact H1]. }
    simpl in H1. apply rbind_ok in H1 as (row1 & Hrow1 & H1).
    apply rbind_ok in H1 as (rest1 & Hrest1 & H1). injection H1 as <-.
    simpl in H2. apply rbind_ok in H2 as (row12 & Hrow12 & H2).
    apply rbind_ok in H2 as (rest12 & Hrest12 & H2). injection H2 as <-.
    destruct (incr_bin_comm _ _ _ _ _ Hrow1 Hrow12) as (row2 & Hrow2 & Hrow21).
    destruct (IH _ _ _ _ Hrest1 Hrest12) as (rest2 & Hrest2 & Hrest21).
    exists (row2 :: rest2). simpl. rewrite Hrow2, Hrest2. simpl.
    rewrite Hrow21, Hrest21. split; reflexivity.
Qed.

Lemma incr_slots_n_bins (h : Histogram) (bins : list nat) (d : list (list Q)) :
  incr_slots (data h) bins = Ok d -> bins <> [] ->
  n_bins (set_data h d) = n_bins h.
Proof.
  intros Hd Hne. unfold n_bins. simpl.
  destruct bins as [| b bins]; [contradiction |].
  destruct (data h) as [| row rows]; [discriminate |].
  simpl in Hd. apply rbind_ok in Hd as (row' & Hrow & Hd).
  apply rbind_ok in Hd as (rest & _ & Hd). injection Hd as <-.
  unfold incr_bin in Hrow. destruct (row !! b); [| discriminate].
  injection Hrow as <-. apply length_insert.
Qed.

Lemma fill_inv (h h' : Histogram) (value : list Q) :
  fill h value = Ok h' ->
  value <> []
  /\ exists e0 d,
       bin_edges h !! 0%nat = Some e0
       /\ incr_slots (data h) (map (fun v => Z.to_nat (hist_index h e0 v)) value) = Ok d
       /\ h' = set_data h d.
Proof.
  intros H. split; [| now apply fill_data].
  intros ->. unfold fill in H. destruct (get (bin_edges h) 0); discriminate.
Qed.

Lemma fill_from_slots (h : Histogram) (value : list Q) (e0 : Q) (d : list (list Q)) :
  bin_edges h !! 0%nat = Some e0 -> value <> [] ->
  incr_slots (data h) (map (fun v => Z.to_nat (hist_index h e0 v)) value) = Ok d ->
  fill h value = Ok (set_data h d).
Proof.
  intros He0 Hne Hd. unfold fill. apply get_ok in He0. rewrite He0. cbn [rbind].
  destruct value as [| v0 value]; [contradiction |].
  unfold get at 1. cbn [lookup list_lookup rbind]. rewrite Hd. reflexivity.
Qed.

Lemma incr_slots_too_many (bins : list nat) : forall rows : list (list Q),
  (length rows < length bins)%nat -> incr_slots rows bins = Raise IndexError.
Proof.
  induction bins as [| b bins IH]; intros rows Hlen; [simpl in Hlen; lia |].
  destruct rows as [| row rows]; [reflexivity |]. simpl.
  unfold incr_bin. destruct (row !! b); [| reflexivity]. cbn [rbind].
  rewrite IH by (simpl in Hlen; lia). reflexivity.
Qed.

(** On a store with one slot axis, for a one-dimensional [value], the
    general [fill_nd] is [fill]. *)
Lemma fill_nd_one_axis (h : Histogram) (value : list Q) :
  Forall (fun row => length row = n_bins h) (data h) ->
  fill_nd [length (data h)] h [length value] value = fill h value.
Proof.
  intros Hrect.
  destruct (bin_edges h !! 0%nat) as [e0 |] eqn:He0; cycle 1.
  { unfold fill_nd, fill, get. now rewrite He0. }
  destruct value as [| v0 value'] eqn:Hvalue.
  { unfold fill_nd, fill, get. rewrite He0. reflexivity. }
  rewrite <- Hvalue. assert (value <> []) as Hne by (rewrite Hvalue; discriminate).
  assert (0 < length value)%nat as Hk by (rewrite Hvalue; simpl; lia).
  clear v0 value' Hvalue.
  set (bins := map (fun v => Z.to_nat (hist_index h e0 v)) value).
  destruct (Nat.eq_dec (n_bins h) 0%nat) as [HN0 | HN0].
  { transitivity (@Raise Histogram IndexError).
    - unfold fill_nd, get. rewrite He0. cbn [rbind].
      rewrite bool_decide_eq_false_2
        by (simpl; intros [= E]; lia).
      now rewrite bool_decide_eq_true_2.
    - destruct (lookup_lt_is_Some_2 value 0 Hk) as [v0 Hv0].
      unfold fill, get. rewrite He0, Hv0. cbn [rbind]. fold bins.
      destruct (lookup_lt_is_Some_2 bins 0) as [b0 Hb0];
        [unfold bins; now rewrite length_map |].
      destruct bins as [| b bins']; [discriminate |].
      destruct (data h) as [| row rows] eqn:Hd; [reflexivity |].
      apply Forall_cons in Hrect as [Hrow _]. cbn [incr_slots]. unfold incr_bin.
      rewrite lookup_ge_None_2 by lia. reflexivity. }
  assert (0 < n_bins h)%nat as HN by lia.
  assert (last [length value] <> Some 0%nat) as Hlast by (simpl; intros [= E]; lia).
  destruct (Nat.le_gt_cases (length value) (length (data h))) as [Hle | Hgt].
  - (* the samples fit *)
    rewrite (fill_nd_full_rank [length (data h)] [length value] h value e0);
      [ | exact He0 | simpl; lia | repeat constructor; exact Hle | discriminate
        | exact Hlast | exact HN ].
    destruct (incr_slots_ok bins (data h)) as (d & Hd & Hlen & _).
    { unfold bins. rewrite length_map. exact Hle. }
    { intros s row b Hrow Hb. unfold bins in Hb. rewrite list_lookup_fmap in Hb.
      destruct (value !! s) as [v |]; [| discriminate]. injection Hb as <-.
      rewrite Forall_lookup in Hrect. rewrite (Hrect _ _ Hrow).
      pose proof (hist_index_range h e0 v HN). lia. }
    rewrite (fill_from_slots h value e0 d He0 Hne Hd). do 2 f_equal.
    destruct (incr_slots_inv _ _ _ Hd) as (_ & Hhit & Hmiss).
    apply list_eq. intros s. rewrite list_lookup_imap.
    destruct (value !! s) as [v |] eqn:Hv.
    + destruct (Hhit s (Z.to_nat (hist_index h e0 v))) as (row & c & Hrow & Hc & ->).
      { unfold bins. now rewrite list_lookup_fmap, Hv. }
      rewrite Hrow. cbn [fmap option_fmap option_map]. f_equal.
      rewrite <- (imap_bump_insert row _ c Hc).
      apply imap_ext. intros b c' _.
      pose proof (hit_sample [length (data h)] [length value] h value e0) as Hs.
      specialize (Hs He0 ltac:(simpl; lia) ltac:(repeat constructor; exact Hle)
                     ltac:(discriminate) Hlast HN s v b Hv).
      unfold slot_of in Hs. rewrite ravel_one_axis in Hs. cbn [length] in Hs |- *.
      now rewrite Hs.
    + rewrite (Hmiss s) by (unfold bins; now rewrite list_lookup_fmap, Hv).
      destruct (data h !! s) as [row |] eqn:Hrow; cbn [fmap option_fmap option_map];
        [| reflexivity].
      f_equal. apply imap_id_ext. intros b c _.
      pose proof (hit_other_slot [length (data h)] [length value] h value e0) as Hs.
      specialize (Hs He0 ltac:(simpl; lia) ltac:(repeat constructor; exact Hle)
                     ltac:(discriminate) Hlast HN s b).
      cbn [length] in Hs |- *. rewrite Hs; [reflexivity | |].
      * simpl. apply lookup_lt_Some in Hrow. lia.
      * intros p Hp. unfold slot_of. rewrite ravel_one_axis. intros ->.
        apply lookup_ge_None_1 in Hv. lia.
  - (* more samples than slots *)
    transitivity (@Raise Histogram IndexError).
    + rewrite (fill_nd_unfold _ _ _ _ e0 He0) by (try discriminate; assumption).
      unfold np_add_one_at. cbn [length]. fold bins.
      destruct (Nat.ltb_spec 2 2); [lia |].
      assert (forallb (in_bounds ([length (data h)] ++ [n_bins h]))
                (imap (fun p b => unravel [length value] p ++ [b]) bins) = false) as ->;
        [| reflexivity].
      apply not_true_is_false. intros Hall. rewrite forallb_forall in Hall.
      destruct (lookup_lt_is_Some_2 value (length (data h)) Hgt) as [v Hv].
      assert (In (unravel [length value] (length (data h))
                  ++ [Z.to_nat (hist_index h e0 v)])
                 (imap (fun p b => unravel [length value] p ++ [b]) bins)) as Hin.
      { apply list_elem_of_In, (list_elem_of_lookup_2 _ (length (data h))).
        rewrite list_lookup_imap. unfold bins. rewrite list_lookup_fmap, Hv.
        reflexivity. }
      specialize (Hall _ Hin). unfold in_bounds in Hall.
      cbn [unravel shape_size foldr app zip zip_with forallb fst snd] in Hall.
      rewrite Nat.div_1_r, Nat.ltb_irrefl in Hall. discriminate Hall.
    + destruct (lookup_lt_is_Some_2 value 0 Hk) as [v0 Hv0].
      unfold fill, get. rewrite He0, Hv0. cbn [rbind]. fold bins.
      rewrite incr_slots_too_many; [reflexivity |].
      unfold bins. rewrite length_map. exact Hgt.
Qed.

Lemma hist_index_set_data (h : Histogram) (d : list (list Q)) (e0 v : Q) :
  n_bins (set_data h d) = n_bins h ->
  hist_index (set_data h d) e0 v = hist_index h e0 v.
Proof. intros Hn. unfold hist_index. rewrite Hn. reflexivity. Qed.

(** X2. Two calls of [fill] can be exchanged: filling [value1] and then
    [value2] leaves the store that filling [value2] and then [value1]
    leaves. *)
Theorem fill_commutes (h h1 h12 : Histogram) (value1 value2 : list Q) :
  fill h value1 = Ok h1 ->
  fill h1 value2 = Ok h12 ->
  exists h2, fill h value2 = Ok h2 /\ fill h2 value1 = Ok h12.
Proof.
  intros H1 H2.
  apply fill_inv in H1 as (Hne1 & e0 & d1 & He0 & Hd1 & ->).
  apply fill_inv in H2 as (Hne2 & e0' & d12 & He0' & Hd12 & ->).
  simpl in He0'. rewrite He0 in He0'. injection He0' as <-.
  assert (n_bins (set_data h d1) = n_bins h) as Hn1.
  { eapply incr_slots_n_bins; [exact Hd1 |]. now destruct value1. }
  rewrite (map_ext _ (fun v => Z.to_nat (hist_index h e0 v))) in Hd12
    by (intros v; now rewrite hist_index_set_data).
  simpl in Hd12.
  destruct (incr_slots_comm _ _ _ _ _ Hd1 Hd12) as (d2 & Hd2 & Hd21).
  assert (n_bins (set_data h d2) = n_bins h) as Hn2.
  { eapply incr_slots_n_bins; [exact Hd2 |]. now destruct value2. }
  exists (set_data h d2). split; [now apply (fill_from_slots h value2 e0) |].
  change (set_data (set_data h d1) d12) with (set_data (set_data h d2) d12).
  apply (fill_from_slots _ value1 e0); [exact He0 | exact Hne1 |].
  rewrite (map_ext _ (fun v => Z.to_nat (hist_index h e0 v)))
    by (intros v; now rewrite hist_index_set_data).
  exact Hd21.
Qed.

Lemma fill_commutes_witness :
  exists h2,
    fill store_0_10 [7%Q] = Ok h2
    /\ fill h2 [5%Q] = fill (from_ok (fill store_0_10 [5%Q])) [7%Q].
Proof.
  destruct (fill_commutes store_0_10 (from_ok (fill store_0_10 [5%Q]))
              (from_ok (fill (from_ok (fill store_0_10 [5%Q])) [7%Q])) [5%Q] [7%Q])
    as (h2 & H2 & H21).
  - reflexivity.
  - reflexivity.
  - exists h2. split; [exact H2 |]. rewrite H21. reflexivity.
Defined.

(** ** Counting samples *)

Lemma count_if_cons {A} (p : A -> bool) (a : A) (l : list A) :
  count_if p (a :: l) = ((if p a then 1 else 0) + count_if p l)%nat.
Proof.
  unfold count_if. rewrite filter_cons.
  destruct (p a); destruct (decide _); simpl; congruence.
Qed.

Lemma count_if_app {A} (p : A -> bool) (l1 l2 : list A) :
  count_if p (l1 ++ l2) = (count_if p l1 + count_if p l2)%nat.
Proof. unfold count_if. now rewrite filter_app, length_app. Qed.

Lemma count_if_split {A} (p q r : A -> bool) (l : list A) :
  (forall a, r a = p a || q a) -> (forall a, p a && q a = false) ->
  (count_if p l + count_if q l)%nat = count_if r l.
Proof.
  intros Hr Hpq. induction l as [| a l IH]; [reflexivity |].
  rewrite !count_if_cons, <- IH, Hr. specialize (Hpq a).
  destruct (p a), (q a); simpl in *; try discriminate; lia.
Qed.

Lemma bin_counts_cons (x : list Q) (lo hi h2 : Q) (rest : list Q) :
  bin_counts x (lo :: hi :: h2 :: rest)
  = count_if (fun s => Qle_bool lo s && Qlt_bool s hi) x :: bin_counts x (hi :: h2 :: rest).
Proof. reflexivity. Qed.

Lemma bin_counts_two (x : list Q) (lo hi : Q) :
  bin_counts x [lo; hi] = [count_if (fun s => Qle_bool lo s && Qle_bool s hi) x].
Proof. reflexivity. Qed.

Lemma increasing_cons (lo hi : Q) (rest : list Q) :
  increasing (lo :: hi :: rest) = Qle_bool lo hi && increasing (hi :: rest).
Proof. reflexivity. Qed.

Lemma increasing_last (edges : list Q) : forall lo el : Q,
  increasing (lo :: edges) = true -> last (lo :: edges) = Some el -> (lo <= el)%Q.
Proof.
  induction edges as [| hi rest IH]; intros lo el Hinc Hlast.
  - simpl in Hlast. injection Hlast as <-. apply Qle_refl.
  - rewrite increasing_cons in Hinc. apply andb_true_iff in Hinc as [Hle Hinc].
    apply Qle_bool_iff in Hle. apply Qle_trans with hi; [exact Hle |].
    apply IH; [exact Hinc |]. exact Hlast.
Qed.

(** Over increasing edges every sample between the first and the last edge
    is counted in exactly one bin. *)
Lemma bin_counts_sum (x : list Q) (edges : list Q) : forall lo hi el : Q,
  increasing (lo :: hi :: edges) = true ->
  last (lo :: hi :: edges) = Some el ->
  nat_sum (bin_counts x (lo :: hi :: edges))
  = count_if (fun s => Qle_bool lo s && Qle_bool s el) x.
Proof.
  induction edges as [| h2 rest IH]; intros lo hi el Hinc Hlast.
  - simpl in Hlast. injection Hlast as <-. rewrite bin_counts_two. simpl. lia.
  - rewrite bin_counts_cons. rewrite increasing_cons in Hinc.
    apply andb_true_iff in Hinc as [Hle Hinc]. apply Qle_bool_iff in Hle.
    change (nat_sum (?a :: ?l)) with (a + nat_sum l)%nat.
    rewrite (IH hi h2 el Hinc Hlast).
    pose proof (increasing_last _ _ _ Hinc Hlast) as Hhi.
    apply count_if_split; intros s.
    + unfold Qlt_bool.
      destruct (Qle_bool lo s) eqn:E1, (Qle_bool hi s) eqn:E2, (Qle_bool s el) eqn:E3;
        simpl; try reflexivity; exfalso.
      * apply Qle_bool_iff in E1. apply not_true_iff_false in E2, E3.
        apply E3. apply Qle_bool_iff. apply Qle_trans with hi; [| exact Hhi].
        destruct (Qlt_le_dec s hi) as [Hlt | Hge]; [now apply Qlt_le_weak |].
        exfalso. apply E2. now apply Qle_bool_iff.
      * apply Qle_bool_iff in E2. apply not_true_iff_false in E1.
        apply E1. apply Qle_bool_iff. now apply Qle_trans with hi.
    + unfold Qlt_bool.
      destruct (Qle_bool lo s), (Qle_bool hi s), (Qle_bool s el); reflexivity.
Qed.

Lemma bin_counts_app (x1 x2 : list Q) (edges : list Q) :
  bin_counts (x1 ++ x2) edges
  = zip_with Nat.add (bin_counts x1 edges) (bin_counts x2 edges).
Proof.
  induction edges as [| lo [| hi [| h2 rest]] IH]; try reflexivity.
  - rewrite !bin_counts_two. simpl. now rewrite count_if_app.
  - rewrite !bin_counts_cons, IH. simpl. now rewrite count_if_app.
Qed.

Lemma length_bin_counts_pred (x edges : list Q) :
  length (bin_counts x edges) = pred (length edges).
Proof.
  destruct (length_bin_counts x edges) as [E | ->]; [| reflexivity].
  rewrite <- E. reflexivity.
Qed.

(** ** The steps of [fill_with_batch] *)

Lemma mapM_inv {A B} (f : A -> result B) (l : list A) : forall l' : list B,
  mapM f l = Ok l' -> Forall2 (fun a b => f a = Ok b) l l'.
Proof.
  induction l as [| a l IH]; intros l' H.
  - injection H as <-. constructor.
  - simpl in H. apply rbind_ok in H as (b & Hb & H).
    apply rbind_ok in H as (bs & Hbs & H). injection H as <-.
    constructor; [exact Hb | now apply IH].
Qed.

Lemma np_histogram_inv (x edges : list Q) (c : list nat) :
  np_histogram x edges = Ok c -> increasing edges = true /\ c = bin_counts x edges.
Proof.
  unfold np_histogram. destruct (increasing edges); [| discriminate].
  destruct edges; [discriminate |]. intros [= <-]. split; reflexivity.
Qed.

Lemma mapM_histogram_inv (batch : list (list Q)) (edges : list Q) (hist : list (list nat)) :
  mapM (fun x => np_histogram x edges) batch = Ok hist ->
  hist = map (fun x => bin_counts x edges) batch
  /\ (batch <> [] -> increasing edges = true).
Proof.
  intros H. apply mapM_inv in H. split.
  - induction H as [| x c batch hist Hx _ IH]; [reflexivity |].
    apply np_histogram_inv in Hx as [_ ->]. simpl. now rewrite IH.
  - intros Hne. destruct H as [| x c batch hist Hx _]; [contradiction |].
    now apply np_histogram_inv in Hx as [? _].
Qed.

Lemma add1_inv (a : list Q) (b : list nat) (c : list Q) :
  add1 a b = Ok c ->
  length a = length b /\ c = zip_with (fun u v => (u + Qof_nat v)%Q) a b.
Proof.
  unfold add1. destruct (decide _) as [E |]; [| discriminate].
  intros [= <-]. split; [exact E | reflexivity].
Qed.

Lemma add2_inv (a : list (list Q)) : forall (b : list (list nat)) (d : list (list Q)),
  add2 a b = Ok d ->
  Forall2 (fun row cnt => length row = length cnt) a b
  /\ d = zip_with (zip_with (fun u v => (u + Qof_nat v)%Q)) a b.
Proof.
  unfold add2. induction a as [| row a IH]; intros [| cnt b] d H;
    destruct (decide _) as [E |]; try discriminate.
  - injection H as <-. split; [constructor | reflexivity].
  - simpl in H. apply rbind_ok in H as (row' & Hrow & H).
    apply rbind_ok in H as (rest & Hrest & H). injection H as <-.
    apply add1_inv in Hrow as [Hlen ->].
    destruct (IH b rest) as [Hall ->].
    { destruct (decide _) as [| Hne]; [exact Hrest |]. simpl in E. lia. }
    split; [now constructor | reflexivity].
Qed.

Lemma fill_with_batch_inv (h h' : Histogram) (batch : list (list Q)) :
  fill_with_batch h batch = Ok h' ->
  exists e0 e1 : Q,
    bin_edges h !! 0%nat = Some e0
    /\ bin_edges h !! 1%nat = Some e1
    /\ (batch <> [] -> increasing (bin_edges h) = true)
    /\ Forall2 (fun row x => length row = pred (length (bin_edges h))) (data h) batch
    /\ length (underflow h) = length batch
    /\ length (overflow h) = length batch
    /\ h' = _compute_errors
              (set_flows
                 (set_data h (zip_with (zip_with (fun u v => (u + Qof_nat v)%Q)) (data h)
                                       (map (fun x => bin_counts x (bin_edges h)) batch)))
                 (zip_with (fun u v => (u + Qof_nat v)%Q) (underflow h)
                           (map (count_if (fun s => negb (Qgt_bool s e0))) batch))
                 (zip_with (fun u v => (u + Qof_nat v)%Q) (overflow h)
                           (map (count_if (fun s => negb (Qlt_bool s e1))) batch))).
Proof.
  unfold fill_with_batch. intros H.
  apply rbind_ok in H as (hist & Hhist & H).
  apply mapM_histogram_inv in Hhist as [-> Hinc].
  apply rbind_ok in H as (e0 & He0 & H). apply get_ok in He0.
  apply rbind_ok in H as (e1 & He1 & H). apply get_ok in He1.
  apply rbind_ok in H as (d & Hd & H). apply add2_inv in Hd as [Hrows ->].
  apply rbind_ok in H as (u & Hu & H). apply add1_inv in Hu as [Hlu ->].
  apply rbind_ok in H as (o & Ho & H). apply add1_inv in Ho as [Hlo ->].
  injection H as <-. rewrite length_map in Hlu, Hlo.
  exists e0, e1. repeat (split; [assumption |]). split; [| split; [| split]]; try assumption.
  - apply Forall2_fmap_r in Hrows. eapply Forall2_impl; [exact Hrows |].
    intros row x Hlen. simpl in Hlen. now rewrite length_bin_counts_pred in Hlen.
  - reflexivity.
Qed.

Lemma fill_with_batch_from (h : Histogram) (batch : list (list Q)) (e0 e1 : Q) :
  bin_edges h !! 0%nat = Some e0 ->
  bin_edges h !! 1%nat = Some e1 ->
  (batch <> [] -> increasing (bin_edges h) = true) ->
  Forall2 (fun row x => length row = pred (length (bin_edges h))) (data h) batch ->
  length (underflow h) = length batch ->
  length (overflow h) = length batch ->
  fill_with_batch h batch
  = Ok (_compute_errors
          (set_flows
             (set_data h (zip_with (zip_with (fun u v => (u + Qof_nat v)%Q)) (data h)
                                   (map (fun x => bin_counts x (bin_edges h)) batch)))
             (zip_with (fun u v => (u + Qof_nat v)%Q) (underflow h)
                       (map (count_if (fun s => negb (Qgt_bool s e0))) batch))
             (zip_with (fun u v => (u + Qof_nat v)%Q) (overflow h)
                       (map (count_if (fun s => negb (Qlt_bool s e1))) batch)))).
Proof.
  intros He0 He1 Hinc Hrows Hu Ho. unfold fill_with_batch.
  rewrite (mapM_ok _ (fun x => bin_counts x (bin_edges h))).
  2:{ intros x Hx. apply np_histogram_ok with e0; [| exact He0].
      apply Hinc. intros ->. inversion Hx. }
  cbn [rbind]. apply get_ok in He0, He1. rewrite He0, He1. cbn [rbind].
  rewrite add2_ok; cycle 1.
  { rewrite length_map. now apply Forall2_length in Hrows. }
  { intros s row cnt Hrow Hcnt. rewrite list_lookup_fmap in Hcnt.
    destruct (batch !! s) as [x |] eqn:Hx; [| discriminate]. injection Hcnt as <-.
    rewrite length_bin_counts_pred.
    eapply Forall2_lookup_lr in Hrows; eauto. }
  cbn [rbind]. rewrite !add1_ok by now rewrite length_map. reflexivity.
Qed.

Lemma Qof_nat_add (n m : nat) : (Qof_nat (n + m) == Qof_nat n + Qof_nat m)%Q.
Proof. unfold Qof_nat. now rewrite Nat2Z.inj_add, inject_Z_plus. Qed.

Lemma Qsum_zip_add (row : list Q) : forall cnts : list nat,
  length row = length cnts ->
  (Qsum (zip_with (fun u v => (u + Qof_nat v)%Q) row cnts)
   == Qsum row + Qof_nat (nat_sum cnts))%Q.
Proof.
  induction row as [| q row IH]; intros [| n cnts] Hlen; try discriminate.
  - reflexivity.
  - simpl in Hlen. injection Hlen as Hlen.
    change ((q + Qof_nat n) + Qsum (zip_with (fun u v => (u + Qof_nat v)%Q) row cnts)
            == (q + Qsum row) + Qof_nat (n + nat_sum cnts))%Q.
    rewrite (IH cnts Hlen), Qof_nat_add. ring.
Qed.

(** X3. [fill_with_batch] adds to the total of a slot the number of its
    samples lying between the first and the last edge, both included: each
    of them is counted in exactly one bin, the others in none. *)
Theorem fill_with_batch_total
    (h h' : Histogram) (batch : list (list Q)) (e0 el : Q) (s : nat) (row x : list Q) :
  fill_with_batch h batch = Ok h' ->
  bin_edges h !! 0%nat = Some e0 ->
  last (bin_edges h) = Some el ->
  data h !! s = Some row ->
  batch !! s = Some x ->
  exists row',
    data h' !! s = Some row'
    /\ length row' = length row
    /\ (Qsum row'
        == Qsum row + Qof_nat (count_if (fun v => Qle_bool e0 v && Qle_bool v el) x))%Q.
Proof.
  intros Hfill He0 Hlast Hrow Hx.
  apply fill_with_batch_inv in Hfill
    as (e0' & e1 & He0' & He1 & Hinc & Hrows & _ & _ & ->).
  rewrite He0 in He0'. injection He0' as <-.
  assert (length row = length (bin_counts x (bin_edges h))) as Hlen.
  { rewrite length_bin_counts_pred. eapply Forall2_lookup_lr in Hrows; eauto. }
  exists (zip_with (fun u v => (u + Qof_nat v)%Q) row (bin_counts x (bin_edges h))).
  split; [| split].
  - simpl. rewrite lookup_zip_with, Hrow. simpl.
    rewrite list_lookup_fmap, Hx. reflexivity.
  - rewrite length_zip_with. lia.
  - rewrite Qsum_zip_add by exact Hlen.
    assert (increasing (bin_edges h) = true) as Hi.
    { apply Hinc. intros ->. discriminate. }
    destruct (bin_edges h) as [| lo [| hi rest]]; try discriminate.
    injection He0 as ->.
    now rewrite (bin_counts_sum x rest e0 hi el Hi Hlast).
Qed.

Lemma fill_with_batch_total_witness :
  exists row',
    data (from_ok (fill_with_batch store_0_10 [[-3; 0; 5; 5; 21 # 2; 40]]%Q)) !! 0%nat
    = Some row'
    /\ length row' = 11%nat
    /\ (Qsum row' == 0 + 4)%Q.
Proof.
  destruct (fill_with_batch_total store_0_10
              (from_ok (fill_with_batch store_0_10 [[-3; 0; 5; 5; 21 # 2; 40]]%Q))
              [[-3; 0; 5; 5; 21 # 2; 40]]%Q (-1 # 2) (21 # 2) 0 (replicate 11 0%Q)
              [-3; 0; 5; 5; 21 # 2; 40]%Q) as (row' & Hrow' & Hlen & Hsum);
    [reflexivity .. |].
  exists row'. split; [exact Hrow' |]. split; [exact Hlen |].
  rewrite Hsum. vm_compute. reflexivity.
Defined.

(** ** Splitting a batch *)

Lemma np_sqrt_Qeq (a b : Q) : (a == b)%Q -> np_sqrt a = np_sqrt b.
Proof.
  intros E. unfold np_sqrt.
  assert (Qle_bool 0 a = Qle_bool 0 b) as ->.
  { destruct (Qle_bool 0 a) eqn:Ha, (Qle_bool 0 b) eqn:Hb; try reflexivity.
    - apply Qle_bool_iff in Ha. rewrite E in Ha. apply Qle_bool_iff in Ha. congruence.
    - apply Qle_bool_iff in Hb. rewrite <- E in Hb. apply Qle_bool_iff in Hb. congruence. }
  now rewrite (Qeq_eqR _ _ E).
Qed.

Lemma errors_same_numbers (d d' : list (list Q)) :
  same_numbers2 d d' ->
  map (map (fun q => floor_error (np_sqrt q))) d
  = map (map (fun q => floor_error (np_sqrt q))) d'.
Proof.
  intros H. induction H as [| row row' d d' Hrow _ IH]; [reflexivity |].
  simpl. rewrite IH. f_equal.
  induction Hrow as [| q q' row row' Hq _ IHrow]; [reflexivity |].
  simpl. now rewrite IHrow, (np_sqrt_Qeq _ _ Hq).
Qed.

Lemma add_counts_twice (a : list Q) : forall c1 c2 : list nat,
  same_numbers (zip_with (fun u v => (u + Qof_nat v)%Q) a (zip_with Nat.add c1 c2))
               (zip_with (fun u v => (u + Qof_nat v)%Q)
                         (zip_with (fun u v => (u + Qof_nat v)%Q) a c1) c2).
Proof.
  induction a as [| q a IH]; intros [| n1 c1] [| n2 c2]; try constructor.
  - rewrite Qof_nat_add. ring.
  - apply IH.
Qed.

Lemma add_batches_twice (p : Q -> bool) (u : list Q) : forall b1 b2 : list (list Q),
  same_numbers
    (zip_with (fun u v => (u + Qof_nat v)%Q) u (map (count_if p) (zip_with app b1 b2)))
    (zip_with (fun u v => (u + Qof_nat v)%Q)
              (zip_with (fun u v => (u + Qof_nat v)%Q) u (map (count_if p) b1))
              (map (count_if p) b2)).
Proof.
  induction u as [| q u IH]; intros [| x1 b1] [| x2 b2]; try constructor.
  - rewrite count_if_app, Qof_nat_add. ring.
  - apply IH.
Qed.

Lemma add_histograms_twice (edges : list Q) (d : list (list Q)) :
  forall b1 b2 : list (list Q),
    same_numbers2
      (zip_with (zip_with (fun u v => (u + Qof_nat v)%Q)) d
                (map (fun x => bin_counts x edges) (zip_with app b1 b2)))
      (zip_with (zip_with (fun u v => (u + Qof_nat v)%Q))
                (zip_with (zip_with (fun u v => (u + Qof_nat v)%Q)) d
                          (map (fun x => bin_counts x edges) b1))
                (map (fun x => bin_counts x edges) b2)).
Proof.
  induction d as [| row d IH]; intros [| x1 b1] [| x2 b2]; try constructor.
  - rewrite bin_counts_app. apply add_counts_twice.
  - apply IH.
Qed.

(** On a consistent store, a batch with one array of samples per slot is
    accepted and leaves a consistent store. *)
Lemma fill_with_batch_consistent (h : Histogram) (batch : list (list Q)) :
  consistent h ->
  length batch = length (data h) ->
  exists h', fill_with_batch h batch = Ok h' /\ consistent h'
             /\ length (data h') = length (data h).
Proof.
  intros Hc Hlen. pose proof Hc as (Hinc & H2 & Hrows & Hu & Ho).
  destruct (bin_edges h) as [| e0 [| e1 edges]] eqn:He;
    [simpl in H2; lia | simpl in H2; lia |].
  eexists. split; [| split].
  - apply (fill_with_batch_from h batch e0 e1).
    + now rewrite He.
    + now rewrite He.
    + intros _. now rewrite He.
    + rewrite He. apply Forall2_same_length_lookup_2; [now rewrite Hlen |].
      intros s r x Hr _. rewrite Forall_lookup in Hrows.
      specialize (Hrows s r Hr). simpl in *. lia.
    + congruence.
    + congruence.
  - unfold consistent.
    cbn [bin_edges data underflow overflow _compute_errors set_errors set_flows set_data].
    rewrite He.
    split; [exact Hinc |]. split; [simpl; lia |].
    rewrite !length_zip_with, !length_map.
    split; [| split; lia].
    apply Forall_lookup. intros s r Hr.
    apply lookup_zip_with_Some in Hr as (r0 & cnt & -> & Hr0 & Hcnt).
    rewrite list_lookup_fmap in Hcnt. apply fmap_Some in Hcnt as (x & _ & ->).
    rewrite length_zip_with, length_bin_counts_pred.
    rewrite Forall_lookup in Hrows. specialize (Hrows s r0 Hr0).
    simpl in *. lia.
  - cbn [data _compute_errors set_errors set_flows set_data].
    rewrite length_zip_with, length_map. lia.
Qed.

Lemma fill_with_batch_twice
    (h h1 h2 : Histogram) (batch1 batch2 : list (list Q)) :
  fill_with_batch h batch1 = Ok h1 ->
  fill_with_batch h1 batch2 = Ok h2 ->
  exists h',
    fill_with_batch h (zip_with app batch1 batch2) = Ok h'
    /\ same_numbers2 (data h') (data h2)
    /\ same_numbers (underflow h') (underflow h2)
    /\ same_numbers (overflow h') (overflow h2)
    /\ errors h' = errors h2.
Proof.
  intros H1 H2.
  apply fill_with_batch_inv in H1
    as (e0 & e1 & He0 & He1 & Hinc1 & Hrows1 & Hu1 & Ho1 & ->).
  apply fill_with_batch_inv in H2
    as (e0' & e1' & He0' & He1' & _ & Hrows2 & Hu2 & Ho2 & ->).
  cbn [bin_edges data underflow overflow _compute_errors set_flows set_data set_errors]
    in *.
  rewrite He0 in He0'. injection He0' as <-.
  rewrite He1 in He1'. injection He1' as <-.
  pose proof (Forall2_length _ _ _ Hrows1) as Hl1.
  pose proof (Forall2_length _ _ _ Hrows2) as Hl2.
  rewrite length_zip_with, length_map in Hl2.
  assert (length batch2 = length batch1) as Hb by lia.
  eexists. split.
  - apply (fill_with_batch_from h _ e0 e1); try assumption.
    + intros Hne. apply Hinc1. intros ->. now apply Hne.
    + apply Forall2_same_length_lookup_2.
      * rewrite length_zip_with. lia.
      * intros i row x Hrow _. eapply Forall2_lookup_l in Hrows1 as (x1 & _ & Hx1); eauto.
    + rewrite length_zip_with. lia.
    + rewrite length_zip_with. lia.
  - cbn [data underflow overflow errors _compute_errors set_flows set_data set_errors].
    split; [apply add_histograms_twice |].
    split; [apply add_batches_twice |].
    split; [apply add_batches_twice |].
    apply errors_same_numbers, add_histograms_twice.
Qed.

(** X4. On a consistent store with at least one slot, a batch holding one
    array of samples per slot can be given in two parts: [fill_with_batch]
    accepts [batch1], then [batch2], and leaves the bin contents, the
    underflow and overflow counts and the errors that filling, slot by slot,
    the samples of [batch1] followed by those of [batch2] leaves. *)
Theorem fill_with_batch_in_two_parts (h : Histogram) (batch1 batch2 : list (list Q)) :
  consistent h ->
  data h <> [] ->
  length batch1 = length (data h) ->
  length batch2 = length (data h) ->
  exists h1 h2 h',
    fill_with_batch h batch1 = Ok h1
    /\ fill_with_batch h1 batch2 = Ok h2
    /\ fill_with_batch h (zip_with app batch1 batch2) = Ok h'
    /\ same_numbers2 (data h') (data h2)
    /\ same_numbers (underflow h') (underflow h2)
    /\ same_numbers (overflow h') (overflow h2)
    /\ errors h' = errors h2.
Proof.
  intros Hc _ Hl1 Hl2.
  destruct (fill_with_batch_consistent h batch1 Hc Hl1) as (h1 & H1 & Hc1 & Hd1).
  destruct (fill_with_batch_consistent h1 batch2 Hc1) as (h2 & H2 & _); [congruence |].
  destruct (fill_with_batch_twice h h1 h2 batch1 batch2 H1 H2) as (h' & H12 & Hsame).
  exists h1, h2, h'. split; [exact H1 |]. split; [exact H2 |]. split; [exact H12 |].
  exact Hsame.
Qed.

Lemma fill_with_batch_in_two_parts_witness :
  exists h1 h2 h',
    fill_with_batch store_0_10 [[1; 2]]%Q = Ok h1
    /\ fill_with_batch h1 [[40; 5]]%Q = Ok h2
    /\ fill_with_batch store_0_10 [[1; 2; 40; 5]]%Q = Ok h'
    /\ same_numbers2 (data h') (data h2).
Proof.
  destruct (fill_with_batch_in_two_parts store_0_10 [[1; 2]]%Q [[40; 5]]%Q)
    as (h1 & h2 & h' & H1 & H2 & H12 & Hdata & _).
  - unfold consistent. split; [reflexivity |]. split; [vm_compute; lia |].
    split; [repeat constructor | split; reflexivity].
  - discriminate.
  - reflexivity.
  - reflexivity.
  - exists h1, h2, h'. repeat split; assumption.
Defined.

(** ** The axis built by the constructor *)

Lemma Qceiling_unique (q : Q) (n : Z) :
  (inject_Z (n - 1) < q)%Q -> (q <= inject_Z n)%Q -> Qceiling q = n.
Proof.
  intros Hlo Hhi.
  assert (Qceiling q <= n) by (rewrite <- (Qceiling_Z n); now apply Qceiling_resp_le).
  assert (n - 1 < Qceiling q); [| lia].
  rewrite Zlt_Qlt. eapply Qlt_le_trans; [exact Hlo | apply Qle_ceiling].
Qed.

Lemma Qfloor_unique (q : Q) (n : Z) :
  (inject_Z n <= q)%Q -> (q < inject_Z (n + 1))%Q -> Qfloor q = n.
Proof.
  intros Hlo Hhi.
  assert (n <= Qfloor q) by (rewrite <- (Qfloor_Z n); now apply Qfloor_resp_le).
  assert (Qfloor q < n + 1); [| lia].
  rewrite Zlt_Qlt. eapply Qle_lt_trans; [apply Qfloor_le | exact Hhi].
Qed.

Lemma Qceiling_plus_Z (q : Q) (z : Z) : Qceiling (q + inject_Z z) = Qceiling q + z.
Proof.
  apply Qceiling_unique.
  - replace (Qceiling q + z - 1) with ((Qceiling q - 1) + z) by lia.
    rewrite inject_Z_plus. apply Qplus_lt_l, Qceiling_lt.
  - rewrite inject_Z_plus. apply Qplus_le_l, Qle_ceiling.
Qed.

Lemma Qceiling_pos (q : Q) : (0 < q)%Q -> 0 < Qceiling q.
Proof.
  intros Hq. rewrite Zlt_Qlt. eapply Qlt_le_trans; [exact Hq | apply Qle_ceiling].
Qed.

Lemma arange_inv (start stop step : Q) (l : list Q) :
  arange start stop step = Ok l ->
  l = map (fun i : nat => (start + inject_Z (Z.of_nat i) * step)%Q)
          (seq 0 (Z.to_nat (Qceiling ((stop - start) / step)))).
Proof. unfold arange. destruct (Qeq_bool step 0); [discriminate |]. now intros [= <-]. Qed.

Lemma arange_pos (start stop step : Q) :
  (0 < step)%Q ->
  arange start stop step
  = Ok (map (fun i : nat => (start + inject_Z (Z.of_nat i) * step)%Q)
            (seq 0 (Z.to_nat (Qceiling ((stop - start) / step))))).
Proof.
  intros Hs. unfold arange.
  destruct (Qeq_bool step 0) eqn:E; [| reflexivity].
  apply Qeq_bool_iff in E. rewrite E in Hs. now apply Qlt_irrefl in Hs.
Qed.

Lemma arange_np_pos (start stop step : Q) :
  (0 < step)%Q -> arange_np start stop step = arange start stop step.
Proof.
  intros Hs. unfold arange_np.
  destruct (Qeq_bool step 0) eqn:E; [| reflexivity].
  apply Qeq_bool_iff in E. rewrite E in Hs. now apply Qlt_irrefl in Hs.
Qed.

Lemma arange_lookup (start step : Q) (n k : nat) :
  (k < n)%nat ->
  map (fun i : nat => (start + inject_Z (Z.of_nat i) * step)%Q) (seq 0 n) !! k
  = Some (start + inject_Z (Z.of_nat k) * step)%Q.
Proof.
  intros Hk. rewrite list_lookup_fmap, lookup_seq_lt by exact Hk. reflexivity.
Qed.

Lemma increasing_grid (start step : Q) (n : nat) : forall a : nat,
  (0 <= step)%Q ->
  increasing (map (fun i : nat => (start + inject_Z (Z.of_nat i) * step)%Q) (seq a n))
  = true.
Proof.
  induction n as [| n IH]; intros a Hs; [reflexivity |].
  destruct n as [| n]; [reflexivity |].
  change (seq a (S (S n))) with (a :: seq (S a) (S n)).
  rewrite fmap_cons.
  specialize (IH (S a) Hs). change (seq (S a) (S n)) with (S a :: seq (S (S a)) n) in *.
  rewrite fmap_cons in *. rewrite increasing_cons, IH, andb_true_r.
  apply Qle_bool_iff. apply Qplus_le_r.
  rewrite Nat2Z.inj_succ. unfold Z.succ. rewrite inject_Z_plus.
  rewrite Qmult_plus_distr_l. rewrite <- (Qplus_0_r (inject_Z (Z.of_nat a) * step)) at 1.
  apply Qplus_le_r. now rewrite Qmult_1_l.
Qed.

(** The axis built from limits with a positive width, the arithmetic of
    [np.arange] being taken as exact: one more edge than centers, every
    center in the middle of its two edges, a consistent store. *)
Lemma limits_axis (bin_center_min bin_center_max width : Q) :
  (0 < width)%Q ->
  (bin_center_min <= bin_center_max)%Q ->
  exists edges centers : list Q,
    init_axis [] bin_center_min bin_center_max width = Ok (width, edges, centers)
    /\ (0 < length centers)%nat
    /\ length edges = S (length centers)
    /\ increasing edges = true
    /\ (forall (k : nat) (c : Q), centers !! k = Some c ->
          (c == bin_center_min + inject_Z (Z.of_nat k) * width)%Q
          /\ exists lo hi : Q,
               edges !! k = Some lo /\ edges !! S k = Some hi
               /\ (lo == c - width / 2)%Q /\ (hi == c + width / 2)%Q)
    /\ (forall (n : nat) (xl yl lb : string),
          exists h,
            __init__ [] n [] bin_center_min bin_center_max width xl yl lb = Ok h
            /\ bin_edges h = edges /\ bin_centers h = centers /\ bin_width h = width
            /\ data h = replicate n (replicate (length centers) 0%Q)
            /\ consistent h).
Proof.
  intros Hw Hle.
  assert (~ (width == 0)%Q) as Hnz.
  { intros E. rewrite E in Hw. now apply Qlt_irrefl in Hw. }
  set (nc := Z.to_nat (Qceiling ((bin_center_max + 1 - bin_center_min) / width))).
  assert (0 < Qceiling ((bin_center_max + 1 - bin_center_min) / width)) as Hpos.
  { apply Qceiling_pos. apply Qlt_shift_div_l; [exact Hw |]. rewrite Qmult_0_l.
    apply Qlt_le_trans with 1%Q; [reflexivity |].
    assert (bin_center_max + 1 - bin_center_min == 1 + (bin_center_max - bin_center_min))%Q
      as -> by ring.
    rewrite <- (Qplus_0_r 1) at 1. apply Qplus_le_r.
    unfold Qminus. rewrite <- (Qplus_opp_r bin_center_min). now apply Qplus_le_l. }
  assert (Z.to_nat (Qceiling ((bin_center_max + width / 2 + 1
                               - (bin_center_min - width / 2)) / width)) = S nc) as Hne.
  { assert ((bin_center_max + width / 2 + 1 - (bin_center_min - width / 2)) / width
            == (bin_center_max + 1 - bin_center_min) / width + inject_Z 1)%Q as ->
      by (change (inject_Z 1) with 1%Q; field; exact Hnz).
    rewrite Qceiling_plus_Z. unfold nc. lia. }
  set (edges := map (fun i : nat => (bin_center_min - width / 2
                                      + inject_Z (Z.of_nat i) * width)%Q) (seq 0 (S nc))).
  set (centers := map (fun i : nat => (bin_center_min + inject_Z (Z.of_nat i) * width)%Q)
                      (seq 0 nc)).
  assert (init_axis [] bin_center_min bin_center_max width = Ok (width, edges, centers))
    as Haxis.
  { unfold init_axis. rewrite !arange_pos by exact Hw. cbn [rbind].
    rewrite Hne. reflexivity. }
  assert (length centers = nc) as Hlc by (unfold centers; now rewrite length_map, length_seq).
  assert (length edges = S nc) as Hledges
    by (unfold edges; now rewrite length_map, length_seq).
  assert (increasing edges = true) as Hinc.
  { apply increasing_grid. now apply Qlt_le_weak. }
  exists edges, centers.
  split; [exact Haxis |]. split; [rewrite Hlc; unfold nc; lia |].
  split; [now rewrite Hledges, Hlc |]. split; [exact Hinc |]. split.
  - intros k c Hc.
    assert (k < nc)%nat as Hk by (rewrite <- Hlc; eapply lookup_lt_Some; eauto).
    unfold centers in Hc. rewrite arange_lookup in Hc by exact Hk. injection Hc as <-.
    split; [reflexivity |].
    eexists _, _. split; [unfold edges; apply arange_lookup; lia |].
    split; [unfold edges; apply arange_lookup; lia |].
    split; [ring |].
    rewrite Nat2Z.inj_succ. unfold Z.succ. rewrite inject_Z_plus.
    change (inject_Z 1) with 1%Q. field.
  - intros n xl yl lb. eexists. unfold __init__. rewrite Haxis. cbn [rbind].
    split; [reflexivity |]. repeat (split; [reflexivity |]).
    unfold consistent. cbn [bin_edges data underflow overflow].
    split; [exact Hinc |]. split; [rewrite Hledges; unfold nc; lia |].
    split; [| now rewrite !length_replicate].
    apply Forall_replicate. rewrite length_replicate. now rewrite Hledges, Hlc.
Qed.

(** X5. Built from integer limits and a positive integer width (numbers on
    which the float64 arithmetic of [np.arange] is exact), the axis has one
    more edge than centers, and every center is the middle of the bin that
    its two edges delimit; the store built on it is consistent. *)
Theorem axis_from_limits (cmin cmax w : Z) :
  0 < w <= 2 ^ 31 ->
  - 2 ^ 31 <= cmin -> cmin <= cmax -> cmax <= 2 ^ 31 ->
  let bin_center_min := inject_Z cmin in
  let bin_center_max := inject_Z cmax in
  let width := inject_Z w in
  exists edges centers : list Q,
    init_axis [] bin_center_min bin_center_max width = Ok (width, edges, centers)
    /\ (0 < length centers)%nat
    /\ length edges = S (length centers)
    /\ increasing edges = true
    /\ (forall (k : nat) (c : Q), centers !! k = Some c ->
          (c == bin_center_min + inject_Z (Z.of_nat k) * width)%Q
          /\ exists lo hi : Q,
               edges !! k = Some lo /\ edges !! S k = Some hi
               /\ (lo == c - width / 2)%Q /\ (hi == c + width / 2)%Q)
    /\ (forall (n : nat) (xl yl lb : string),
          exists h,
            __init__ [] n [] bin_center_min bin_center_max width xl yl lb = Ok h
            /\ bin_edges h = edges /\ bin_centers h = centers /\ bin_width h = width
            /\ data h = replicate n (replicate (length centers) 0%Q)
            /\ consistent h).
Proof.
  intros Hw _ Hle _ bin_center_min bin_center_max width.
  apply limits_axis.
  - unfold width. change 0%Q with (inject_Z 0). rewrite <- Zlt_Qlt. lia.
  - unfold bin_center_min, bin_center_max. now rewrite <- Zle_Qle.
Qed.

Lemma axis_from_limits_witness :
  exists edges centers : list Q,
    init_axis [] 0 10 2 = Ok (2%Q, edges, centers)
    /\ length edges = S (length centers)
    /\ increasing edges = true.
Proof.
  destruct (axis_from_limits 0 10 2) as (edges & centers & Haxis & _ & Hlen & Hinc & _).
  - lia.
  - lia.
  - lia.
  - lia.
  - exists edges, centers. repeat split; assumption.
Defined.

(** The axis built from given centers: the width is the distance of the
    first two, and the edges run from half a width below the first center to
    less than half a width plus one above the last. *)
Lemma centers_axis (c0 c1 cl : Q) (rest : list Q) (a b c : Q) :
  last (c0 :: c1 :: rest) = Some cl ->
  (0 < c1 - c0)%Q ->
  (cl - c0 == inject_Z (Z.of_nat (length rest) + 1) * (c1 - c0))%Q ->
  exists edges : list Q,
    init_axis (c0 :: c1 :: rest) a b c = Ok ((c1 - c0)%Q, edges, c0 :: c1 :: rest)
    /\ increasing edges = true
    /\ length edges
       = (length (c0 :: c1 :: rest) + Z.to_nat (Qceiling (1 / (c1 - c0))))%nat
    /\ (0 < Qceiling (1 / (c1 - c0))).
Proof.
  intros Hlast Hw Hspan.
  assert (~ (c1 - c0 == 0)%Q) as Hnz.
  { intros E. rewrite E in Hw. now apply Qlt_irrefl in Hw. }
  assert (get (c0 :: c1 :: rest) (length (c0 :: c1 :: rest) - 1) = Ok cl) as Hget.
  { apply get_ok. rewrite <- Hlast, last_lookup. f_equal; simpl; lia. }
  assert (0 < Qceiling (1 / (c1 - c0))) as Hpos.
  { apply Qceiling_pos. apply Qlt_shift_div_l; [exact Hw |]. now rewrite Qmult_0_l. }
  eexists. split; [| split; [| split]].
  - unfold init_axis. unfold get at 1 2. cbn [lookup list_lookup rbind].
    rewrite Hget. cbn [rbind]. rewrite arange_np_pos, arange_pos by exact Hw.
    reflexivity.
  - apply increasing_grid. now apply Qlt_le_weak.
  - rewrite length_map, length_seq.
    assert ((cl + (c1 - c0) / 2 + 1 - (c0 - (c1 - c0) / 2)) / (c1 - c0)
            == 1 / (c1 - c0) + inject_Z (Z.of_nat (length rest) + 2))%Q as ->.
    { assert (cl == c0 + inject_Z (Z.of_nat (length rest) + 1) * (c1 - c0))%Q as ->
        by (rewrite <- Hspan; ring).
      rewrite !inject_Z_plus. change (inject_Z 1) with 1%Q. change (inject_Z 2) with 2%Q.
      field. exact Hnz. }
    rewrite Qceiling_plus_Z. simpl length. lia.
  - exact Hpos.
Qed.

Lemma Qceiling_inv_ge_1 (w : Q) : (1 <= w)%Q -> Qceiling (1 / w) = 1.
Proof.
  intros Hw.
  assert (0 < w)%Q as Hpos by (eapply Qlt_le_trans; [| exact Hw]; reflexivity).
  apply Qceiling_unique.
  - change (inject_Z (1 - 1)) with 0%Q. apply Qlt_shift_div_l; [exact Hpos |].
    now rewrite Qmult_0_l.
  - change (inject_Z 1) with 1%Q. apply Qle_shift_div_r; [exact Hpos |].
    now rewrite Qmult_1_l.
Qed.


Lemma last_inject_Z (l : list Z) (z : Z) :
  last l = Some z -> last (map inject_Z l) = Some (inject_Z z).
Proof. intros H. change (map inject_Z l) with (inject_Z <$> l). now rewrite fmap_last, H. Qed.

(** X6. Built from given centers, the axis takes the distance of the first
    two centers as its width; a single center is an [IndexError], two equal
    first centers a [ValueError] (the width is then a numpy zero). For
    integer centers on a regular grid of integer step (numbers on which the
    float64 arithmetic of [np.arange] is exact) there is one more edge than
    centers, the edges increase, and the first edge lies half a step below
    the first center. *)
Theorem axis_from_centers :
  (forall c a b w : Q, init_axis [c] a b w = Raise IndexError)
  /\ (forall (c : Q) (rest : list Q) (a b w : Q),
         init_axis (c :: c :: rest) a b w = Raise ValueError)
  /\ (forall (z0 z1 zl : Z) (rest : list Z) (a b c : Q),
         last (z0 :: z1 :: rest) = Some zl ->
         0 < z1 - z0 ->
         zl - z0 = (Z.of_nat (length rest) + 1) * (z1 - z0) ->
         - 2 ^ 31 <= z0 -> zl <= 2 ^ 31 ->
         let centers := map inject_Z (z0 :: z1 :: rest) in
         exists edges : list Q,
           init_axis centers a b c = Ok (inject_Z (z1 - z0), edges, centers)
           /\ length edges = S (length centers)
           /\ increasing edges = true
           /\ exists e0, edges !! 0%nat = Some e0
                         /\ (e0 == inject_Z z0 - inject_Z (z1 - z0) / 2)%Q).
Proof.
  split; [reflexivity |]. split.
  { intros c rest a b w. unfold init_axis. unfold get at 1 2.
    cbn [lookup list_lookup rbind].
    destruct (lookup_lt_is_Some_2 (c :: c :: rest) (length (c :: c :: rest) - 1))
      as [cl Hcl]; [simpl; lia |].
    apply get_ok in Hcl. rewrite Hcl. cbn [rbind]. unfold arange_np.
    assert (Qeq_bool (c - c) 0 = true) as -> by (apply Qeq_bool_iff; ring).
    reflexivity. }
  intros z0 z1 zl rest a b c Hlast Hw Hspan _ _ centers.
  assert (inject_Z z1 - inject_Z z0 = inject_Z (z1 - z0))%Q as Hwq.
  { unfold Qminus. now rewrite <- inject_Z_opp, <- inject_Z_plus. }
  destruct (centers_axis (inject_Z z0) (inject_Z z1) (inject_Z zl) (map inject_Z rest) a b c)
    as (edges & Haxis & Hinc & Hlen & Hpos).
  - exact (last_inject_Z (z0 :: z1 :: rest) zl Hlast).
  - rewrite Hwq. change 0%Q with (inject_Z 0). now rewrite <- Zlt_Qlt.
  - rewrite Hwq, length_map.
    assert (inject_Z zl - inject_Z z0 = inject_Z (zl - z0))%Q as ->.
    { unfold Qminus. now rewrite <- inject_Z_opp, <- inject_Z_plus. }
    rewrite <- inject_Z_mult. now rewrite Hspan.
  - rewrite Hwq in Haxis, Hlen.
    exists edges. split; [exact Haxis |]. split; [| split; [exact Hinc |]].
    + rewrite Hlen, Qceiling_inv_ge_1; [simpl; lia |].
      change 1%Q with (inject_Z 1). rewrite <- Zle_Qle. lia.
    + unfold init_axis in Haxis. unfold centers in Haxis.
      cbn [map get lookup list_lookup rbind] in Haxis.
      destruct (get _ _) as [clast |]; cbn [rbind] in Haxis; [| discriminate].
      apply rbind_ok in Haxis as (edges' & Hedges & Haxis). injection Haxis as _ <-.
      rewrite arange_np_pos in Hedges
        by (rewrite Hwq; change 0%Q with (inject_Z 0); now rewrite <- Zlt_Qlt).
      apply arange_inv in Hedges. rewrite Hedges.
      destruct (Z.to_nat _) as [| n] eqn:Hn.
      * exfalso. subst edges'. simpl in Hlen. lia.
      * eexists. split; [reflexivity |]. rewrite Hwq. simpl. ring.
Qed.

Lemma axis_from_centers_witness :
  exists edges : list Q,
    init_axis [0; 2; 4]%Q 0 1 1 = Ok (2%Q, edges, [0; 2; 4]%Q)
    /\ length edges = 4%nat.
Proof.
  destruct (proj2 (proj2 axis_from_centers) 0 2 4 [4] 0%Q 1%Q 1%Q)
    as (edges & Haxis & Hlen & _).
  - reflexivity.
  - lia.
  - reflexivity.
  - lia.
  - lia.
  - exists edges. split; [exact Haxis | exact Hlen].
Defined.




(** ** The shape of the store through the fills *)

Lemma consistent_n_bins (h : Histogram) (row : list Q) (rows : list (list Q)) :
  consistent h -> data h = row :: rows ->
  (0 < n_bins h)%nat /\ Forall (fun r => length r = n_bins h) (data h).
Proof.
  intros (_ & H2 & Hrows & _) Hd. unfold n_bins. rewrite Hd in *.
  pose proof (Forall_inv Hrows) as Hrow. simpl in Hrow. split; [lia |].
  eapply Forall_impl; [exact Hrows |]. intros r Hr. simpl in Hr. lia.
Qed.

(** X8. A consistent store with at least one slot stays consistent through
    [fill] and through [fill_with_batch], and neither of them raises on it
    when given a value with one axis per slot axis, none longer than the
    store's, or a batch holding one array of samples per slot: the calls can
    be chained. *)
Theorem fills_keep_consistent (h : Histogram) :
  consistent h ->
  data h <> [] ->
  (forall (slot_shape vshape : list nat) (value : list Q),
      length (data h) = shape_size slot_shape ->
      length value = shape_size vshape ->
      Forall2 le vshape slot_shape ->
      vshape <> [] ->
      last vshape <> Some 0%nat ->
      exists h', fill_nd slot_shape h vshape value = Ok h' /\ consistent h'
                 /\ length (data h') = length (data h))
  /\ (forall batch : list (list Q),
         length batch = length (data h) ->
         exists h', fill_with_batch h batch = Ok h' /\ consistent h'
                    /\ length (data h') = length (data h)).
Proof.
  intros Hc Hslots. pose proof Hc as (Hinc & H2 & Hrows & Hu & Ho). split.
  - intros slot_shape vshape value Hdata Hvalue Hfits Hrank Hlast.
    assert (exists row rows, data h = row :: rows) as (row & rows & Hd).
    { destruct (data h); [contradiction | eauto]. }
    destruct (consistent_n_bins h row rows Hc Hd) as [HN Hrect].
    destruct (bin_edges h) as [| e0 edges] eqn:He; [simpl in H2; lia |].
    assert (bin_edges h !! 0%nat = Some e0) as He0 by now rewrite He.
    pose proof (fill_nd_full_rank slot_shape vshape h value e0 He0 Hvalue Hfits Hrank
                  Hlast HN) as Hfill.
    eexists. split; [exact Hfill |].
    unfold consistent. cbn [bin_edges data underflow overflow set_data].
    rewrite He, length_imap.
    split; [| reflexivity].
    split; [exact Hinc |]. split; [exact H2 |]. split; [| split; assumption].
    apply Forall_lookup. intros s r Hr. rewrite list_lookup_imap in Hr.
    destruct (data h !! s) as [r0 |] eqn:Hr0; [| discriminate].
    injection Hr as <-. rewrite length_imap.
    rewrite Forall_lookup in Hrows. now apply (Hrows s).
  - intros batch Hlen. now apply fill_with_batch_consistent.
Qed.

Lemma fills_keep_consistent_witness :
  (exists h', fill_nd [1%nat] store_0_10 [1%nat] [3%Q] = Ok h' /\ consistent h')
  /\ (exists h', fill_with_batch store_0_10 [[3; 4]]%Q = Ok h' /\ consistent h').
Proof.
  assert (consistent store_0_10) as Hc0.
  { unfold consistent. split; [reflexivity |]. split; [vm_compute; lia |].
    split; [repeat constructor | split; reflexivity]. }
  destruct (fills_keep_consistent store_0_10 Hc0) as [Hfill Hbatch]; [discriminate |].
  split.
  - destruct (Hfill [1%nat] [1%nat] [3%Q]) as (h' & Hf & Hc & _);
      [reflexivity | reflexivity | repeat constructor | discriminate | discriminate |].
    exists h'. split; assumption.
  - destruct (Hbatch [[3; 4]]%Q) as (h' & Hf & Hc & _); [reflexivity |].
    exists h'. split; assumption.
Defined.

(** ** Inputs on which no fit is attempted *)

(** X9. When the slice is the marker [0, 0, 1], or when a starting value is
    NaN, [_axis_fit] does not call the optimizer: what it returns and logs is
    the same whatever the optimizer would do; without fixed parameters it is
    one row [NaN, NaN] per parameter, a NaN chi-square and the message
    [Bad inputs]. *)
Theorem axis_fit_bad_inputs :
  (forall least_squares1 least_squares2 (idx : nat) (func : objective) (p0 : list fnum)
          (sl : slice_list) (bounds : list fnum * list fnum)
          (fixed_param : option fixed_lists) (h : Histogram),
      slice_is_empty_marker sl = true \/ any_nan p0 = true ->
      _axis_fit least_squares1 idx func p0 sl bounds fixed_param h
      = _axis_fit least_squares2 idx func p0 sl bounds fixed_param h)
  /\ (forall least_squares (idx : nat) (func : objective) (p0 : list fnum)
             (bounds : list fnum * list fnum) (h : Histogram),
         _axis_fit least_squares idx func p0 (0, 0, 1) bounds None h
         = (Ok (nan_rows (length p0), NaN, compute_ndof (0, 0, 1) (length p0)),
            log_msg h DEBUG "Bad inputs"))
  /\ (forall least_squares (idx : nat) (func : objective) (p0 : list fnum) (a b c : Z)
             (bounds : list fnum * list fnum) (h : Histogram) (row ys : list Q),
         get (data h) idx = Ok row ->
         py_slice row a b c = Ok ys ->
         any_nan p0 = true ->
         _axis_fit least_squares idx func p0 (a, b, c) bounds None h
         = (Ok (nan_rows (length p0), NaN, compute_ndof (a, b, c) (length p0)),
            log_msg h DEBUG "Bad inputs")).
Proof.
  split; [| split].
  - intros ls1 ls2 idx func p0 [[a b] c] bounds fixed_param h Hbad.
    unfold _axis_fit. run_store.
    destruct (match fixed_param with
              | Some fx => _
              | None => _
              end) as [[[reduced_p0 reduced_bounds] obj] | e]; [| reflexivity].
    destruct (slice_is_empty_marker (a, b, c)) eqn:Hmark; [reflexivity |].
    destruct Hbad as [| Hnan]; [discriminate |].
    destruct (get (data h) idx) as [row |]; [| reflexivity].
    destruct (py_slice row a b c) as [ys |]; [| reflexivity].
    rewrite Hnan, orb_true_r. reflexivity.
  - intros ls idx func p0 bounds h. reflexivity.
  - intros ls idx func p0 a b c bounds h row ys Hrow Hslice Hnan.
    unfold _axis_fit. run_store.
    destruct (slice_is_empty_marker (a, b, c)); [reflexivity |].
    rewrite Hrow, Hslice, Hnan, orb_true_r. reflexivity.
Qed.

Lemma axis_fit_bad_inputs_witness :
  _axis_fit lsq_identity 0 (fun p x => fn_call model_f p x None) [Fin 1; NaN] (0, 3, 1)
            (replicate 2 NInf, replicate 2 PInf) None store_A_B
  = _axis_fit lsq_raises_on_6 0 (fun p x => fn_call model_f p x None) [Fin 1; NaN] (0, 3, 1)
              (replicate 2 NInf, replicate 2 PInf) None store_A_B.
Proof.
  apply (proj1 axis_fit_bad_inputs). right. reflexivity.
Defined.

(** ** The parameters handed to the model when some are fixed *)

Lemma filter_imap_notin (l : list Z) : forall (g : nat -> nat) (i : Z),
  i ∉ l -> filter (fun p : nat * Z => p.2 = i) (imap (fun k j => (g k, j)) l) = [].
Proof.
  induction l as [| x l IH]; intros g i Hi; [reflexivity |].
  apply not_elem_of_cons in Hi as [Hne Hi].
  cbn [imap]. rewrite filter_cons. cbn [snd].
  destruct (decide (x = i)) as [-> | _]; [contradiction |].
  apply (IH (g ∘ S) i Hi).
Qed.

Lemma filter_imap_NoDup (l : list Z) : forall (g : nat -> nat) (k : nat) (i : Z),
  NoDup l -> l !! k = Some i ->
  filter (fun p : nat * Z => p.2 = i) (imap (fun k j => (g k, j)) l) = [(g k, i)].
Proof.
  induction l as [| x l IH]; intros g k i Hnd Hk; [discriminate |].
  apply NoDup_cons in Hnd as [Hx Hnd].
  cbn [imap]. rewrite filter_cons. cbn [snd].
  destruct k as [| k]; simpl in Hk.
  - injection Hk as ->. destruct (decide (i = i)) as [_ |]; [| contradiction].
    f_equal. apply (filter_imap_notin l (g ∘ S) i Hx).
  - destruct (decide (x = i)) as [-> | _].
    + exfalso. apply Hx. eapply list_elem_of_lookup_2; eauto.
    + apply (IH (g ∘ S) k i Hnd Hk).
Qed.

Lemma fixed_values_at_NoDup (fx : fixed_lists) (k i : nat) (v : fnum) :
  NoDup fx.1 -> fx.1 !! k = Some (Z.of_nat i) -> fx.2 !! k = Some v ->
  fixed_values_at fx i = Ok [v].
Proof.
  intros Hnd Hk Hv. unfold fixed_values_at.
  rewrite (filter_imap_NoDup fx.1 (fun k => k) k (Z.of_nat i) Hnd Hk).
  simpl. unfold get. now rewrite Hv.
Qed.

Lemma is_fixed_value (fx : fixed_lists) (i : nat) :
  NoDup fx.1 -> length fx.1 = length fx.2 -> is_fixed fx i = true ->
  exists k v, fx.1 !! k = Some (Z.of_nat i) /\ fx.2 !! k = Some v
              /\ fixed_values_at fx i = Ok [v].
Proof.
  intros Hnd Hlen Hfix. unfold is_fixed in Hfix. apply bool_decide_eq_true in Hfix.
  apply list_elem_of_lookup in Hfix as [k Hk].
  destruct (lookup_lt_is_Some_2 fx.2 k) as [v Hv].
  { rewrite <- Hlen. eapply lookup_lt_Some; eauto. }
  exists k, v. split; [exact Hk |]. split; [exact Hv |].
  now apply fixed_values_at_NoDup with k.
Qed.

Lemma imap_shift {A} (a : nat) (l : list A) :
  imap ((fun i v => (a + i, v)%nat) ∘ S) l = imap (fun i v => (S a + i, v)%nat) l.
Proof. apply imap_ext. intros i x _. simpl. f_equal. lia. Qed.

Lemma free_count_cons (fx : fixed_lists) (a n : nat) :
  filter (fun i => is_fixed fx i = false) (seq a (S n))
  = if is_fixed fx a then filter (fun i => is_fixed fx i = false) (seq (S a) n)
    else a :: filter (fun i => is_fixed fx i = false) (seq (S a) n).
Proof.
  cbn [seq]. rewrite filter_cons.
  destruct (is_fixed fx a); destruct (decide _); congruence.
Qed.

Lemma rebuild_params_free (fx : fixed_lists) :
  NoDup fx.1 -> length fx.1 = length fx.2 ->
  forall (n a : nat) (pre p : list fnum),
    length p = length (filter (fun i => is_fixed fx i = false) (seq a n)) ->
    exists out,
      rebuild_params fx (seq a n) (pre ++ p) (length pre) = Ok out
      /\ length out = n
      /\ omap (fun q : nat * fnum => if is_fixed fx q.1 then None else Some q.2)
              (imap (fun i v => (a + i, v)%nat) out) = p
      /\ (forall j k v, (j < n)%nat -> fx.1 !! k = Some (Z.of_nat (a + j)) ->
            fx.2 !! k = Some v -> out !! j = Some v).
Proof.
  intros Hnd Hlen. induction n as [| n IH]; intros a pre p Hp.
  - destruct p; [| discriminate]. exists []. repeat split; try reflexivity. lia.
  - rewrite free_count_cons in Hp. cbn [seq rebuild_params].
    destruct (is_fixed fx a) eqn:Hfix.
    + destruct (is_fixed_value fx a Hnd Hlen Hfix) as (k0 & v0 & Hk0 & Hv0 & Hvals).
      destruct (IH (S a) pre p Hp) as (out & Hout & Hl & Hfree & Hfixed).
      exists (v0 :: out). rewrite Hvals, Hout. cbn [rbind app].
      split; [reflexivity |]. split; [simpl; lia |]. split.
      * cbn [imap omap list_omap fst snd].
        rewrite Nat.add_0_r, Hfix.
        rewrite imap_shift. exact Hfree.
      * intros [| j] k v Hj Hk Hv.
        -- rewrite Nat.add_0_r in Hk.
           pose proof (NoDup_lookup _ _ _ _ Hnd Hk Hk0) as ->.
           rewrite Hv in Hv0. now injection Hv0 as ->.
        -- simpl. apply (Hfixed j k v); [lia | | exact Hv].
           rewrite Hk. do 2 f_equal. lia.
    + destruct p as [| x p]; [discriminate |]. simpl in Hp. injection Hp as Hp.
      destruct (IH (S a) (pre ++ [x]) p Hp) as (out & Hout & Hl & Hfree & Hfixed).
      rewrite <- app_assoc in Hout. cbn [app] in Hout.
      rewrite length_app in Hout. simpl length in Hout. rewrite Nat.add_1_r in Hout.
      exists (x :: out). unfold get. rewrite lookup_app_r by lia.
      rewrite Nat.sub_diag. cbn [lookup list_lookup rbind]. rewrite Hout. cbn [rbind].
      split; [reflexivity |]. split; [simpl; lia |]. split.
      * cbn [imap omap list_omap fst snd]. rewrite Nat.add_0_r, Hfix.
        rewrite imap_shift. now rewrite Hfree.
      * intros [| j] k v Hj Hk Hv.
        -- exfalso. rewrite Nat.add_0_r in Hk. unfold is_fixed in Hfix.
           apply bool_decide_eq_false in Hfix. apply Hfix.
           eapply list_elem_of_lookup_2; eauto.
        -- simpl. apply (Hfixed j k v); [lia | | exact Hv].
           rewrite Hk. do 2 f_equal. lia.
Qed.

Lemma length_reduce_p0 (fx : fixed_lists) (l : list fnum) : forall a : nat,
  length (omap (fun q : nat * fnum => if is_fixed fx q.1 then None else Some q.2)
               (imap (fun i v => (a + i, v)%nat) l))
  = length (filter (fun i => is_fixed fx i = false) (seq a (length l))).
Proof.
  induction l as [| x l IH]; intros a; [reflexivity |].
  change (length (x :: l)) with (S (length l)). rewrite free_count_cons.
  cbn [imap omap list_omap fst snd]. rewrite Nat.add_0_r, imap_shift.
  destruct (is_fixed fx a); cbn [length]; now rewrite IH.
Qed.

(** X10. With fixed parameters whose indices are distinct, the vector that
    [reduced_func] hands to the model for the free parameters [p] has the
    length of [p0], holds every fixed value at its index, and holds the
    entries of [p], in order, at the other positions: removing the fixed
    positions from it gives back [p]. *)
Theorem reduced_func_rebuilds
    (func : objective) (p0 p : list fnum) (fx : fixed_lists) :
  NoDup fx.1 ->
  length fx.1 = length fx.2 ->
  length p = length (reduce_p0 fx p0) ->
  exists p_new,
    rebuild_params fx (seq 0 (length p0)) p 0 = Ok p_new
    /\ length p_new = length p0
    /\ reduce_p0 fx p_new = p
    /\ (forall (k i : nat) (v : fnum),
          (i < length p0)%nat -> fx.1 !! k = Some (Z.of_nat i) -> fx.2 !! k = Some v ->
          p_new !! i = Some v)
    /\ (forall x : list Q, reduced_func func p0 fx p x = func p_new x).
Proof.
  intros Hnd Hlen Hp.
  destruct (rebuild_params_free fx Hnd Hlen (length p0) 0 [] p) as (out & Hout & Hl & Hfree & Hfix).
  { rewrite Hp. apply (length_reduce_p0 fx p0 0). }
  exists out. split; [exact Hout |]. split; [exact Hl |]. split; [exact Hfree |]. split.
  - intros k i v Hi Hk Hv. now apply (Hfix i k v).
  - intros x. unfold reduced_func. simpl in Hout. now rewrite Hout.
Qed.

Lemma reduced_func_rebuilds_witness :
  exists p_new,
    rebuild_params ([3; 1], [Fin 30; Fin 10]) (seq 0 5) [Fin 1; Fin 2; Fin 3] 0 = Ok p_new
    /\ reduce_p0 ([3; 1], [Fin 30; Fin 10]) p_new = [Fin 1; Fin 2; Fin 3]
    /\ p_new !! 3%nat = Some (Fin 30).
Proof.
  destruct (reduced_func_rebuilds (fun p x => Ok p) (replicate 5 (Fin 0))
              [Fin 1; Fin 2; Fin 3] ([3; 1], [Fin 30; Fin 10]))
    as (p_new & Hnew & _ & Hfree & Hfix & _).
  - apply (bool_decide_unpack _). vm_compute. exact I.
  - reflexivity.
  - reflexivity.
  - exists p_new. split; [exact Hnew |]. split; [exact Hfree |].
    apply (Hfix 0%nat 3%nat (Fin 30)); [simpl; lia | reflexivity | reflexivity].
Defined.

(** ** Putting the fixed rows back *)

Ltac shift_imap :=
  repeat match goal with
         | |- context [imap ((fun i v => (?g i, v)) ∘ S) ?l] =>
             change (imap ((fun i v => (g i, v)) ∘ S) l)
               with (imap (fun i v => ((g ∘ S) i, v)) l)
         end.

Lemma free_at_ext {A} (l : list A) : forall (g g' : nat -> nat) (idx idx' : list Z),
  (forall j, (j < length l)%nat ->
             (Z.of_nat (g j) ∈ idx <-> Z.of_nat (g' j) ∈ idx')) ->
  free_at g idx l = free_at g' idx' l.
Proof.
  induction l as [| x l IH]; intros g g' idx idx' H; [reflexivity |].
  cbn [imap omap list_omap fst snd]. shift_imap.
  rewrite (IH (g ∘ S) (g' ∘ S) idx idx') by (intros j Hj; apply (H (S j)); simpl; lia).
  rewrite (bool_decide_ext (Z.of_nat (g 0%nat) ∈ idx) (Z.of_nat (g' 0%nat) ∈ idx'))
    by (apply (H 0%nat); simpl; lia).
  reflexivity.
Qed.

Lemma free_at_none {A} (l : list A) : forall (g : nat -> nat) (idx : list Z),
  (forall j, (j < length l)%nat -> Z.of_nat (g j) ∉ idx) ->
  free_at g idx l = l.
Proof.
  induction l as [| x l IH]; intros g idx H; [reflexivity |].
  cbn [imap omap list_omap fst snd]. shift_imap.
  rewrite (IH (g ∘ S) idx) by (intros j Hj; apply (H (S j)); simpl; lia).
  rewrite bool_decide_eq_false_2 by (apply (H 0%nat); simpl; lia). reflexivity.
Qed.

Lemma free_at_app {A} (l1 l2 : list A) (g : nat -> nat) (idx : list Z) :
  free_at g idx (l1 ++ l2)
  = free_at g idx l1 ++ free_at (fun j => g (length l1 + j)%nat) idx l2.
Proof.
  revert g. induction l1 as [| x l1 IH]; intros g; [reflexivity |].
  cbn [app imap omap list_omap fst snd]. shift_imap. rewrite (IH (g ∘ S)).
  destruct (bool_decide _); reflexivity.
Qed.

Lemma np_insert_beyond {A} (rows : list A) (i : nat) (row : A) :
  (length rows < i)%nat -> np_insert rows (Z.of_nat i) row = Raise IndexError.
Proof.
  intros Hi. unfold np_insert.
  destruct (Z.ltb_spec (Z.of_nat i) (- Z.of_nat (length rows))); [reflexivity |].
  destruct (Z.ltb_spec (Z.of_nat (length rows)) (Z.of_nat i)); [reflexivity | lia].
Qed.

Lemma np_insert_prefix {A} (pre rows : list A) (i : nat) (row : A) :
  (length pre <= i)%nat ->
  np_insert (pre ++ rows) (Z.of_nat i) row
  = match np_insert rows (Z.of_nat (i - length pre)) row with
    | Ok r => Ok (pre ++ r)
    | Raise e => Raise e
    end.
Proof.
  intros Hi. destruct (le_lt_dec i (length pre + length rows)) as [Hle | Hgt].
  - rewrite !np_insert_ok by (rewrite ?length_app; lia).
    rewrite take_app_ge, drop_app_ge by lia. now rewrite <- app_assoc.
  - rewrite !np_insert_beyond by (rewrite ?length_app; lia). reflexivity.
Qed.

Lemma restore_fixed_prefix (vals : list fnum) (pre : list (fnum * fnum)) (idx : list nat) :
  forall (k : nat) (rows : list (fnum * fnum)),
    Forall (fun i => (length pre <= i)%nat) idx ->
    restore_fixed (map Z.of_nat idx) vals k (pre ++ rows)
    = match restore_fixed (map (fun i => Z.of_nat (i - length pre)) idx) vals k rows with
      | Ok r => Ok (pre ++ r)
      | Raise e => Raise e
      end.
Proof.
  induction idx as [| i idx IH]; intros k rows Hall; [reflexivity |].
  apply Forall_cons in Hall as [Hi Hall].
  cbn [map restore_fixed]. destruct (get vals k) as [v |]; cbn [rbind]; [| reflexivity].
  rewrite np_insert_prefix by exact Hi.
  destruct (np_insert rows (Z.of_nat (i - length pre)) (v, Fin 0)) as [r |];
    cbn [rbind]; [| reflexivity].
  now apply IH.
Qed.

Lemma sorted_head_bound (idx : list nat) : forall (i0 B : nat),
  StronglySorted lt (i0 :: idx) -> Forall (fun i => (i < B)%nat) (i0 :: idx) ->
  (i0 + length idx < B)%nat.
Proof.
  induction idx as [| i1 idx IH]; intros i0 B Hs Hb.
  - apply Forall_inv in Hb. simpl. lia.
  - apply StronglySorted_inv in Hs as [Hs Hlt]. apply Forall_inv in Hlt.
    apply Forall_cons in Hb as [_ Hb]. specialize (IH i1 B Hs Hb). simpl. lia.
Qed.

Lemma restore_fixed_sorted (vals : list fnum) : forall (n : nat) (idx : list nat)
    (k : nat) (rows : list (fnum * fnum)),
  length idx = n ->
  StronglySorted lt idx ->
  Forall (fun i => (i < length rows + length idx)%nat) idx ->
  (k + length idx <= length vals)%nat ->
  exists full,
    restore_fixed (map Z.of_nat idx) vals k rows = Ok full
    /\ length full = (length rows + length idx)%nat
    /\ (forall m i v, idx !! m = Some i -> vals !! (k + m)%nat = Some v ->
          full !! i = Some (v, Fin 0))
    /\ free_at (fun j => j) (map Z.of_nat idx) full = rows.
Proof.
  induction n as [| n IH]; intros idx k rows Hn Hs Hb Hv.
  - destruct idx; [| discriminate]. exists rows. split; [reflexivity |].
    split; [simpl; lia |]. split; [intros; discriminate |].
    apply free_at_none. intros j _. apply not_elem_of_nil.
  - destruct idx as [| i0 idx]; [discriminate |]. simpl in Hn. injection Hn as Hn.
    pose proof (sorted_head_bound idx i0 _ Hs Hb) as Hi0. simpl length in Hi0.
    pose proof Hs as Hs0. apply StronglySorted_inv in Hs0 as [Hs' Hlt].
    destruct (lookup_lt_is_Some_2 vals k) as [v0 Hv0]; [simpl in Hv; lia |].
    cbn [map restore_fixed]. apply get_ok in Hv0. rewrite Hv0. cbn [rbind].
    rewrite np_insert_ok by lia. cbn [rbind].
    replace (take i0 rows ++ (v0, Fin 0) :: drop i0 rows)
      with ((take i0 rows ++ [(v0, Fin 0)]) ++ drop i0 rows)
      by (now rewrite <- app_assoc).
    set (pre := take i0 rows ++ [(v0, Fin 0)]).
    assert (length pre = S i0) as Hpre.
    { unfold pre. rewrite length_app, length_take. simpl. lia. }
    rewrite restore_fixed_prefix
      by (rewrite Hpre; eapply Forall_impl; [exact Hlt | simpl; intros; lia]).
    rewrite Hpre.
    destruct (IH (map (fun i => (i - S i0)%nat) idx) (S k) (drop i0 rows))
      as (rest & Hrest & Hlrest & Hfix & Hfree).
    { now rewrite length_map. }
    { clear -Hs' Hlt. induction Hs' as [| i1 idx Hs' IHs Hall]; [constructor |].
      apply Forall_cons in Hlt as [H1 Hlt]. simpl. constructor; [now apply IHs |].
      apply Forall_fmap. apply Forall_forall. intros i Hi.
      rewrite Forall_forall in Hall, Hlt. specialize (Hall i Hi). specialize (Hlt i Hi).
      simpl. lia. }
    { rewrite length_map, length_drop. apply Forall_fmap.
      apply Forall_cons in Hb as [_ Hb].
      apply Forall_forall. intros i Hi. rewrite Forall_forall in Hb, Hlt.
      specialize (Hb i Hi). specialize (Hlt i Hi). simpl in *. lia. }
    { rewrite length_map. simpl in Hv. lia. }
    rewrite map_map in Hrest. rewrite Hrest.
    rewrite length_map, length_drop in Hlrest.
    exists (pre ++ rest). split; [reflexivity |].
    split; [rewrite length_app, Hpre, Hlrest; simpl; lia |]. split.
    + intros [| m] i v Hm Hvm; simpl in Hm.
      * injection Hm as <-. rewrite Nat.add_0_r in Hvm. apply get_ok in Hv0.
        rewrite Hv0 in Hvm. injection Hvm as <-.
        rewrite lookup_app_l by lia. unfold pre.
        rewrite lookup_app_r by (rewrite length_take; lia).
        rewrite length_take. replace (i0 - i0 `min` length rows)%nat with 0%nat by lia.
        reflexivity.
      * assert (i0 < i)%nat as Hlti.
        { rewrite Forall_forall in Hlt. apply Hlt. eapply list_elem_of_lookup_2; eauto. }
        rewrite lookup_app_r by lia. rewrite Hpre.
        apply (Hfix m (i - S i0)%nat v).
        -- now rewrite list_lookup_fmap, Hm.
        -- rewrite <- Hvm. f_equal. lia.
    + rewrite free_at_app. rewrite Hpre.
      rewrite (free_at_ext rest (fun j => (S i0 + j)%nat) (fun j => j)
                 (Z.of_nat i0 :: map Z.of_nat idx)
                 (map Z.of_nat (map (fun i => (i - S i0)%nat) idx))).
      2:{ intros j _. rewrite elem_of_cons. split.
          - intros [E | Hin]; [lia |].
            apply list_elem_of_fmap in Hin as (i & E & Hin).
            apply list_elem_of_fmap. exists (i - S i0)%nat. split; [lia |].
            apply list_elem_of_fmap. now exists i.
          - intros Hin. right.
            apply list_elem_of_fmap in Hin as (i' & E & Hin).
            apply list_elem_of_fmap in Hin as (i & -> & Hin).
            apply list_elem_of_fmap. exists i. split; [| exact Hin].
            rewrite Forall_forall in Hlt. specialize (Hlt i Hin). lia. }
      rewrite Hfree. unfold pre. rewrite free_at_app.
      rewrite free_at_none.
      2:{ intros j Hj. rewrite length_take in Hj. rewrite elem_of_cons.
          intros [E | Hin]; [lia |].
          apply list_elem_of_fmap in Hin as (i & E & Hin).
          rewrite Forall_forall in Hlt. specialize (Hlt i Hin). lia. }
      cbn [imap omap list_omap fst snd]. rewrite length_take.
      rewrite bool_decide_eq_true_2 by (apply elem_of_cons; left; lia).
      rewrite app_nil_r. apply take_drop.
Qed.

(** X11. When the fixed parameters are listed by increasing index, the loop
    that puts them back gives an array holding the row [value, 0] of every
    fixed parameter at its index and the fitted rows, in order, at the other
    positions. *)
Theorem fixed_rows_restored_in_order
    (idx : list nat) (vals : list fnum) (rows : list (fnum * fnum)) :
  StronglySorted lt idx ->
  Forall (fun i => (i < length rows + length idx)%nat) idx ->
  length idx = length vals ->
  exists full,
    restore_fixed (map Z.of_nat idx) vals 0 rows = Ok full
    /\ length full = (length rows + length idx)%nat
    /\ (forall m i v, idx !! m = Some i -> vals !! m = Some v ->
          full !! i = Some (v, Fin 0))
    /\ free_part (map Z.of_nat idx) full = rows.
Proof.
  intros Hs Hb Hl.
  destruct (restore_fixed_sorted vals (length idx) idx 0 rows eq_refl Hs Hb)
    as (full & Hfull & Hlen & Hfix & Hfree); [lia |].
  exists full. split; [exact Hfull |]. split; [exact Hlen |]. split.
  - intros m i v Hm Hv. now apply (Hfix m i v).
  - exact Hfree.
Qed.

Lemma fixed_rows_restored_in_order_witness :
  exists full,
    restore_fixed [0; 2] [Fin 9; Fin 7] 0 (replicate 4 (Fin 1, Fin 1)) = Ok full
    /\ full !! 2%nat = Some (Fin 7, Fin 0)
    /\ free_part [0; 2] full = replicate 4 (Fin 1, Fin 1).
Proof.
  destruct (fixed_rows_restored_in_order [0%nat; 2%nat] [Fin 9; Fin 7]
              (replicate 4 (Fin 1, Fin 1))) as (full & Hfull & _ & Hfix & Hfree).
  - repeat constructor; lia.
  - repeat constructor; simpl; lia.
  - reflexivity.
  - exists full. split; [exact Hfull |]. split; [| exact Hfree].
    apply (Hfix 1%nat 2%nat (Fin 7)); reflexivity.
Defined.

(** ** What a fit leaves alone *)

Lemma fit_slot_frame least_squares func p0_func slice_func bound_func config fixed_param
    (idx : nat) (P : Histogram -> Prop) :
  (forall h f, P h -> P (set_fit_result h f)) ->
  (forall h c, P h -> P (set_fit_chi2_ndof h c)) ->
  (forall h l msg, P h -> P (log_msg h l msg)) ->
  triple P
         (fit_slot least_squares func p0_func slice_func bound_func config fixed_param idx)
         (fun _ => P) P.
Proof.
  intros Hres Hchi Hlog. unfold fit_slot. cbv zeta.
  assert (triple P
            (row <- (fun h => (get (data h) idx, h)) ;;
             cs <- gets bin_centers ;;
             cfg <- lift (config_of config idx) ;;
             ret (row, cs, cfg))
            (fun _ => P) P) as Hinputs.
  { eapply triple_bind; [apply triple_read |]. intros row.
    eapply triple_bind; [apply triple_gets with (Q := fun _ => P); auto |]. intros cs.
    eapply triple_bind; [apply triple_lift with (Q := fun _ => P); auto |]. intros cfg.
    apply triple_ret. auto. }
  eapply triple_bind with (Q := fun _ => P); [apply triple_gets; auto |]. intros fr.
  eapply triple_bind with (Q := fun _ => P).
  { destruct fr; [apply triple_ret; auto |].
    eapply triple_bind; [exact Hinputs |]. intros [[row cs] cfg].
    eapply triple_bind; [apply triple_lift with (Q := fun _ => P); auto |]. intros p0.
    eapply triple_bind; [apply triple_gets with (Q := fun _ => P); auto |]. intros n.
    apply triple_modify. intros h Hh. now apply Hres. }
  intros ?.
  eapply triple_bind with (Q := fun _ => P); [apply triple_gets; auto |]. intros chi.
  eapply triple_bind with (Q := fun _ => P).
  { destruct chi; [apply triple_ret; auto |].
    eapply triple_bind; [apply triple_gets with (Q := fun _ => P); auto |]. intros n.
    apply triple_modify. intros h Hh. now apply Hchi. }
  intros ?.
  eapply triple_bind; [apply triple_lift with (Q := fun _ => P); auto |].
  intros list_fixed_param.
  eapply triple_bind; [exact Hinputs |]. intros [[row cs] cfg].
  eapply triple_bind; [apply triple_lift with (Q := fun _ => P); auto |]. intros p0.
  eapply triple_bind; [apply triple_lift with (Q := fun _ => P); auto |]. intros sl.
  eapply triple_bind; [apply triple_lift with (Q := fun _ => P); auto |]. intros bounds.
  eapply triple_bind; [apply axis_fit_logs_only; exact Hlog |].
  intros [[fit_res chi2] ndof].
  eapply triple_bind with (Q := fun _ => P); [apply triple_gets; auto |]. intros fr'.
  eapply triple_bind with (Q := fun _ => P).
  { destruct fr'; [| apply triple_throw; auto].
    eapply triple_bind; [apply triple_lift with (Q := fun _ => P); auto |]. intros ?.
    apply triple_modify. intros h Hh. now apply Hres. }
  intros ?.
  eapply triple_bind with (Q := fun _ => P); [apply triple_gets; auto |]. intros chi'.
  destruct chi'; [| apply triple_throw; auto].
  eapply triple_bind; [apply triple_lift with (Q := fun _ => P); auto |]. intros ?.
  apply triple_modify. intros h Hh. now apply Hchi.
Qed.

(** X12. [fit] changes nothing of the histogram itself: the bin contents,
    the errors, the axis, the underflow and overflow counts and the labels
    of the axes are after the call what they were before, whether it returns
    or raises; the log only grows, and the fit function is recorded. *)
Theorem fit_leaves_histogram
    (least_squares : objective -> list fnum -> list Q -> list Q -> list rnum ->
                     list fnum * list fnum -> result lsq_out)
    (func : pyfunc) (p0_func : guess_fn) (slice_func : slice_fn) (bound_func : bounds_fn)
    (labels_func : option labels_fn) (config : option (list config_slot))
    (limited_indices : option (list nat)) (fixed_param : list (Z * fixed_value))
    (h : Histogram) :
  let h' := (fit least_squares func p0_func slice_func bound_func labels_func config
                 limited_indices fixed_param h).2 in
  same_histogram h h'
  /\ fit_function h' = Some func
  /\ exists msgs, logger h' = logger h ++ msgs.
Proof.
  set (P := fun h' : Histogram =>
              same_histogram h h' /\ fit_function h' = Some func
              /\ exists msgs, logger h' = logger h ++ msgs).
  assert (forall h1 f, P h1 -> P (set_fit_result h1 f)) as Hres by (intros ? ? H; exact H).
  assert (forall h1 c, P h1 -> P (set_fit_chi2_ndof h1 c)) as Hchi
    by (intros ? ? H; exact H).
  assert (forall h1 l msg, P h1 -> P (log_msg h1 l msg)) as Hlog.
  { intros h1 l msg (Hs & Hf & msgs & Hm). split; [exact Hs |]. split; [exact Hf |].
    exists (msgs ++ [(l, msg)]). simpl. now rewrite Hm, app_assoc. }
  assert (triple (fun h0 => h0 = h)
            (fit least_squares func p0_func slice_func bound_func labels_func config
                 limited_indices fixed_param)
            (fun _ => P) P) as Hfit.
  { unfold fit.
    eapply triple_bind with (Q := fun _ => P).
    { apply triple_modify. intros h0 ->. unfold P, same_histogram. simpl.
      repeat split. exists []. now rewrite app_nil_r. }
    intros ?.
    eapply triple_bind with (Q := fun _ => P).
    { destruct labels_func; [apply triple_lift; auto | apply triple_throw; auto]. }
    intros labels.
    eapply triple_bind with (Q := fun _ => P).
    { apply triple_modify. intros h1 H. exact H. }
    intros ?.
    eapply triple_bind with (Q := fun _ => P); [apply triple_gets; auto |].
    intros n. apply triple_forM_. intros idx. now apply fit_slot_frame. }
  intros h'. subst h'. specialize (Hfit h eq_refl).
  destruct (fit _ _ _ _ _ _ _ _ _ h) as [[[] | e] h']; exact Hfit.
Qed.

(** ** Fitting some of the slots again *)

Lemma triple_forM_in {A} (P E : Histogram -> Prop) (l : list A) (body : A -> M unit) :
  (forall a, a ∈ l -> triple P (body a) (fun _ => P) E) ->
  triple P (forM_ l body) (fun _ => P) E.
Proof.
  induction l as [| a l IH]; intros Hbody; simpl.
  - now apply triple_ret.
  - eapply triple_bind; [apply Hbody; now left |].
    intros ?. apply IH. intros b Hb. apply Hbody. now right.
Qed.

(** X13. Fitting again the slots listed in [limited_indices] leaves the
    results of the other slots in place: when [fit] returns, every slot that
    was not listed holds the rows it held before, followed by rows of zeros
    if the array had to grow. *)
Theorem refit_keeps_other_slots
    (least_squares : objective -> list fnum -> list Q -> list Q -> list rnum ->
                     list fnum * list fnum -> result lsq_out)
    (func : pyfunc) (p0_func : guess_fn) (slice_func : slice_fn) (bound_func : bounds_fn)
    (labels_func : option labels_fn) (config : option (list config_slot))
    (limited_indices : list nat) (fixed_param : list (Z * fixed_value))
    (h h' : Histogram) (fr : fit_array) :
  fit_result h = Some fr ->
  rectangular fr ->
  limited_indices <> [] ->
  fit least_squares func p0_func slice_func bound_func labels_func config
      (Some limited_indices) fixed_param h = (Ok tt, h') ->
  exists fr',
    fit_result h' = Some fr'
    /\ rectangular fr'
    /\ length (fit_slots fr') = length (fit_slots fr)
    /\ (n_par fr <= n_par fr')%nat
    /\ (forall (s : nat) (rows : list (fnum * fnum)),
          s ∉ limited_indices ->
          fit_slots fr !! s = Some rows ->
          fit_slots fr' !! s
          = Some (rows ++ replicate (n_par fr' - n_par fr)%nat zero_row)).
Proof.
  intros Hfr Hrect Hne Hfit.
  set (Inv := fun h1 : Histogram =>
         exists fr1,
           fit_result h1 = Some fr1
           /\ rectangular fr1
           /\ length (fit_slots fr1) = length (fit_slots fr)
           /\ (n_par fr <= n_par fr1)%nat
           /\ (forall (s : nat) (rows : list (fnum * fnum)),
                 s ∉ limited_indices ->
                 fit_slots fr !! s = Some rows ->
                 fit_slots fr1 !! s
                 = Some (rows ++ replicate (n_par fr1 - n_par fr)%nat zero_row))).
  assert (forall h1, fit_result h1 = Some fr -> Inv h1) as Hinit.
  { intros h1 H1. exists fr. split; [exact H1 |]. split; [exact Hrect |].
    split; [reflexivity |]. split; [lia |].
    intros s rows _ Hrows. rewrite Nat.sub_diag. simpl. now rewrite app_nil_r. }
  assert (triple (fun h0 => h0 = h)
            (fit least_squares func p0_func slice_func bound_func labels_func config
                 (Some limited_indices) fixed_param)
            (fun _ => Inv) (fun _ => True)) as Htriple.
  { unfold fit.
    eapply triple_bind with (Q := fun _ => Inv).
    { apply triple_modify. intros h0 ->. now apply Hinit. }
    intros ?.
    eapply triple_bind with (Q := fun _ => Inv).
    { destruct labels_func; [apply triple_lift; auto | apply triple_throw; auto]. }
    intros labels.
    eapply triple_bind with (Q := fun _ => Inv).
    { apply triple_modify. intros h1 H. exact H. }
    intros ?.
    eapply triple_bind with (Q := fun _ => Inv); [apply triple_gets; auto |].
    intros n.
    assert (match limited_indices with
            | [] => seq 0 n
            | _ :: _ => limited_indices
            end = limited_indices) as Hl
      by (destruct limited_indices; [contradiction | reflexivity]).
    cbv beta iota zeta. rewrite Hl. apply triple_forM_in. intros idx Hidx h1 (fr1 & H1 & Hr1 & Hl1 & Hn1 & Hkeep).
    pose proof (fit_slot_triple least_squares func p0_func slice_func bound_func config
                  fixed_param idx (Some fr1) Hr1 h1 H1) as Hslot.
    destruct (fit_slot _ _ _ _ _ _ _ _ h1) as [[[] | e] h2]; [| exact I].
    destruct Hslot as (fr0 & res & Halloc & Hlt & H2).
    destruct Halloc as [[= <-] | [[=] _]].
    destruct (store_result_spec fr1 idx res Hr1 Hlt) as (Hr2 & Hn2 & Hl2 & _ & Hother).
    exists (store_result fr1 idx res).
    split; [exact H2 |]. split; [exact Hr2 |]. split; [congruence |].
    split; [rewrite Hn2; lia |].
    intros s rows Hs Hrows.
    rewrite (Hother s _ ltac:(intros ->; now apply Hs) (Hkeep s rows Hs Hrows)).
    rewrite <- app_assoc, <- replicate_add. do 3 f_equal. rewrite Hn2. lia. }
  specialize (Htriple h eq_refl). rewrite Hfit in Htriple. exact Htriple.
Qed.

Lemma refit_keeps_other_slots_witness :
  exists fr',
    fit_result
      (fit lsq_identity model_f guess_6_or_8 whole_axis no_bounds
           (Some LowLight.label_func) None (Some [1%nat]) [] store_A_B_allocated).2
    = Some fr'
    /\ fit_slots fr' !! 0%nat = Some (nan_rows 6 ++ replicate (n_par fr' - 6)%nat zero_row).
Proof.
  destruct (refit_keeps_other_slots lsq_identity model_f guess_6_or_8 whole_axis
              no_bounds (Some LowLight.label_func) None [1%nat] [] store_A_B_allocated
              (fit lsq_identity model_f guess_6_or_8 whole_axis no_bounds
                   (Some LowLight.label_func) None (Some [1%nat]) []
                   store_A_B_allocated).2
              {| n_par := 6; fit_slots := [nan_rows 6; nan_rows 6] |})
    as (fr' & Hfr' & _ & _ & _ & Hkeep).
  - reflexivity.
  - repeat constructor.
  - discriminate.
  - vm_compute. reflexivity.
  - exists fr'. split; [exact Hfr' |].
    apply (Hkeep 0%nat (nan_rows 6)); [| reflexivity].
    intros Hin. apply list_elem_of_singleton in Hin. discriminate.
Defined.

(** ** The window of the fit *)

Lemma nonzero_positions_from (y : list Q) : forall (a : nat),
  let nz := omap (fun p : nat * Q => if Qeq_bool p.2 0 then None else Some p.1)
                 (imap (fun i v => ((a + i)%nat, v)) y) in
  StronglySorted lt nz
  /\ forall i, i ∈ nz <-> (a <= i)%nat
                          /\ exists v, y !! (i - a)%nat = Some v /\ Qeq_bool v 0 = false.
Proof.
  induction y as [| v y IH]; intros a nz.
  - split; [constructor |]. intros i. split; [intros H; inversion H |].
    intros (_ & w & Hw & _). discriminate.
  - subst nz. cbn [imap omap list_omap fst snd].
    assert (imap ((fun i v => ((a + i)%nat, v)) ∘ S) y
            = imap (fun i v => ((S a + i)%nat, v)) y) as ->
      by (apply imap_ext; intros i w _; simpl; f_equal; lia).
    destruct (IH (S a)) as [Hs Hin]. rewrite Nat.add_0_r.
    destruct (Qeq_bool v 0) eqn:Hv.
    + split; [exact Hs |]. intros i. rewrite Hin. split.
      * intros (Hle & w & Hw & Hnz). split; [lia |]. exists w. split; [| exact Hnz].
        replace (i - a)%nat with (S (i - S a)) by lia. exact Hw.
      * intros (Hle & w & Hw & Hnz).
        destruct (decide (i = a)) as [-> | Hne].
        { rewrite Nat.sub_diag in Hw. simpl in Hw. injection Hw as <-. congruence. }
        split; [lia |]. exists w. split; [| exact Hnz].
        replace (i - a)%nat with (S (i - S a)) in Hw by lia. exact Hw.
    + split.
      * constructor; [exact Hs |]. apply Forall_forall. intros i Hi.
        apply Hin in Hi as [Hle _]. lia.
      * intros i. rewrite elem_of_cons, Hin. split.
        -- intros [-> | (Hle & w & Hw & Hnz)].
           ++ split; [lia |]. exists v. rewrite Nat.sub_diag. split; [reflexivity | exact Hv].
           ++ split; [lia |]. exists w. split; [| exact Hnz].
              replace (i - a)%nat with (S (i - S a)) by lia. exact Hw.
        -- intros (Hle & w & Hw & Hnz).
           destruct (decide (i = a)) as [-> | Hne]; [now left |]. right.
           split; [lia |]. exists w. split; [| exact Hnz].
           replace (i - a)%nat with (S (i - S a)) in Hw by lia. exact Hw.
Qed.

Lemma nonzero_positions_spec (y : list Q) :
  StronglySorted lt (nonzero_positions y)
  /\ forall i, i ∈ nonzero_positions y
               <-> exists v, y !! i = Some v /\ Qeq_bool v 0 = false.
Proof.
  destruct (nonzero_positions_from y 0) as [Hs Hin]. split; [exact Hs |].
  intros i. unfold nonzero_positions. rewrite (Hin i), Nat.sub_0_r. split.
  - intros [_ H]. exact H.
  - intros H. split; [lia | exact H].
Qed.

Lemma sorted_first_last (l : list nat) (i0 il : nat) :
  StronglySorted lt l -> l !! 0%nat = Some i0 -> last l = Some il ->
  (i0 <= il)%nat /\ forall i, i ∈ l -> (i0 <= i <= il)%nat.
Proof.
  intros Hs. revert i0 il. induction Hs as [| i l Hs IH Hall]; intros i0 il H0 Hl.
  - discriminate.
  - simpl in H0. injection H0 as ->.
    destruct l as [| i1 l].
    + simpl in Hl. injection Hl as <-. split; [lia |].
      intros i Hi. apply list_elem_of_singleton in Hi. lia.
    + change (last (i0 :: i1 :: l)) with (last (i1 :: l)) in Hl.
      destruct (IH i1 il eq_refl Hl) as [Hle Hin].
      pose proof (Forall_inv Hall) as H1.
      split; [lia |]. intros i Hi. apply elem_of_cons in Hi as [-> | Hi]; [lia |].
      specialize (Hin i Hi). lia.
Qed.

Lemma range_up_seq (fuel : nat) : forall (a k : nat),
  (k <= fuel)%nat ->
  range_up fuel (Z.of_nat a) (Z.of_nat (a + k)) 1 = seq a k.
Proof.
  induction fuel as [| fuel IH]; intros a k Hk.
  - replace k with 0%nat by lia. reflexivity.
  - cbn [range_up]. destruct (Z.ltb_spec (Z.of_nat a) (Z.of_nat (a + k))) as [Hlt | Hge].
    + destruct k as [| k]; [lia |]. rewrite Nat2Z.id. cbn [seq]. f_equal.
      replace (Z.of_nat a + 1) with (Z.of_nat (S a)) by lia.
      replace (a + S k)%nat with (S a + k)%nat by lia. apply IH. lia.
    + replace k with 0%nat by lia. reflexivity.
Qed.

Lemma lookup_seq_take_drop {A} (l : list A) : forall (k a : nat),
  (a + k <= length l)%nat ->
  omap (fun i => l !! i) (seq a k) = take k (drop a l).
Proof.
  induction k as [| k IH]; intros a Hk; [reflexivity |].
  cbn [seq omap list_omap].
  destruct (lookup_lt_is_Some_2 l a) as [x Hx]; [lia |].
  rewrite Hx. change (omap (fun i => l !! i) (seq (S a) k))
    with (omap (fun i => l !! i) (seq (S a) k)).
  rewrite (IH (S a)) by lia.
  rewrite (drop_S l x a Hx). reflexivity.
Qed.

(** [l[a:b:1]] for [0 <= a <= b <= len(l)]. *)
Lemma py_slice_window {A} (l : list A) (a b : nat) :
  (a <= b <= length l)%nat ->
  py_slice l (Z.of_nat a) (Z.of_nat b) 1 = Ok (take (b - a) (drop a l)).
Proof.
  intros Hab. unfold py_slice. cbn [Z.eqb]. cbv zeta.
  destruct (Z.ltb_spec (Z.of_nat a) 0); [lia |].
  destruct (Z.ltb_spec (Z.of_nat b) 0); [lia |]. cbn [Z.ltb Z.compare].
  unfold clampZ. rewrite !Z.min_r, !Z.max_r by lia.
  replace b with (a + (b - a))%nat at 1 by lia.
  rewrite range_up_seq by lia. f_equal. apply lookup_seq_take_drop. lia.
Qed.

Lemma py_index_first {A} (l : list A) (a : A) :
  l !! 0%nat = Some a -> py_index l 0 = Ok a.
Proof.
  intros H. unfold py_index. cbn [Z.ltb Z.compare Z.leb].
  destruct l as [| x l]; [discriminate |]. simpl in H. injection H as ->.
  destruct (Z.ltb_spec 0 (Z.of_nat (length (a :: l)))); [reflexivity |].
  simpl length in *. lia.
Qed.

Lemma py_index_last {A} (l : list A) (a : A) :
  last l = Some a -> py_index l (-1) = Ok a.
Proof.
  intros H. unfold py_index. cbn [Z.ltb Z.compare].
  assert (0 < length l)%nat by (destruct l; [discriminate | simpl; lia]).
  destruct (Z.leb_spec 0 (-1 + Z.of_nat (length l))); [| lia].
  destruct (Z.ltb_spec (-1 + Z.of_nat (length l)) (Z.of_nat (length l))); [| lia].
  cbn [andb]. rewrite last_lookup in H.
  replace (Z.to_nat (-1 + Z.of_nat (length l))) with (pred (length l)) by lia.
  now rewrite H.
Qed.

(** X14. On a slot holding counts, the low-light [slice_func] returns the
    positions of the first and of the last bin that is not empty; every bin
    outside them is empty; and, the stop of a slice being excluded, the
    window [y[first:last]] handed to the optimizer leaves the last bin that
    is not empty out (with one such bin only, the window is empty). *)
Theorem low_light_window (y x : list Q) (cfg : option config_slot)
    (i0 il : nat) :
  nonzero_positions y !! 0%nat = Some i0 ->
  last (nonzero_positions y) = Some il ->
  LowLight.slice_func y x cfg = Ok (Z.of_nat i0, Z.of_nat il, 1)
  /\ (i0 <= il < length y)%nat
  /\ (forall j v, y !! j = Some v -> (j < i0 \/ il < j)%nat -> Qeq_bool v 0 = true)
  /\ (exists v0 vl, y !! i0 = Some v0 /\ Qeq_bool v0 0 = false
                    /\ y !! il = Some vl /\ Qeq_bool vl 0 = false)
  /\ py_slice y (Z.of_nat i0) (Z.of_nat il) 1 = Ok (take (il - i0) (drop i0 y)).
Proof.
  intros H0 Hl.
  destruct (nonzero_positions_spec y) as [Hs Hin].
  destruct (sorted_first_last _ _ _ Hs H0 Hl) as [Hle Hrange].
  assert (il ∈ nonzero_positions y) as Hil.
  { rewrite last_lookup in Hl. eapply list_elem_of_lookup_2; eauto. }
  assert (i0 ∈ nonzero_positions y) as Hi0 by (eapply list_elem_of_lookup_2; eauto).
  pose proof Hil as Hil'. apply Hin in Hil' as (vl & Hvl & Hnzl).
  pose proof Hi0 as Hi0'. apply Hin in Hi0' as (v0 & Hv0 & Hnz0).
  assert (il < length y)%nat as Hlt by (eapply lookup_lt_Some; eauto).
  split; [| split; [lia | split; [| split]]].
  - unfold LowLight.slice_func.
    rewrite (py_index_first _ (Z.of_nat i0)) by (now rewrite list_lookup_fmap, H0).
    cbn [rbind].
    rewrite (py_index_last _ (Z.of_nat il)) by (now rewrite fmap_last, Hl).
    reflexivity.
  - intros j v Hj Hout. destruct (Qeq_bool v 0) eqn:Hv; [reflexivity |].
    exfalso. assert (j ∈ nonzero_positions y) as Hjin by (apply Hin; eauto).
    specialize (Hrange j Hjin). lia.
  - exists v0, vl. repeat split; assumption.
  - apply py_slice_window. lia.
Qed.

Lemma low_light_window_witness :
  LowLight.slice_func [0; 3; 0; 2; 0]%Q [10; 11; 12; 13; 14]%Q None = Ok (1, 3, 1)
  /\ py_slice [0; 3; 0; 2; 0]%Q 1 3 1 = Ok [3; 0]%Q.
Proof.
  destruct (low_light_window [0; 3; 0; 2; 0]%Q [10; 11; 12; 13; 14]%Q None 1 3)
    as (Hslice & _ & _ & _ & Hwin); [reflexivity | reflexivity |].
  split; [exact Hslice | exact Hwin].
Defined.

(** X15. The high-light [slice_func] never raises: it looks at the bin
    centers, not at the bin contents, and returns [0, 1, 1] when no center
    differs from zero, the positions of the first and of the last center that
    differ from zero otherwise. *)
Theorem high_light_slice (y x : list Q) (cfg : option config_slot) :
  is_ok (HighLight.slice_func y x cfg) = true
  /\ (nonzero_positions x = [] -> HighLight.slice_func y x cfg = Ok (0, 1, 1))
  /\ (forall i0 il : nat,
         nonzero_positions x !! 0%nat = Some i0 ->
         last (nonzero_positions x) = Some il ->
         HighLight.slice_func y x cfg = Ok (Z.of_nat i0, Z.of_nat il, 1)
         /\ (i0 <= il < length x)%nat).
Proof.
  assert (forall i0 il : nat,
             nonzero_positions x !! 0%nat = Some i0 ->
             last (nonzero_positions x) = Some il ->
             HighLight.slice_func y x cfg = Ok (Z.of_nat i0, Z.of_nat il, 1)) as Hsome.
  { intros i0 il H0 Hl. unfold HighLight.slice_func.
    destruct (decide _) as [E | _].
    { rewrite length_map in E. destruct (nonzero_positions x); discriminate. }
    rewrite (py_index_first _ (Z.of_nat i0)) by (now rewrite list_lookup_fmap, H0).
    cbn [rbind].
    rewrite (py_index_last _ (Z.of_nat il)) by (now rewrite fmap_last, Hl).
    reflexivity. }
  assert (nonzero_positions x = [] -> HighLight.slice_func y x cfg = Ok (0, 1, 1)) as Hnone.
  { intros E. unfold HighLight.slice_func. now rewrite E. }
  split; [| split; [exact Hnone |]].
  - destruct (nonzero_positions x) as [| i0 nz] eqn:E.
    + now rewrite Hnone.
    + destruct (last (i0 :: nz)) as [il |] eqn:Hl.
      * now rewrite (Hsome i0 il eq_refl eq_refl).
      * apply last_None in Hl. discriminate.
  - intros i0 il H0 Hl. split; [now apply Hsome |].
    destruct (nonzero_positions_spec x) as [Hs Hin].
    destruct (sorted_first_last _ _ _ Hs H0 Hl) as [Hle _].
    assert (il ∈ nonzero_positions x) as Hil.
    { rewrite last_lookup in Hl. eapply list_elem_of_lookup_2; eauto. }
    apply Hin in Hil as (vl & Hvl & _).
    apply lookup_lt_Some in Hvl. lia.
Qed.

Lemma high_light_slice_witness :
  HighLight.slice_func [5; 0; 0; 0]%Q [0; 1; 2; 3]%Q None = Ok (1, 3, 1).
Proof.
  apply (proj2 (proj2 (high_light_slice [5; 0; 0; 0]%Q [0; 1; 2; 3]%Q None)) 1%nat 3%nat);
    reflexivity.
Defined.

(** ** The warm-start guess and its bounds *)











(** ** Where [save] writes, and what [load] finds *)

Section SaveAndLoad.

Import Persistence.

Lemma head_of_path_no_slash (s : string) :
  has_slash s = false -> head_of_path s = None.
Proof.
  induction s as [| c s IH]; [reflexivity |]. simpl. intros H.
  apply orb_false_iff in H as [Hc Hs]. now rewrite (IH Hs), Hc.
Qed.

(** X17. A file name without a directory part cannot be saved to: the
    directory name of such a path is the empty string, which is no directory,
    and [save] raises [FileNotFoundError] before writing anything. *)
Theorem save_bare_file_name
    (fs : filesystem) (hp : heap) (self : object) (filename : string) :
  has_slash filename = false ->
  "" ∉ dirs fs ->
  dirname filename = ""
  /\ save fs hp self filename = Raise FileNotFoundError.
Proof.
  intros Hbare Hempty.
  assert (dirname filename = "") as Hd.
  { unfold dirname. now rewrite head_of_path_no_slash. }
  split; [exact Hd |]. unfold save, isdir. rewrite Hd.
  now rewrite bool_decide_eq_false_2.
Qed.

Lemma save_bare_file_name_witness :
  save example_fs example_heap (example_object "model_f") "h.npz"
  = Raise FileNotFoundError.
Proof.
  apply (save_bare_file_name example_fs example_heap (example_object "model_f") "h.npz").
  - reflexivity.
  - unfold example_fs. cbn [dirs]. apply not_elem_of_singleton. discriminate.
Defined.

Lemma save_writes (fs fs' : filesystem) (hp : heap) (self : object) (filename : string) :
  save fs hp self filename = Ok fs' ->
  exists fit_func arrays,
    fit_func_name self = Ok fit_func
    /\ build_archive hp self fit_func save_plan = Ok arrays
    /\ fs' = np_savez_compressed fs filename arrays.
Proof.
  unfold save.
  destruct (negb (isdir fs (dirname filename))); [discriminate |].
  destruct (fit_func_name self) as [fit_func |] eqn:Hfn; cbn [rbind]; [| discriminate].
  destruct (build_archive hp self fit_func save_plan) as [arrays |] eqn:Hb;
    [| discriminate].
  intros [= <-]. exists fit_func, arrays. repeat split; assumption.
Qed.

(** Loading, by a plan made of assignments of [load], the archive that
    [save] builds. *)
Lemma load_saved_archive (hp : heap) (self other : object) (fit_func : string)
    (arrays : archive) (plan : list (string * string * loaded_as)) :
  (forall e, e ∈ plan -> e ∈ load_plan) ->
  NoDup (plan_attrs plan) ->
  build_archive hp self fit_func save_plan = Ok arrays ->
  exists (other' : object) (hp' : heap),
    load_all true arrays (other, hp) plan = Ok (other', hp')
    /\ hp ⊆ hp'
    /\ (forall name, name ∉ plan_attrs plan -> other' !! name = other !! name)
    /\ (forall name, name ∈ plan_attrs plan -> name <> "fit_function_name"%string ->
          is_Some (content hp self name)
          /\ content hp' other' name = content hp self name)
    /\ (forall name l, name ∈ plan_attrs plan -> other' !! name = Some (PRef l) ->
          l ∉ dom hp).
Proof.
  intros Hsub Hnd Hbuild.
  pose proof (build_archive_spec hp self fit_func save_plan arrays
                save_plan_keys_NoDup Hbuild) as Hsaved.
  assert (forall attr key how, (attr, key, how) ∈ plan ->
            exists a v, arrays !! key = Some a /\ has_object a && negb true = false
                        /\ loaded_value how a = Ok v) as Hloadable.
  { intros attr key how Hin.
    destruct (plans_agree attr key how (Hsub _ Hin)) as (how_s & Hin_s & Hun & _).
    destruct (Hsaved key how_s Hin_s) as (a & Ha & Hkey).
    destruct (saved_value_loads _ _ _ _ _ _ Hun Ha) as [v Hv].
    exists a, v. split; [exact Hkey |]. split; [apply andb_false_r | exact Hv]. }
  destruct (load_all_ok true arrays plan (other, hp)
              (fun attr key how Hin => Hloadable attr key how Hin)) as [[other' hp'] Hload].
  destruct (load_all_spec true arrays plan other other' hp hp' Hnd Hload)
    as (Hsubh & Hframe & Hplan).
  exists other', hp'. split; [exact Hload |]. split; [exact Hsubh |].
  split; [exact Hframe |]. split.
  - intros name Hin Hne.
    apply list_elem_of_fmap in Hin as ([[attr key] how] & -> & Hin). simpl in *.
    destruct (plans_agree attr key how (Hsub _ Hin))
      as (how_s & Hin_s & Hun & [Hfrom | [_ ->]]); [| contradiction].
    destruct (Hsaved key how_s Hin_s) as (a & Ha & Hkey).
    destruct (Hplan _ _ _ Hin) as (a' & v & Hkey' & Hv & Hc & _).
    rewrite Hkey in Hkey'. injection Hkey' as <-.
    rewrite (saved_value_round_trip _ _ _ _ _ _ _ _ Hfrom Hun Ha Hv).
    split; [eauto | exact Hc].
  - intros name l Hin Hl.
    apply list_elem_of_fmap in Hin as ([[attr key] how] & -> & Hin).
    destruct (Hplan _ _ _ Hin) as (_ & _ & _ & _ & _ & Hf). now apply Hf.
Qed.

Lemma length_append (s t : string) :
  String.length (s ++ t) = (String.length s + String.length t)%nat.
Proof. induction s as [| c s IH]; [reflexivity |]. simpl. now rewrite IH. Qed.

(** X18. [np.savez_compressed] appends [.npz] to a name that does not end
    with it, and [load] looks for the name it is given: after [save] to such
    a name, in a place where no file of that name was, [load] from the same
    name raises [FileNotFoundError], whatever numpy does with pickles; the
    file is under the name extended by [.npz]. From that name, a numpy that
    reads object arrays (the default of [np.load] up to numpy 1.16.2) loads
    the store with its content; a numpy that refuses pickles (the default
    since 1.16.3) finds the file and raises the exception wrapping
    [ValueError] on the object array of [fit_axis]. *)
Theorem save_appends_extension
    (fs fs' : filesystem) (hp : heap) (self : object) (filename : string) :
  endswith filename ".npz" = false ->
  files fs !! filename = None ->
  save fs hp self filename = Ok fs' ->
  (forall allow_pickle : bool,
      from_file allow_pickle fs' hp filename = Raise FileNotFoundError)
  /\ (exists (self' : object) (hp' : heap),
        from_file true fs' hp (filename ++ ".npz") = Ok (self', hp')
        /\ (forall name, name ∈ plan_attrs load_plan ->
              name <> "fit_function_name"%string ->
              content hp' self' name = content hp self name))
  /\ (forall a, content hp self "fit_axis" = Some a -> has_object a = true ->
        from_file false fs' hp (filename ++ ".npz")
        = Raise (WrappedException ValueError)).
Proof.
  intros Hext Hnew Hsave.
  destruct (save_writes _ _ _ _ _ Hsave) as (fit_func & arrays & Hfn & Hbuild & ->).
  unfold np_savez_compressed. rewrite Hext.
  assert (filename <> (filename ++ ".npz")%string) as Hne.
  { intros E. apply (f_equal String.length) in E. rewrite length_append in E.
    simpl in E. lia. }
  split; [| split].
  - intros allow_pickle. unfold from_file, load, isfile. cbn [files].
    rewrite lookup_insert_ne by congruence. rewrite Hnew.
    rewrite bool_decide_eq_false_2 by (intros [? ?]; discriminate). reflexivity.
  - destruct (load_saved_archive hp self ∅ fit_func arrays load_plan
                (fun e He => He) load_plan_attrs_NoDup Hbuild)
      as (self' & hp' & Hload & _ & _ & Hsame & _).
    exists self', hp'. split.
    + unfold from_file, load, isfile. cbn [files]. rewrite lookup_insert_eq.
      rewrite bool_decide_eq_true_2 by eauto. cbn [negb rbind]. now rewrite Hload.
    + intros name Hin Hname. now apply Hsame.
  - intros a Hc Ha. unfold from_file, load, isfile. cbn [files].
    rewrite lookup_insert_eq.
    rewrite bool_decide_eq_true_2 by eauto. cbn [negb rbind].
    rewrite (load_saved_archive_refused hp self ∅ fit_func arrays load_plan a);
      [reflexivity | auto | unfold load_plan; repeat constructor | exact Hbuild
      | exact Hc | exact Ha].
Qed.

Lemma save_appends_extension_witness :
  exists fs',
    save example_fs example_heap (example_object "model_f") "/out/h" = Ok fs'
    /\ from_file true fs' example_heap "/out/h" = Raise FileNotFoundError
    /\ from_file false fs' example_heap "/out/h.npz"
       = Raise (WrappedException ValueError).
Proof.
  assert (exists fs',
             save example_fs example_heap (example_object "model_f") "/out/h" = Ok fs')
    as [fs' Hsave] by (eexists; vm_compute; reflexivity).
  destruct (save_appends_extension example_fs fs' example_heap
              (example_object "model_f") "/out/h") as (Hbare & _ & Hrefused);
    [reflexivity | reflexivity | exact Hsave |].
  exists fs'. split; [exact Hsave |]. split; [apply Hbare |].
  apply (Hrefused (Leaf CNone)); reflexivity.
Defined.

(** X19. The store that [load] fills holds the fifteen attributes of the
    archive and no other: the name of the fit function is there, the fit
    function is not, so that [save], which reads [self.fit_function], cannot
    save a store that was loaded from a file and not fitted again: it raises
    the exception wrapping the [AttributeError]. *)
Theorem loaded_store_not_saved (allow_pickle : bool)
    (fs : filesystem) (hp hp' : heap) (self' : object) (filename : string) :
  from_file allow_pickle fs hp filename = Ok (self', hp') ->
  (forall name, name ∈ plan_attrs load_plan <-> is_Some (self' !! name))
  /\ self' !! "fit_function"%string = None
  /\ (forall (fs2 : filesystem) (hp2 : heap) (target : string),
         isdir fs2 (dirname target) = true ->
         save fs2 hp2 self' target = Raise (WrappedException AttributeError)).
Proof.
  intros Hload. unfold from_file, load in Hload.
  destruct (negb (isfile fs filename)); [discriminate |].
  destruct (files fs !! filename) as [file |]; cbn [rbind] in Hload; [| discriminate].
  destruct (load_all allow_pickle file (∅, hp) load_plan) as [[s1 h1] |] eqn:Hall;
    [| discriminate].
  injection Hload as -> ->.
  destruct (load_all_spec allow_pickle file load_plan ∅ self' hp hp'
              load_plan_attrs_NoDup Hall) as (_ & Hframe & Hplan).
  assert (self' !! "fit_function"%string = None) as Hnone.
  { rewrite Hframe; [apply lookup_empty |].
    apply (bool_decide_unpack _). vm_compute. exact I. }
  split; [| split; [exact Hnone |]].
  - intros name. split.
    + intros Hin. apply list_elem_of_fmap in Hin as ([[attr key] how] & -> & Hin).
      destruct (Hplan _ _ _ Hin) as (a & v & _ & _ & Hc & _).
      unfold content in Hc. simpl. destruct (self' !! attr); [eauto | discriminate].
    + intros [v Hv]. destruct (decide (name ∈ plan_attrs load_plan)) as [| Hnot];
        [assumption |].
      rewrite (Hframe name Hnot), lookup_empty in Hv. discriminate.
  - intros fs2 hp2 target Hdir. unfold save. rewrite Hdir. cbn [negb].
    unfold fit_func_name, getattr. now rewrite Hnone.
Qed.

Lemma loaded_store_not_saved_witness :
  exists fs' self' hp',
    save example_fs example_heap (example_object "model_f") "/out/h.npz" = Ok fs'
    /\ from_file true fs' example_heap "/out/h.npz" = Ok (self', hp')
    /\ save fs' hp' self' "/out/again.npz" = Raise (WrappedException AttributeError).
Proof.
  assert (exists fs',
             save example_fs example_heap (example_object "model_f") "/out/h.npz" = Ok fs')
    as [fs' Hsave] by (eexists; vm_compute; reflexivity).
  destruct (save_writes _ _ _ _ _ Hsave) as (fit_func & arrays & _ & Hbuild & Hfs).
  destruct (load_saved_archive example_heap (example_object "model_f") ∅ fit_func arrays
              load_plan (fun e He => He) load_plan_attrs_NoDup Hbuild)
    as (self' & hp' & Hall & _).
  assert (from_file true fs' example_heap "/out/h.npz" = Ok (self', hp')) as Hload.
  { rewrite Hfs. unfold from_file, load, isfile, np_savez_compressed.
    change (endswith "/out/h.npz" ".npz") with true. cbn [files].
    rewrite lookup_insert_eq.
    rewrite bool_decide_eq_true_2 by eauto. cbn [negb rbind]. now rewrite Hall. }
  exists fs', self', hp'. split; [exact Hsave |]. split; [exact Hload |].
  apply (proj2 (proj2 (loaded_store_not_saved true fs' example_heap hp' self'
                         "/out/h.npz" Hload))).
  rewrite Hfs. reflexivity.
Defined.

Lemma load_all_copy_ref (allow_pickle : bool) (file : archive)
    (plan : list (string * string * loaded_as)) :
  forall (self self' : object) (hp hp' : heap) (attr key : string),
    NoDup (plan_attrs plan) ->
    load_all allow_pickle file (self, hp) plan = Ok (self', hp') ->
    (attr, key, Copy) ∈ plan ->
    exists l, self' !! attr = Some (PRef l).
Proof.
  induction plan as [| [[attr0 key0] how0] plan IH];
    intros self self' hp hp' attr key Hnd Hload Hin.
  - inversion Hin.
  - simpl in Hload. apply rbind_ok in Hload as ([self1 hp1] & Hone & Hrest).
    apply NoDup_cons in Hnd as [Hnotin Hnd].
    apply elem_of_cons in Hin as [[= <- <- <-] | Hin].
    + destruct (load_all_spec _ _ _ _ _ _ _ Hnd Hrest) as (_ & Hframe & _).
      rewrite (Hframe attr Hnotin).
      unfold load_one, getitem in Hone.
      destruct (file !! key) as [a |]; cbn [rbind] in Hone; [| discriminate].
      destruct (has_object a && negb allow_pickle); cbn [rbind] in Hone;
        [discriminate |].
      unfold np_copy in Hone. injection Hone as <- <-.
      eexists. apply lookup_insert_eq.
    + now apply (IH self1 self' hp1 hp' attr key).
Qed.

Lemma fit_plan_in_load_plan (e : string * string * loaded_as) :
  e ∈ FitOnly.fit_plan -> e ∈ load_plan.
Proof.
  intros Hin. unfold FitOnly.fit_plan in Hin.
  repeat (apply elem_of_cons in Hin as [-> | Hin];
          [unfold load_plan; repeat constructor |]).
  inversion Hin.
Qed.

Lemma fit_plan_attrs_NoDup : NoDup (plan_attrs FitOnly.fit_plan).
Proof. apply (bool_decide_unpack _). vm_compute. exact I. Qed.

(** X20. Where [np.load] reads the object arrays of the archive (its
    default up to numpy 1.16.2), [load_fit_results] takes from a saved store
    the results of its fit and nothing else: [fit_result], [fit_chi2_ndof],
    [fit_axis] and [fit_result_label] come back with the content they had,
    in new storage, and every attribute but these and [fit_function_name] is
    left as the receiving object had it; a store built with [fit_only]
    therefore has no [data]. Where [np.load] refuses pickles (its default
    since numpy 1.16.3), [load_fit_results] raises the exception wrapping
    [ValueError] on the object array of [fit_axis]. *)
Theorem load_fit_results_only
    (fs fs' : filesystem) (hp : heap) (self other : object) (filename : string) :
  endswith filename ".npz" = true ->
  save fs hp self filename = Ok fs' ->
  (forall a, content hp self "fit_axis" = Some a -> has_object a = true ->
     FitOnly.load_fit_results false fs' hp other filename
     = Raise (WrappedException ValueError))
  /\ exists (other' : object) (hp' : heap),
    FitOnly.load_fit_results true fs' hp other filename = Ok (other', hp')
    /\ (forall name,
          name ∈ ["fit_result"; "fit_chi2_ndof"; "fit_axis"; "fit_result_label"]%string ->
          content hp' other' name = content hp self name
          /\ exists l, other' !! name = Some (PRef l) /\ l ∉ dom hp)
    /\ (forall name, name ∉ plan_attrs FitOnly.fit_plan -> other' !! name = other !! name)
    /\ (other = ∅ ->
        FitOnly.from_file_fit_only true fs' hp filename = Ok (other', hp')
        /\ getattr other' "data" = Raise AttributeError).
Proof.
  intros Hext Hsave.
  destruct (save_inv _ _ _ _ _ Hext Hsave) as (fit_func & arrays & Hfn & Hbuild & Hfile).
  split.
  { intros a Hc Ha. unfold FitOnly.load_fit_results, isfile. rewrite Hfile.
    rewrite bool_decide_eq_true_2 by eauto. cbn [negb rbind].
    rewrite (load_saved_archive_refused hp self other fit_func arrays
               FitOnly.fit_plan a);
      [reflexivity | exact fit_plan_in_load_plan
      | unfold FitOnly.fit_plan; repeat constructor | exact Hbuild | exact Hc | exact Ha]. }
  destruct (load_saved_archive hp self other fit_func arrays FitOnly.fit_plan
              fit_plan_in_load_plan fit_plan_attrs_NoDup Hbuild)
    as (other' & hp' & Hload & Hsub & Hframe & Hsame & Hfresh).
  assert (FitOnly.load_fit_results true fs' hp other filename = Ok (other', hp')) as Hres.
  { unfold FitOnly.load_fit_results, isfile. rewrite Hfile.
    rewrite bool_decide_eq_true_2 by eauto. cbn [negb rbind]. now rewrite Hload. }
  exists other', hp'. split; [exact Hres |]. split; [| split; [exact Hframe |]].
  - intros name Hin.
    assert ((name, name, Copy) ∈ FitOnly.fit_plan /\ name <> "fit_function_name"%string)
      as [Hplan Hne].
    { repeat (apply elem_of_cons in Hin as [-> | Hin];
              [split; [unfold FitOnly.fit_plan; repeat constructor | discriminate] |]).
      inversion Hin. }
    assert (name ∈ plan_attrs FitOnly.fit_plan) as Hattr.
    { apply list_elem_of_fmap. now exists (name, name, Copy). }
    destruct (Hsame name Hattr Hne) as [_ Hc]. split; [exact Hc |].
    destruct (load_all_copy_ref true arrays FitOnly.fit_plan other other' hp hp' name name
                fit_plan_attrs_NoDup Hload Hplan) as [l Hl].
    exists l. split; [exact Hl |]. now apply (Hfresh name l).
  - intros ->. split; [exact Hres |].
    unfold getattr. rewrite Hframe; [now rewrite lookup_empty |].
    apply (bool_decide_unpack _). vm_compute. exact I.
Qed.

End SaveAndLoad.

Lemma load_fit_results_only_witness :
  exists fs' other' hp',
    Persistence.save example_fs example_heap (example_object "model_f") "/out/h.npz"
    = Ok fs'
    /\ FitOnly.from_file_fit_only true fs' example_heap "/out/h.npz" = Ok (other', hp')
    /\ Persistence.getattr other' "data" = Raise AttributeError
    /\ FitOnly.load_fit_results false fs' example_heap ∅ "/out/h.npz"
       = Raise (WrappedException ValueError).
Proof.
  assert (exists fs',
             Persistence.save example_fs example_heap (example_object "model_f")
                              "/out/h.npz" = Ok fs') as [fs' Hsave]
    by (eexists; vm_compute; reflexivity).
  destruct (load_fit_results_only example_fs fs' example_heap (example_object "model_f")
              ∅ "/out/h.npz") as (Hrefused & other' & hp' & _ & _ & _ & Hempty).
  - reflexivity.
  - exact Hsave.
  - exists fs', other', hp'. split; [exact Hsave |].
    destruct (Hempty eq_refl) as [Hload Hdata].
    split; [exact Hload |]. split; [exact Hdata |].
    apply (Hrefused (Persistence.Leaf Persistence.CNone)); reflexivity.
Defined.

(** ** The events that reach the store *)

Section DarkHistProps.

Import DarkHist.

Variables (opts : options) (hist_type : string).

Lemma numbered_in_beyond (events : list event) : forall n : Z,
  max_event opts < n -> numbered_in opts n events = [].
Proof.
  induction events as [| ev rest IH]; intros n Hn; [reflexivity |].
  cbn [numbered_in]. destruct (Z.leb_spec n (max_event opts)); [lia |].
  rewrite andb_false_r. apply IH. lia.
Qed.

Lemma numbered_in_app (events1 events2 : list event) : forall n : Z,
  numbered_in opts n (events1 ++ events2)
  = numbered_in opts n events1
    ++ numbered_in opts (n + Z.of_nat (length events1)) events2.
Proof.
  induction events1 as [| ev rest IH]; intros n.
  - simpl. now rewrite Z.add_0_r.
  - cbn [app numbered_in length]. rewrite IH.
    replace (n + 1 + Z.of_nat (length rest)) with (n + Z.of_nat (S (length rest))) by lia.
    destruct (_ && _); reflexivity.
Qed.

Lemma fill_events_app (events1 events2 : list event) : forall hist : Histogram,
  fill_events opts hist_type hist (events1 ++ events2)
  = (hist' <-? fill_events opts hist_type hist events1 ;;
     fill_events opts hist_type hist' events2).
Proof.
  induction events1 as [| ev rest IH]; intros hist; [reflexivity |].
  cbn [app fill_events].
  destruct (fill_event opts hist_type hist ev) as [hist' |]; cbn [rbind]; [| reflexivity].
  apply IH.
Qed.

(** One file: the events whose number is in the window are filled, and
    the counter ends beyond the window or on the number of the next
    event. *)
Lemma run_events_window (events : list event) : forall (n : Z) (hist : Histogram),
  match fill_events opts hist_type hist (numbered_in opts n events) with
  | Raise e => run_events opts hist_type events n hist = Raise e
  | Ok hist' =>
      exists n',
        run_events opts hist_type events n hist = Ok (n', hist')
        /\ (n' = n + Z.of_nat (length events)
            \/ (max_event opts < n' /\ n' <= n + Z.of_nat (length events)))
  end.
Proof.
  induction events as [| ev rest IH]; intros n hist.
  - exists n. split; [reflexivity |]. left. simpl. lia.
  - cbn [run_events numbered_in].
    destruct (Z.ltb_spec (max_event opts) n) as [Hbeyond | Hin].
    + destruct (Z.leb_spec n (max_event opts)); [lia |].
      rewrite andb_false_r, numbered_in_beyond by lia.
      exists n. split; [reflexivity |]. right. simpl length. lia.
    + destruct (Z.leb_spec n (max_event opts)); [| lia]. rewrite andb_true_r.
      destruct (Z.ltb_spec n (min_event opts)) as [Hskip | Hfill].
      * destruct (Z.leb_spec (min_event opts) n); [lia |].
        specialize (IH (n + 1) hist).
        destruct (fill_events opts hist_type hist (numbered_in opts (n + 1) rest));
          [| exact IH].
        destruct IH as (n' & Hrun & Hn'). exists n'.
        split; [exact Hrun |]. simpl length. lia.
      * destruct (Z.leb_spec (min_event opts) n); [| lia].
        cbn [fill_events].
        destruct (fill_event opts hist_type hist ev) as [hist1 | e]; cbn [rbind];
          [| reflexivity].
        specialize (IH (n + 1) hist1).
        destruct (fill_events opts hist_type hist1 (numbered_in opts (n + 1) rest));
          [| exact IH].
        destruct IH as (n' & Hrun & Hn'). exists n'.
        split; [exact Hrun |]. simpl length. lia.
Qed.

Lemma run_files_window (files : list (list event)) : forall (n : Z) (hist : Histogram),
  match fill_events opts hist_type hist (numbered_in opts n (concat files)) with
  | Raise e => run_files opts hist_type files n hist = Raise e
  | Ok hist' => exists n', run_files opts hist_type files n hist = Ok (n', hist')
  end.
Proof.
  induction files as [| events rest IH]; intros n hist.
  - exists n. reflexivity.
  - cbn [concat run_files]. rewrite numbered_in_app, fill_events_app.
    pose proof (run_events_window events n hist) as Hfile.
    destruct (fill_events opts hist_type hist (numbered_in opts n events)) as [hist1 | e];
      cbn [rbind]; [| now rewrite Hfile].
    destruct Hfile as (n1 & -> & Hn1). cbn [rbind fst snd].
    assert (numbered_in opts (n + Z.of_nat (length events)) (concat rest)
            = numbered_in opts n1 (concat rest)) as ->.
    { destruct Hn1 as [-> | [Hbeyond Hle]]; [reflexivity |].
      now rewrite !numbered_in_beyond by lia. }
    apply IH.
Qed.

Lemma numbered_in_take_drop (events : list event) : forall n : Z,
  n <= max_event opts + 1 ->
  numbered_in opts n events
  = take (Z.to_nat (max_event opts + 1 - Z.max n (min_event opts)))
         (drop (Z.to_nat (min_event opts - n)) events).
Proof.
  induction events as [| ev rest IH]; intros n Hn.
  - now rewrite drop_nil, take_nil.
  - cbn [numbered_in].
    destruct (Z.leb_spec (min_event opts) n) as [Hmin | Hmin];
      destruct (Z.leb_spec n (max_event opts)) as [Hmax | Hmax]; cbn [andb].
    + replace (Z.to_nat (min_event opts - n)) with 0%nat by lia. cbn [drop].
      replace (Z.to_nat (max_event opts + 1 - Z.max n (min_event opts)))
        with (S (Z.to_nat (max_event opts + 1 - Z.max (n + 1) (min_event opts)))) by lia.
      cbn [take]. f_equal. rewrite IH by lia.
      replace (Z.to_nat (min_event opts - (n + 1))) with 0%nat by lia. reflexivity.
    + rewrite numbered_in_beyond by lia.
      replace (Z.to_nat (max_event opts + 1 - Z.max n (min_event opts))) with 0%nat by lia.
      reflexivity.
    + replace (Z.to_nat (min_event opts - n))
        with (S (Z.to_nat (min_event opts - (n + 1)))) by lia.
      cbn [drop]. rewrite IH by lia. do 2 f_equal. lia.
    + rewrite numbered_in_beyond by lia.
      replace (Z.to_nat (max_event opts + 1 - Z.max n (min_event opts))) with 0%nat by lia.
      reflexivity.
Qed.

Lemma run_fills_numbered (hist : Histogram) (files : list (list event)) :
  run hist opts hist_type files
  = fill_events opts hist_type hist (numbered_in opts 0 (concat files)).
Proof.
  unfold run. pose proof (run_files_window files 0 hist) as H.
  destruct (fill_events opts hist_type hist (numbered_in opts 0 (concat files)))
    as [hist' | e].
  - destruct H as (n' & ->). reflexivity.
  - now rewrite H.
Qed.

Lemma mapM_py_index {A} (l : list A) (idx : list Z) :
  (exists out, mapM (py_index l) idx = Ok out) \/ mapM (py_index l) idx = Raise IndexError.
Proof.
  induction idx as [| i idx IH]; [left; now exists [] |].
  cbn [mapM]. 
  assert ((exists a, py_index l i = Ok a) \/ py_index l i = Raise IndexError) as [[a ->] | ->].
  { unfold py_index. destruct (_ && _); [| now right].
    destruct (l !! _); [left; eauto | now right]. }
  - cbn [rbind]. destruct IH as [[out ->] | ->]; [left; eexists; reflexivity | now right].
  - now right.
Qed.

(** X21. [run] fills the store with the events numbered [min_event] to
    [max_event], both included, the events being numbered from 0 through the
    files in the order the readers yield them: [max_event - min_event + 1]
    events when there are enough of them. The events before and after are
    not read into the store, and an exception of a fill comes out of [run]. *)
Theorem dark_run_window (hist : Histogram) (files : list (list event)) :
  run hist opts hist_type files
  = fill_events opts hist_type hist (numbered_in opts 0 (concat files))
  /\ (0 <= min_event opts <= max_event opts + 1 ->
      numbered_in opts 0 (concat files)
      = take (Z.to_nat (max_event opts - min_event opts + 1))
             (drop (Z.to_nat (min_event opts)) (concat files))).
Proof.
  split; [apply run_fills_numbered |].
  intros Hwin. rewrite numbered_in_take_drop by lia.
  rewrite Z.sub_0_r. do 2 f_equal. lia.
Qed.

(** X22. With a [hist_type] that is neither ['raw'] nor ['integral'],
    [run] leaves the store as it is; the only exception it can raise is the
    [IndexError] of [data[options.pixel_list]]. *)
Theorem dark_run_unknown_type (hist : Histogram) (files : list (list event)) :
  hist_type <> "raw"%string ->
  hist_type <> "integral"%string ->
  run hist opts hist_type files = Ok hist
  \/ run hist opts hist_type files = Raise IndexError.
Proof.
  intros Hraw Hint.
  assert (forall tel, fill_tel opts hist_type hist tel = Ok hist
                      \/ fill_tel opts hist_type hist tel = Raise IndexError) as Htel.
  { intros tel. unfold fill_tel.
    destruct (mapM_py_index tel (pixel_list opts)) as [[data ->] | ->]; [| now right].
    cbn [rbind]. apply String.eqb_neq in Hraw, Hint. rewrite Hraw, Hint. now left. }
  assert (forall ev, fill_event opts hist_type hist ev = Ok hist
                     \/ fill_event opts hist_type hist ev = Raise IndexError) as Hev.
  { induction ev as [| tel tels IH]; [now left |]. cbn [fill_event].
    destruct (Htel tel) as [-> | ->]; [exact IH | now right]. }
  assert (forall events, fill_events opts hist_type hist events = Ok hist
                         \/ fill_events opts hist_type hist events = Raise IndexError)
    as Hevs.
  { induction events as [| ev rest IH]; [now left |]. cbn [fill_events].
    destruct (Hev ev) as [-> | ->]; [exact IH | now right]. }
  rewrite run_fills_numbered. apply Hevs.
Qed.

End DarkHistProps.

Lemma dark_run_window_witness :
  let opts := {| DarkHist.min_event := 1; DarkHist.max_event := 2;
                 DarkHist.pixel_list := [0] |} in
  let files : list (list DarkHist.event) :=
    [[[[[1; 1]]]; [[[2; 2]]]]; [[[[3; 3]]]; [[[4; 4]]]]]%Q in
  DarkHist.numbered_in opts 0 (concat files) = [[[[2; 2]]]; [[[3; 3]]]]%Q
  /\ (h <-? DarkHist.run store_0_10 opts "raw" files ;; Ok (data h))
     = Ok [[0; 0; 2; 2; 0; 0; 0; 0; 0; 0; 0]]%Q.
Proof.
  intros opts files. split.
  - rewrite (proj2 (dark_run_window opts "raw" store_0_10 files)); [reflexivity |].
    simpl. lia.
  - rewrite (proj1 (dark_run_window opts "raw" store_0_10 files)). vm_compute. reflexivity.
Defined.

Lemma dark_run_unknown_type_witness :
  let opts := {| DarkHist.min_event := 0; DarkHist.max_event := 5;
                 DarkHist.pixel_list := [0] |} in
  DarkHist.run store_0_10 opts "adc" [[[[[1; 1]]]; [[[2; 2]]]]]%Q = Ok store_0_10
  \/ DarkHist.run store_0_10 opts "adc" [[[[[1; 1]]]; [[[2; 2]]]]]%Q = Raise IndexError.
Proof.
  intros opts. apply (dark_run_unknown_type opts "adc"); discriminate.
Defined.
